(** * hiproc: the recall engine of [src/hiproc/crud.py] over a relational store

    A shallow embedding of the CRUD layer of hiproc.  The SQLAlchemy session
    is a record of three tables, each a list of rows in table-scan order
    (SQLite scans in rowid order).  Every operation of [crud.py] is a
    computation in a small state monad over that record: queries read the
    tables, [commit] writes them.

    Conventions of the embedding:
    - a nullable column and an optional argument are [option]; the SQLAlchemy
      comparison [column == value] renders as [IS NULL] when the value is
      [None], so it is equality of optional values;
    - [ORDER BY] leaves the order of ties to the engine; here ties stay in
      scan order (a stable sort), as they do for Python's [list.sort];
    - timestamps are integers (seconds of the Unix epoch) and the clock
      reading [datetime.utcnow()] is an argument [now] of each operation that
      reads it;
    - an operation that can raise answers with a [Result]: the value it
      returns or the exception it raises;
    - strings are sequences of 8-bit code points. *)

From Stdlib Require Import Ascii ZArith Lia Sorted Permutation SpecFloat.
From stdpp Require Import base option list strings gmap.

Local Open Scope Z_scope.

(** ** Strings: the Python and SQL string operations the queries use *)

Module Str.

Definition code (a : ascii) : Z := Z.of_N (Ascii.N_of_ascii a).

(** [str.isspace] on one code point below 256. *)
Definition is_space (a : ascii) : bool :=
  let n := code a in
  ((9 <=? n) && (n <=? 13)) || ((28 <=? n) && (n <=? 32))
  || (n =? 133) || (n =? 160).

(** [str.lower] on one code point below 256. *)
Definition lower_char (a : ascii) : ascii :=
  let n := code a in
  if ((65 <=? n) && (n <=? 90))
     || ((192 <=? n) && (n <=? 222) && negb (n =? 215))
  then Ascii.ascii_of_N (Z.to_N (n + 32)) else a.

Fixpoint lower (s : string) : string :=
  match s with
  | EmptyString => EmptyString
  | String a s' => String (lower_char a) (lower s')
  end.

(** [s.split()]: maximal runs of non-space characters.  [cur] is the word
    being read, reversed. *)
Fixpoint split_ws_aux (s : string) (cur : list ascii) : list string :=
  match s with
  | EmptyString =>
      match cur with
      | [] => []
      | _ => [String.string_of_list_ascii (rev cur)]
      end
  | String a s' =>
      if is_space a then
        match cur with
        | [] => split_ws_aux s' []
        | _ => String.string_of_list_ascii (rev cur) :: split_ws_aux s' []
        end
      else split_ws_aux s' (a :: cur)
  end.

Definition split_ws (s : string) : list string := split_ws_aux s [].

(** [s.split(sep)] for a one-character separator: never the empty list. *)
Fixpoint split_on_aux (sep : ascii) (s : string) (cur : list ascii)
  : list string :=
  match s with
  | EmptyString => [String.string_of_list_ascii (rev cur)]
  | String a s' =>
      if Ascii.eqb a sep
      then String.string_of_list_ascii (rev cur) :: split_on_aux sep s' []
      else split_on_aux sep s' (a :: cur)
  end.

Definition split_on (sep : ascii) (s : string) : list string :=
  split_on_aux sep s [].

(** [s.split("/")[-1]] *)
Definition last_segment (s : string) : string :=
  List.last (split_on "/"%char s) EmptyString.

(** ["/" in s] *)
Fixpoint has_slash (s : string) : bool :=
  match s with
  | EmptyString => false
  | String a s' => Ascii.eqb a "/"%char || has_slash s'
  end.

(** SQLite's [LIKE]: [%] matches any run of characters, [_] any one
    character, any other character itself, letters A-Z without regard to
    case. *)
Definition fold_case (a : ascii) : ascii :=
  let n := code a in
  if (65 <=? n) && (n <=? 90) then Ascii.ascii_of_N (Z.to_N (n + 32)) else a.

Fixpoint like_chars (p : list ascii) : list ascii -> bool :=
  match p with
  | [] => fun s => match s with [] => true | _ => false end
  | c :: p' =>
      if Ascii.eqb c "%"%char then
        fix skip (s : list ascii) : bool :=
          like_chars p' s
          || match s with [] => false | _ :: s' => skip s' end
      else if Ascii.eqb c "_"%char then
        fun s => match s with [] => false | _ :: s' => like_chars p' s' end
      else
        fun s =>
          match s with
          | [] => false
          | d :: s' =>
              Ascii.eqb (fold_case c) (fold_case d) && like_chars p' s'
          end
  end.

Definition like (s pattern : string) : bool :=
  like_chars (String.list_ascii_of_string pattern) (String.list_ascii_of_string s).

End Str.

(** ** The tables of [models.py] *)

(** Columns that [schemas.Command] types [str] or [int] ([command_string],
    [name], [namespace], [scope], [use_count]) hold a value in every stored
    row; the columns it types optional are nullable.  Integer columns are
    unbounded integers. *)

Definition timestamp := Z.

Module Command.
Record t := mk {
  id : Z;
  command_string : string;
  name : string;
  namespace : string;
  user : option string;
  cwd : option string;
  hostname : option string;
  scope : string;
  created_at : timestamp;
  last_used_at : option timestamp;
  use_count : Z
}.
End Command.

Module ExecutionHistory.
Record t := mk {
  id : Z;
  command_id : Z;
  user : option string;
  hostname : option string;
  cwd : option string;
  executed_at : timestamp;
  arguments : option string;
  execution_method : option string;
  duration_ms : option Z;
  exit_code : option Z
}.
End ExecutionHistory.

Module ProjectContext.
Record t := mk {
  id : Z;
  directory_pattern : string;
  detected_namespace : string;
  project_type : string;
  confidence_score : Z;
  last_detected : timestamp;
  usage_count : Z
}.
End ProjectContext.

#[global] Instance command_eq_dec : EqDecision Command.t.
Proof. solve_decision. Defined.

#[global] Instance execution_eq_dec : EqDecision ExecutionHistory.t.
Proof. solve_decision. Defined.

#[global] Instance context_eq_dec : EqDecision ProjectContext.t.
Proof. solve_decision. Defined.

(** The session: the three tables the CRUD layer reads and writes. *)
Record Session := mkSession {
  commands : list Command.t;
  executions : list ExecutionHistory.t;
  contexts : list ProjectContext.t
}.

(** ** The unit of work: a state monad over the session *)

Definition DB (A : Type) : Type := Session -> A * Session.

Definition ret {A} (a : A) : DB A := fun db => (a, db).

Definition bind {A B} (m : DB A) (k : A -> DB B) : DB B :=
  fun db => let (a, db') := m db in k a db'.

(** [db.query(...)...]: reads the tables. *)
Definition query {A} (q : Session -> A) : DB A := fun db => (q db, db).

(** [db.commit()] after changes to tracked rows: writes the tables. *)
Definition commit (f : Session -> Session) : DB unit := fun db => (tt, f db).

Notation "'do' x <- m ; k" := (bind m (fun x => k))
  (at level 10, x name, m at level 100, k at level 200).
Notation "'run' m ; k" := (bind m (fun _ => k))
  (at level 10, m at level 100, k at level 200).

(** ** Query combinators: the part of SQL the queries use *)

Section Query.
Context {A : Type}.

(** [.filter(p)] *)
Definition where_ (p : A -> bool) (rows : list A) : list A :=
  List.filter p rows.

(** [ORDER BY]: [before y x] says that [y] comes strictly before [x] in
    the requested order.  Insertion keeps ties in scan order. *)
Fixpoint insert_by (before : A -> A -> bool) (x : A) (l : list A) : list A :=
  match l with
  | [] => [x]
  | y :: l' => if before y x then y :: insert_by before x l' else x :: l
  end.

Definition order_by (before : A -> A -> bool) (rows : list A) : list A :=
  foldr (insert_by before) [] rows.

(** [.first()] *)
Definition first (rows : list A) : option A := head rows.

(** [.limit(n)]: SQLite reads a negative [LIMIT] as no limit. *)
Definition limit (n : Z) (rows : list A) : list A :=
  if n <? 0 then rows else take (Z.to_nat n) rows.

(** Python's [l[:n]] *)
Definition slice_to (n : Z) (l : list A) : list A :=
  if n <? 0 then take (length l - Z.to_nat (- n)) l else take (Z.to_nat n) l.

(** [len(l)] *)
Definition len (l : list A) : Z := Z.of_nat (length l).

(** [col.desc()] on an integer column *)
Definition desc (key : A -> Z) : A -> A -> bool :=
  fun y x => key x <? key y.

(** [col.desc().nullslast()] on a nullable integer column *)
Definition desc_nullslast (key : A -> option Z) : A -> A -> bool :=
  fun y x =>
    match key y, key x with
    | Some ky, Some kx => kx <? ky
    | Some _, None => true
    | None, _ => false
    end.

(** [order_by(o1, o2)]: [o2] decides among the ties of [o1]. *)
Definition then_by (o1 o2 : A -> A -> bool) : A -> A -> bool :=
  fun y x => o1 y x || (negb (o1 x y) && o2 y x).

End Query.

(** Python truthiness of an optional string: [None] and [""] are false. *)
Definition truthy (o : option string) : bool :=
  match o with
  | Some s => negb (String.eqb s "")
  | None => false
  end.

(** [all([...])] *)
Definition all_truthy (os : list (option string)) : bool := forallb truthy os.

(** [column == value] on a nullable column *)
Definition eq_col {T} `{EqDecision T} (col value : option T) : bool :=
  bool_decide (col = value).

(** [a == b] and [a != b] on a column that is never NULL *)
Definition eq_str (a b : string) : bool := bool_decide (a = b).
Definition ne_str (a b : string) : bool := negb (bool_decide (a = b)).
Definition eq_int (a b : Z) : bool := bool_decide (a = b).

(** [col.like(pattern)] on a nullable column: NULL matches nothing. *)
Definition like_col (col : option string) (pattern : string) : bool :=
  match col with
  | Some s => Str.like s pattern
  | None => false
  end.

(** ** Writing rows *)

Definition set_use_count (n : Z) (c : Command.t) : Command.t :=
  Command.mk (Command.id c) (Command.command_string c) (Command.name c)
    (Command.namespace c) (Command.user c) (Command.cwd c)
    (Command.hostname c) (Command.scope c) (Command.created_at c)
    (Command.last_used_at c) n.

Definition set_last_used_at (t : option timestamp) (c : Command.t)
  : Command.t :=
  Command.mk (Command.id c) (Command.command_string c) (Command.name c)
    (Command.namespace c) (Command.user c) (Command.cwd c)
    (Command.hostname c) (Command.scope c) (Command.created_at c)
    t (Command.use_count c).

Definition set_command_string (s : string) (c : Command.t) : Command.t :=
  Command.mk (Command.id c) s (Command.name c)
    (Command.namespace c) (Command.user c) (Command.cwd c)
    (Command.hostname c) (Command.scope c) (Command.created_at c)
    (Command.last_used_at c) (Command.use_count c).

Definition set_name (name namespace : string) (c : Command.t) : Command.t :=
  Command.mk (Command.id c) (Command.command_string c) name
    namespace (Command.user c) (Command.cwd c)
    (Command.hostname c) (Command.scope c) (Command.created_at c)
    (Command.last_used_at c) (Command.use_count c).

(** The unit of work flushes a changed row by primary key:
    [UPDATE commands SET ... WHERE id = ?]. *)
Definition flush_command (c : Command.t) (db : Session) : Session :=
  mkSession
    (map (fun r => if eq_int (Command.id r) (Command.id c) then c else r)
       (commands db))
    (executions db) (contexts db).

(** [db.delete(c)]: the row goes, and with it (cascade) its executions. *)
Definition delete_row (c : Command.t) (db : Session) : Session :=
  mkSession
    (where_ (fun r => negb (eq_int (Command.id r) (Command.id c)))
       (commands db))
    (where_ (fun e =>
               negb (eq_int (ExecutionHistory.command_id e) (Command.id c)))
       (executions db))
    (contexts db).

(** The next rowid of a table: one more than the largest in use, 1 for an
    empty table. *)
Definition next_id (ids : list Z) : Z :=
  match ids with
  | [] => 1
  | i :: ids' => 1 + foldr Z.max i ids'
  end.

(** ** [crud.py] *)

(** The four lines that every successful recall ends with:
    [command.use_count += 1; command.last_used_at = datetime.utcnow();
     db.commit(); db.refresh(command)]. *)
Definition _update_usage_stats (now : timestamp) (command : Command.t)
  : DB Command.t :=
  let command := set_use_count (Command.use_count command + 1) command in
  let command := set_last_used_at (Some now) command in
  run commit (flush_command command);
  ret command.

(** [for f in filters: command = query(select f).first(); if command: ...] *)
Fixpoint for_filters (now : timestamp)
    (select : (Command.t -> bool) -> Command.t -> bool)
    (filters : list (Command.t -> bool))
    (otherwise : DB (option Command.t)) : DB (option Command.t) :=
  match filters with
  | [] => otherwise
  | f :: filters' =>
      do command <- query (fun db =>
        first (order_by (desc Command.created_at)
                 (where_ (select f) (commands db))));
      match command with
      | Some command =>
          let command :=
            set_use_count (Command.use_count command + 1) command in
          let command := set_last_used_at (Some now) command in
          run commit (flush_command command);
          ret (Some command)
      | None => for_filters now select filters' otherwise
      end
  end.

Definition recall_command (now : timestamp) (name namespace : string)
    (user hostname cwd : option string) : DB (option Command.t) :=
  let personal_filters := [
    (fun c => eq_col (Command.user c) user
              && eq_col (Command.hostname c) hostname
              && eq_col (Command.cwd c) cwd);
    (fun c => eq_col (Command.user c) user
              && eq_col (Command.hostname c) hostname) ] in
  let shared_filters := [
    (fun c => eq_col (Command.hostname c) hostname
              && eq_col (Command.cwd c) cwd);
    (fun c => eq_col (Command.hostname c) hostname) ] in
  for_filters now
    (fun f c => eq_str (Command.name c) name
                && eq_str (Command.namespace c) namespace
                && eq_str (Command.scope c) "personal"
                && f c)
    personal_filters
  (for_filters now
    (fun f c => eq_str (Command.name c) name
                && eq_str (Command.namespace c) namespace
                && ne_str (Command.scope c) "personal"
                && f c)
    shared_filters
  (do command <- query (fun db =>
     first (order_by (desc Command.created_at)
              (where_ (fun c => eq_str (Command.name c) name
                                && eq_str (Command.namespace c) namespace)
                 (commands db))));
   match command with
   | Some command =>
       let command := set_use_count (Command.use_count command + 1) command in
       let command := set_last_used_at (Some now) command in
       run commit (flush_command command);
       ret (Some command)
   | None => ret None
   end)).

(** [schemas.CommandCreate] *)
Record CommandCreate := mkCommandCreate {
  cc_command_string : string;
  cc_name : string;
  cc_namespace : string;
  cc_user : option string;
  cc_cwd : option string;
  cc_hostname : option string;
  cc_scope : string
}.

(** The seven-column comparison of [create_command]. *)
Definition same_attributes (command : CommandCreate) (c : Command.t) : bool :=
  eq_str (Command.command_string c) (cc_command_string command)
  && eq_str (Command.name c) (cc_name command)
  && eq_str (Command.namespace c) (cc_namespace command)
  && eq_col (Command.user c) (cc_user command)
  && eq_col (Command.cwd c) (cc_cwd command)
  && eq_col (Command.hostname c) (cc_hostname command)
  && eq_str (Command.scope c) (cc_scope command).

(** The [models.Command] row built from the request, once inserted: the
    column defaults fill [created_at], [last_used_at] and [use_count]. *)
Definition new_row (now : timestamp) (command : CommandCreate) (db : Session)
  : Command.t :=
  Command.mk (next_id (map Command.id (commands db)))
    (cc_command_string command) (cc_name command) (cc_namespace command)
    (cc_user command) (cc_cwd command) (cc_hostname command)
    (cc_scope command) now None 0.

(** Returns the row and its [is_new] attribute. *)
Definition create_command (now : timestamp) (command : CommandCreate)
  : DB (Command.t * bool) :=
  do existing_command <- query (fun db =>
    first (where_ (same_attributes command) (commands db)));
  match existing_command with
  | Some existing_command => ret (existing_command, false)
  | None =>
      do db_command <- query (new_row now command);
      run commit (fun db =>
        mkSession (commands db ++ [db_command]) (executions db) (contexts db));
      ret (db_command, true)
  end.

Definition owned_by_id (command_id : Z) (user : string) (db : Session)
  : option Command.t :=
  first (where_ (fun c => eq_int (Command.id c) command_id
                          && eq_col (Command.user c) (Some user))
           (commands db)).

Definition update_command (command_id : Z) (user : string)
    (command_update : string) : DB (option Command.t) :=
  do db_command <- query (owned_by_id command_id user);
  match db_command with
  | Some db_command =>
      let db_command := set_command_string command_update db_command in
      run commit (flush_command db_command);
      ret (Some db_command)
  | None => ret None
  end.

Definition rename_command (command_id : Z) (user : string)
    (name namespace : string) : DB (option Command.t) :=
  do db_command <- query (owned_by_id command_id user);
  match db_command with
  | Some db_command =>
      let db_command := set_name name namespace db_command in
      run commit (flush_command db_command);
      ret (Some db_command)
  | None => ret None
  end.

Definition delete_command (command_id : Z) (user : string)
  : DB (option Command.t) :=
  do db_command <- query (owned_by_id command_id user);
  match db_command with
  | Some db_command =>
      run commit (delete_row db_command);
      ret (Some db_command)
  | None => ret None
  end.

Definition get_command_by_id (command_id : Z) (user : string)
  : DB (option Command.t) :=
  do command <- query (owned_by_id command_id user);
  match command with
  | Some command => ret (Some command)
  | None =>
      query (fun db =>
        first (where_ (fun c => eq_int (Command.id c) command_id
                                && ne_str (Command.scope c) "personal")
                 (commands db)))
  end.

Definition track_execution (now : timestamp) (command_id : Z) (user : string)
  : DB (option Command.t) :=
  do command <- get_command_by_id command_id user;
  match command with
  | Some command =>
      let command := set_use_count (Command.use_count command + 1) command in
      let command := set_last_used_at (Some now) command in
      run commit (flush_command command);
      ret (Some command)
  | None => ret None
  end.

(** One step of [recall_command_by_name]:
    [if gate: command = query.first(); if command: return _update_usage_stats(db, command)]
    and otherwise on to the next step. *)
Definition priority (now : timestamp) (gate : bool)
    (q : Session -> option Command.t)
    (otherwise : DB (option Command.t)) : DB (option Command.t) :=
  if gate then
    do command <- query q;
    match command with
    | Some command =>
        do command <- _update_usage_stats now command;
        ret (Some command)
    | None => otherwise
    end
  else otherwise.

(** [f"%{cwd.split('/')[-1]}%" if "/" in cwd else f"%{cwd}%"] *)
Definition similar_pattern (cwd : string) : string :=
  if Str.has_slash cwd then "%" +:+ Str.last_segment cwd +:+ "%"
  else "%" +:+ cwd +:+ "%".

Definition recall_command_by_name (now : timestamp) (name : string)
    (user hostname cwd namespace_hint scope_hint : option string)
  : DB (option Command.t) :=
  let base_query := fun db =>
    where_ (fun c => eq_str (Command.name c) name) (commands db) in
  (* Priority 1: exact context match with namespace hint *)
  priority now (all_truthy [user; hostname; cwd; namespace_hint])
    (fun db =>
       first (order_by (then_by (desc_nullslast Command.last_used_at)
                                (desc Command.created_at))
                (where_ (fun c =>
                           eq_col (Command.user c) user
                           && eq_col (Command.hostname c) hostname
                           && eq_col (Command.cwd c) cwd
                           && eq_col (Some (Command.namespace c)) namespace_hint
                           && eq_str (Command.scope c) "personal")
                   (base_query db))))
  (* Priority 2: user + hostname + namespace hint *)
  (priority now (all_truthy [user; hostname; namespace_hint])
    (fun db =>
       first (order_by (then_by (desc_nullslast Command.last_used_at)
                                (desc Command.created_at))
                (where_ (fun c =>
                           eq_col (Command.user c) user
                           && eq_col (Command.hostname c) hostname
                           && eq_col (Some (Command.namespace c)) namespace_hint
                           && eq_str (Command.scope c) "personal")
                   (base_query db))))
  (* Priority 3: user + hostname + cwd *)
  (priority now (all_truthy [user; hostname; cwd])
    (fun db =>
       first (order_by (then_by (desc Command.use_count)
                                (desc_nullslast Command.last_used_at))
                (where_ (fun c =>
                           eq_col (Command.user c) user
                           && eq_col (Command.hostname c) hostname
                           && eq_col (Command.cwd c) cwd
                           && eq_str (Command.scope c) "personal")
                   (base_query db))))
  (* Priority 4: user + hostname *)
  (priority now (all_truthy [user; hostname])
    (fun db =>
       first (order_by (then_by (desc Command.use_count)
                                (desc_nullslast Command.last_used_at))
                (where_ (fun c =>
                           eq_col (Command.user c) user
                           && eq_col (Command.hostname c) hostname
                           && eq_str (Command.scope c) "personal")
                   (base_query db))))
  (* Priority 5: directory pattern matching *)
  (priority now (truthy cwd)
    (fun db =>
       first (order_by (desc Command.use_count)
                (where_ (fun c =>
                           like_col (Command.cwd c)
                             (similar_pattern (default "" cwd))
                           && (if truthy user
                               then eq_col (Command.user c) user else true))
                   (base_query db))))
  (* Priority 6: namespace preference *)
  (priority now (truthy namespace_hint)
    (fun db =>
       first (order_by (desc Command.use_count)
                (where_ (fun c =>
                           eq_col (Some (Command.namespace c)) namespace_hint)
                   (base_query db))))
  (* Priority 7: scope preference *)
  (priority now (truthy scope_hint)
    (fun db =>
       first (order_by (desc Command.use_count)
                (where_ (fun c => eq_col (Some (Command.scope c)) scope_hint)
                   (base_query db))))
  (* Priority 8: the user's most frequently used *)
  (priority now (truthy user)
    (fun db =>
       first (order_by (desc Command.use_count)
                (where_ (fun c => eq_col (Command.user c) user)
                   (base_query db))))
  (* Priority 9: global fallback *)
  (priority now true
    (fun db =>
       first (order_by (then_by (desc Command.use_count)
                                (desc_nullslast Command.last_used_at))
                (base_query db)))
  (ret None))))))))).

(** [func.count(ExecutionHistory.id)] of the join of one command with the
    executions whose [cwd] is like the pattern. *)
Definition similar_dir_count (pattern : string) (db : Session)
    (c : Command.t) : Z :=
  len (where_ (fun e =>
                 eq_int (ExecutionHistory.command_id e) (Command.id c)
                 && like_col (ExecutionHistory.cwd e) pattern)
         (executions db)).

(** The loop that removes duplicates while preserving order. *)
Fixpoint unique_loop (limit_ : Z) (suggestions : list Command.t)
    (seen : gset Z) (unique_suggestions : list Command.t)
  : list Command.t :=
  match suggestions with
  | [] => unique_suggestions
  | cmd :: suggestions' =>
      if negb (bool_decide (Command.id cmd ∈ seen))
         && (len unique_suggestions <? limit_)
      then unique_loop limit_ suggestions' ({[Command.id cmd]} ∪ seen)
             (unique_suggestions ++ [cmd])
      else unique_loop limit_ suggestions' seen unique_suggestions
  end.

Definition get_suggestions_for_context
    (user hostname cwd project_type : option string) (limit_ : Z)
  : DB (list Command.t) :=
  let suggestions := [] in
  (* Priority 1: commands frequently used in similar directories *)
  do suggestions <-
    (if truthy cwd then
       do similar_dir_commands <- query (fun db =>
         let pattern := "%" +:+ Str.last_segment (default "" cwd) +:+ "%" in
         limit limit_
           (order_by (desc (similar_dir_count pattern db))
              (where_ (fun c => 0 <? similar_dir_count pattern db c)
                 (commands db))));
       ret (suggestions ++ similar_dir_commands)
     else ret suggestions);
  (* Priority 2: the user's frequently used commands *)
  do suggestions <-
    (if truthy user && (len suggestions <? limit_) then
       do user_commands <- query (fun db =>
         limit (limit_ - len suggestions)
           (order_by (desc Command.use_count)
              (where_ (fun c => eq_col (Command.user c) user)
                 (commands db))));
       ret (suggestions ++ user_commands)
     else ret suggestions);
  (* Priority 3: popular commands in shared scopes *)
  do suggestions <-
    (if len suggestions <? limit_ then
       do popular_shared <- query (fun db =>
         limit (limit_ - len suggestions)
           (order_by (desc Command.use_count)
              (where_ (fun c => ne_str (Command.scope c) "personal")
                 (commands db))));
       ret (suggestions ++ popular_shared)
     else ret suggestions);
  ret (unique_loop limit_ suggestions ∅ []).

(** What the file system shows under [directory_path]: which marker files
    exist, and the project name each manifest yields when it can be read and
    parsed ([None] when the [try] block fails or finds no name). *)
Record Probe := mkProbe {
  marker_exists : string -> bool;
  package_json_name : option string;
  cargo_toml_name : option string
}.

(** [schemas.ProjectContextResponse] *)
Record ProjectContextResponse := mkResponse {
  r_detected_namespace : option string;
  r_project_type : option string;
  r_confidence_score : Z;
  r_similar_commands : list string
}.

(** The keys of [project_files] with their project type, in insertion
    order. *)
Definition project_files : list (string * string) :=
  [ ("package.json", "npm"); ("Cargo.toml", "cargo");
    ("pyproject.toml", "python"); ("pom.xml", "maven"); (".git", "git");
    ("requirements.txt", "pip"); ("go.mod", "go"); ("Dockerfile", "docker") ].

(** [for filename, ... in project_files.items(): if exists: ...; break] *)
Fixpoint detect_type (fs : Probe) (files : list (string * string))
  : option string :=
  match files with
  | [] => None
  | (filename, proj_type) :: files' =>
      if marker_exists fs filename then Some proj_type
      else detect_type fs files'
  end.

Definition set_detected (now : timestamp) (e : ProjectContext.t)
  : ProjectContext.t :=
  ProjectContext.mk (ProjectContext.id e) (ProjectContext.directory_pattern e)
    (ProjectContext.detected_namespace e) (ProjectContext.project_type e)
    (ProjectContext.confidence_score e) now
    (ProjectContext.usage_count e + 1).

Definition flush_context (e : ProjectContext.t) (db : Session) : Session :=
  mkSession (commands db) (executions db)
    (map (fun r =>
            if eq_int (ProjectContext.id r) (ProjectContext.id e)
            then e else r)
       (contexts db)).

Definition detect_project_context (now : timestamp) (fs : Probe)
    (directory_path : string) (user : option string)
  : DB ProjectContextResponse :=
  let dir_name := Str.last_segment directory_path in
  do existing_context <- query (fun db =>
    first (where_ (fun e => eq_str (ProjectContext.directory_pattern e) dir_name)
             (contexts db)));
  match existing_context with
  | Some existing_context =>
      (* usage_count += 1; last_detected = utcnow(); commit *)
      let existing_context := set_detected now existing_context in
      run commit (flush_context existing_context);
      do similar_commands <- query (fun db =>
        map Command.name
          (limit 5
             (where_ (fun c =>
                        eq_str (Command.namespace c)
                          (ProjectContext.detected_namespace existing_context))
                (commands db))));
      ret (mkResponse
             (Some (ProjectContext.detected_namespace existing_context))
             (Some (ProjectContext.project_type existing_context))
             (Z.min 100 (ProjectContext.confidence_score existing_context + 5))
             similar_commands)
  | None =>
      let detected_type := detect_type fs project_files in
      let confidence := match detected_type with Some _ => 80 | None => 50 end in
      let suggested_namespace := dir_name in
      let '(suggested_namespace, confidence) :=
        if bool_decide (detected_type = Some "npm") then
          match package_json_name fs with
          | Some n => (n, 90)
          | None => (suggested_namespace, confidence)
          end
        else if bool_decide (detected_type = Some "cargo") then
          match cargo_toml_name fs with
          | Some n => (n, 90)
          | None => (suggested_namespace, confidence)
          end
        else (suggested_namespace, confidence) in
      run commit (fun db =>
        mkSession (commands db) (executions db)
          (contexts db ++
             [ProjectContext.mk
                (next_id (map ProjectContext.id (contexts db)))
                dir_name suggested_namespace
                (default "unknown" detected_type)
                confidence now 1]));
      ret (mkResponse (Some suggested_namespace) detected_type confidence [])
  end.

(** [set(s.lower().split())] *)
Definition word_set (s : string) : gset string :=
  list_to_set (Str.split_ws (Str.lower s)).

(** [for cmd in remaining_commands: ... similar_commands.append((cmd, overlap))] *)
Fixpoint overlap_loop (base_words : gset string)
    (remaining_commands : list Command.t)
    (similar_commands : list (Command.t * Z)) : list (Command.t * Z) :=
  match remaining_commands with
  | [] => similar_commands
  | cmd :: remaining' =>
      let cmd_words := word_set (Command.command_string cmd) in
      let overlap := Z.of_nat (size (base_words ∩ cmd_words)) in
      if 0 <? overlap
      then overlap_loop base_words remaining'
             (similar_commands ++ [(cmd, overlap)])
      else overlap_loop base_words remaining' similar_commands
  end.

Definition get_command_similarity (command_id : Z) (limit_ : Z)
  : DB (list Command.t) :=
  do base_command <- query (fun db =>
    first (where_ (fun c => eq_int (Command.id c) command_id) (commands db)));
  match base_command with
  | None => ret []
  | Some base_command =>
      do namespace_similar <- query (fun db =>
        limit limit_
          (order_by (desc Command.use_count)
             (where_ (fun c =>
                        eq_str (Command.namespace c)
                          (Command.namespace base_command)
                        && negb (eq_int (Command.id c) command_id))
                (commands db))));
      if limit_ <=? len namespace_similar then ret namespace_similar
      else
        let base_words := word_set (Command.command_string base_command) in
        do remaining_commands <- query (fun db =>
          where_ (fun c => negb (eq_int (Command.id c) command_id))
            (commands db));
        let similar_commands := overlap_loop base_words remaining_commands [] in
        let similar_commands := order_by (desc snd) similar_commands in
        let result :=
          namespace_similar
          ++ map fst (slice_to (limit_ - len namespace_similar)
                        similar_commands) in
        ret (slice_to limit_ result)
  end.

(** ** Python values the analytics compute with *)

Inductive Exception := OverflowError | ZeroDivisionError.

Inductive Result (A : Type) :=
  | Returns (a : A)
  | Raises (e : Exception).

Arguments Returns {A} a.
Arguments Raises {A} e.

(** A Python number: an [int], or a [float], which is an IEEE 754 binary64. *)
Inductive Number :=
  | Int (n : Z)
  | Float (x : spec_float).

(** An integer as the exact operand of a float operation. *)
Definition exact (n : Z) : spec_float :=
  match n with
  | Z0 => S754_zero false
  | Zpos p => S754_finite false p 0
  | Zneg p => S754_finite true p 0
  end.

(** [a / b] on two [int]s: the binary64 nearest to the exact quotient, ties
    to even; ZeroDivisionError for [b = 0], OverflowError when the quotient
    lies beyond the largest float. *)
Definition truediv (a b : Z) : Result Number :=
  if b =? 0 then Raises ZeroDivisionError
  else
    match SFdiv 53 1024 (exact a) (exact b) with
    | S754_infinity _ => Raises OverflowError
    | x => Returns (Float x)
    end.

(** [datetime.min] and [datetime.max] to the second: 0001-01-01 00:00:00
    and 9999-12-31 23:59:59. *)
Definition datetime_min : timestamp := -62135596800.
Definition datetime_max : timestamp := 253402300799.

(** [timedelta(days=days)] in seconds; it holds at most 999999999 days. *)
Definition timedelta_days (days : Z) : Result Z :=
  if Z.abs days <=? 999999999 then Returns (86400 * days)
  else Raises OverflowError.

(** [t - delta] on a [datetime]: the result has to be a [datetime]. *)
Definition datetime_sub (t : timestamp) (delta : Z) : Result timestamp :=
  let r := t - delta in
  if (datetime_min <=? r) && (r <=? datetime_max) then Returns r
  else Raises OverflowError.

(** [datetime.utcnow() - timedelta(days=days)] *)
Definition days_ago (now : timestamp) (days : Z) : Result timestamp :=
  match timedelta_days days with
  | Returns delta => datetime_sub now delta
  | Raises e => Raises e
  end.

(** The dictionary [get_execution_analytics] returns. *)
Record Analytics := mkAnalytics {
  total_executions : Z;
  unique_commands : Z;
  average_executions_per_day : Number;
  most_used_commands : list (string * string * Z);
  execution_methods : list (option string * Z)
}.

(** The filtered [query] of [get_execution_analytics].  [executed_at] is
    filled by the server default [CURRENT_TIMESTAMP], a text to the whole
    second, [YYYY-MM-DD HH:MM:SS]; [from_date] is bound as a text with its
    microseconds, [YYYY-MM-DD HH:MM:SS.ffffff], and SQLite compares the two
    texts.  A stamp of the very second of [from_date] is a proper prefix of
    the bound text and compares below it whatever the microseconds are, so
    [executed_at >= from_date] holds from the next second on; [from_date]
    is given here to the whole second. *)
Definition in_window (from_date : timestamp) (user : option string)
    (db : Session) : list ExecutionHistory.t :=
  let query := where_ (fun e => from_date <? ExecutionHistory.executed_at e)
                 (executions db) in
  if truthy user
  then where_ (fun e => eq_col (ExecutionHistory.user e) user) query
  else query.

(** [func.count(ExecutionHistory.id)] in the group of one command. *)
Definition execution_count (rows : list ExecutionHistory.t) (c : Command.t)
  : Z :=
  len (where_ (fun e => eq_int (ExecutionHistory.command_id e) (Command.id c))
         rows).

Definition method_count (rows : list ExecutionHistory.t)
    (m : option string) : Z :=
  len (where_ (fun e => eq_col (ExecutionHistory.execution_method e) m) rows).

Definition get_execution_analytics (now : timestamp) (user : option string)
    (days : Z) : DB (Result Analytics) :=
  match days_ago now days with
  | Raises e => ret (Raises e)
  | Returns from_date =>
      (* most executed commands *)
      do most_executed_raw <- query (fun db =>
        let rows := in_window from_date user db in
        map (fun c =>
               (Command.name c, Command.namespace c, execution_count rows c))
          (limit 10
             (order_by (desc (execution_count rows))
                (where_ (fun c => 0 <? execution_count rows c)
                   (commands db)))));
      (* the rows as dictionaries *)
      let most_executed := map (fun row => row) most_executed_raw in
      (* execution methods distribution *)
      do method_stats <- query (fun db =>
        let rows := in_window from_date user db in
        map (fun m => (m, method_count rows m))
          (order_by (desc (method_count rows))
             (remove_dups (map ExecutionHistory.execution_method rows))));
      do total_executions <- query (fun db =>
        len (in_window from_date user db));
      do unique_commands_count <- query (fun db =>
        let rows := in_window from_date user db in
        len (remove_dups
               (map Command.id
                  (where_ (fun c => 0 <? execution_count rows c)
                     (commands db)))));
      match (if 0 <? days then truediv total_executions days
             else Returns (Int 0)) with
      | Raises e => ret (Raises e)
      | Returns avg_per_day =>
          ret (Returns (mkAnalytics total_executions unique_commands_count
                          avg_per_day most_executed method_stats))
      end
  end.

(** ** Vocabulary of the statements *)

(** A list is in descending order of an integer key. *)
Definition descending {A} (key : A -> Z) : list A -> Prop :=
  StronglySorted (fun a b => key b <= key a).

(** ** The priority orders as the specification tabulates them *)

(** What a successful recall or tracked execution leaves in the matched
    row: one more use, last used now. *)
Definition bump (now : timestamp) (c : Command.t) : Command.t :=
  set_last_used_at (Some now) (set_use_count (Command.use_count c + 1) c).

(** The outcome of a recall that settled on [hit]. *)
Definition recalled (now : timestamp) (hit : option Command.t) (db : Session)
  : option Command.t * Session :=
  match hit with
  | Some c => (Some (bump now c), flush_command (bump now c) db)
  | None => (None, db)
  end.

(** Section 4.1: the five tiers of [recall_command], each with the exact
    name and namespace. *)
Definition recall_tiers (name namespace : string)
    (user hostname cwd : option string) : list (Command.t -> bool) :=
  let named c :=
    eq_str (Command.name c) name && eq_str (Command.namespace c) namespace in
  [ (fun c => named c && eq_str (Command.scope c) "personal"
              && (eq_col (Command.user c) user
                  && eq_col (Command.hostname c) hostname
                  && eq_col (Command.cwd c) cwd));
    (fun c => named c && eq_str (Command.scope c) "personal"
              && (eq_col (Command.user c) user
                  && eq_col (Command.hostname c) hostname));
    (fun c => named c && ne_str (Command.scope c) "personal"
              && (eq_col (Command.hostname c) hostname
                  && eq_col (Command.cwd c) cwd));
    (fun c => named c && ne_str (Command.scope c) "personal"
              && eq_col (Command.hostname c) hostname);
    (fun c => named c) ].

(** The first tier with a row, and in it the row created last. *)
Fixpoint first_hit (tiers : list (Command.t -> bool)) (rows : list Command.t)
  : option (nat * Command.t) :=
  match tiers with
  | [] => None
  | p :: tiers' =>
      match first (order_by (desc Command.created_at) (where_ p rows)) with
      | Some c => Some (O, c)
      | None => (fun kc => (S kc.1, kc.2)) <$> first_hit tiers' rows
      end
  end.

(** Section 4.2: a tier of [recall_by_name] names the optional inputs it
    requires, the rows it matches and the order in which it ranks them. *)
Record Tier := mkTier {
  required : list (option string);
  matching : Command.t -> bool;
  ordering : Command.t -> Command.t -> bool
}.

Definition by_name_tiers (name : string)
    (user hostname cwd namespace_hint scope_hint : option string)
  : list Tier :=
  let named c := eq_str (Command.name c) name in
  let recent := then_by (desc_nullslast Command.last_used_at)
                        (desc Command.created_at) in
  let popular := then_by (desc Command.use_count)
                         (desc_nullslast Command.last_used_at) in
  [ mkTier [user; hostname; cwd; namespace_hint]
      (fun c => named c
                && (eq_col (Command.user c) user
                    && eq_col (Command.hostname c) hostname
                    && eq_col (Command.cwd c) cwd
                    && eq_col (Some (Command.namespace c)) namespace_hint
                    && eq_str (Command.scope c) "personal"))
      recent;
    mkTier [user; hostname; namespace_hint]
      (fun c => named c
                && (eq_col (Command.user c) user
                    && eq_col (Command.hostname c) hostname
                    && eq_col (Some (Command.namespace c)) namespace_hint
                    && eq_str (Command.scope c) "personal"))
      recent;
    mkTier [user; hostname; cwd]
      (fun c => named c
                && (eq_col (Command.user c) user
                    && eq_col (Command.hostname c) hostname
                    && eq_col (Command.cwd c) cwd
                    && eq_str (Command.scope c) "personal"))
      popular;
    mkTier [user; hostname]
      (fun c => named c
                && (eq_col (Command.user c) user
                    && eq_col (Command.hostname c) hostname
                    && eq_str (Command.scope c) "personal"))
      popular;
    mkTier [cwd]
      (fun c => named c
                && (like_col (Command.cwd c) (similar_pattern (default "" cwd))
                    && (if truthy user
                        then eq_col (Command.user c) user else true)))
      (desc Command.use_count);
    mkTier [namespace_hint]
      (fun c => named c
                && eq_col (Some (Command.namespace c)) namespace_hint)
      (desc Command.use_count);
    mkTier [scope_hint]
      (fun c => named c && eq_col (Some (Command.scope c)) scope_hint)
      (desc Command.use_count);
    mkTier [user]
      (fun c => named c && eq_col (Command.user c) user)
      (desc Command.use_count);
    mkTier [] (fun c => named c) popular ].

(** Try the tiers in order; a tier one of whose required inputs is absent
    is not tried. *)
Fixpoint run_tiers (tiers : list Tier) (rows : list Command.t)
  : option Command.t :=
  match tiers with
  | [] => None
  | t :: tiers' =>
      if all_truthy (required t) then
        match first (order_by (ordering t) (where_ (matching t) rows)) with
        | Some c => Some c
        | None => run_tiers tiers' rows
        end
      else run_tiers tiers' rows
  end.

(** The primary key holds: no two rows of [commands] share an [id]. *)
Definition unique_ids (db : Session) : Prop :=
  NoDup (map Command.id (commands db)).

(** Every field of [r] but the usage statistics is the field of [c]; the
    use count is one more and the row was last used at [now]. *)
Definition only_usage_changed (now : timestamp) (c r : Command.t) : Prop :=
  Command.use_count r = Command.use_count c + 1
  /\ Command.last_used_at r = Some now
  /\ Command.id r = Command.id c
  /\ Command.command_string r = Command.command_string c
  /\ Command.name r = Command.name c
  /\ Command.namespace r = Command.namespace c
  /\ Command.user r = Command.user c
  /\ Command.cwd r = Command.cwd c
  /\ Command.hostname r = Command.hostname c
  /\ Command.scope r = Command.scope c
  /\ Command.created_at r = Command.created_at c.

(** [t0 <= t1] on last-used stamps, a row never used being older than any. *)
Definition stamp_le (t0 t1 : option timestamp) : Prop :=
  match t0, t1 with
  | None, _ => True
  | Some a, Some b => a <= b
  | Some _, None => False
  end.

(** The clock reading is not behind any stamp the store holds. *)
Definition clock_ahead (now : timestamp) (db : Session) : Prop :=
  Forall (fun c => stamp_le (Command.last_used_at c) (Some now)) (commands db).

(** The constraints on [project_contexts]: primary key and unique
    [directory_pattern]. *)
Definition unique_contexts (db : Session) : Prop :=
  NoDup (map ProjectContext.id (contexts db))
  /\ NoDup (map ProjectContext.directory_pattern (contexts db)).

(** A stored row agrees with a request on the seven attributes. *)
Definition agrees (command : CommandCreate) (c : Command.t) : Prop :=
  Command.command_string c = cc_command_string command
  /\ Command.name c = cc_name command
  /\ Command.namespace c = cc_namespace command
  /\ Command.user c = cc_user command
  /\ Command.cwd c = cc_cwd command
  /\ Command.hostname c = cc_hostname command
  /\ Command.scope c = cc_scope command.

(** Section 4.4: the number of lowercase whitespace-separated words that
    the texts of two commands share. *)
Definition overlap (base c : Command.t) : Z :=
  Z.of_nat (size (word_set (Command.command_string base)
                  ∩ word_set (Command.command_string c))).

(** The characters of a text. *)
Definition chars (s : string) : list ascii := String.list_ascii_of_string s.

(** An end of the text, or white space. *)
Definition boundary (a : option ascii) : Prop :=
  from_option Str.is_space true a = true.

(** [w] is a word of [l]: a run of characters of [l], at least one and none
    of them white space, with white space or an end of [l] on either side. *)
Definition word_in (w l : list ascii) : Prop :=
  w <> []
  /\ Forall (fun a => Str.is_space a = false) w
  /\ exists pre post,
       l = pre ++ w ++ post /\ boundary (last pre) /\ boundary (head post).

Definition is_word (w s : string) : Prop := word_in (chars w) (chars s).

(** The two texts, in lowercase, share exactly [n] distinct words. *)
Definition shared_words (a b : string) (n : Z) : Prop :=
  exists ws : list string,
    NoDup ws
    /\ len ws = n
    /\ forall w, w ∈ ws
         <-> is_word w (Str.lower a) /\ is_word w (Str.lower b).

(** Section 4.6: an execution lies in the window of [days] days before [now]
    when it is stamped after the second in which the window starts and, a
    user being given, is that user's. *)
Definition windowed (now : timestamp) (user : option string) (days : Z)
    (e : ExecutionHistory.t) : bool :=
  (now - 86400 * days <? ExecutionHistory.executed_at e)
  && (if truthy user then eq_col (ExecutionHistory.user e) user else true).

(** The start of the window is a date of the years 1 to 9999, within
    999999999 days of [now]. *)
Definition window_is_dated (now : timestamp) (days : Z) : bool :=
  (Z.abs days <=? 999999999)
  && (-62135596800 <=? now - 86400 * days)
  && (now - 86400 * days <=? 253402300799).

(** How many of the executions [rows] are executions of the command. *)
Definition runs_of (rows : list ExecutionHistory.t) (c : Command.t) : Z :=
  Z.of_nat (count_occ Z.eq_dec (map ExecutionHistory.command_id rows)
              (Command.id c)).

(** Section 4.3: the first occurrence of every identifier, in order. *)
Fixpoint first_seen (l : list Command.t) : list Command.t :=
  match l with
  | [] => []
  | c :: l' =>
      c :: where_ (fun r => negb (eq_int (Command.id r) (Command.id c)))
             (first_seen l')
  end.

(** ** Stores for the examples *)

Module Examples.

Definition cmd (i : Z) (text name ns : string) (u w h : option string)
    (sc : string) (created : Z) (uses : Z) : Command.t :=
  Command.mk i text name ns u w h sc created None uses.

(** [test_recall_command_user_host_cwd_match] of [tests/test_crud.py] *)
Definition two_cwds : Session :=
  mkSession
    [ cmd 1 "user_host_cwd" "c" "ns" (Some "u1") (Some "/cwd1") (Some "h1")
        "personal" 100 0;
      cmd 2 "user_host" "c" "ns" (Some "u1") (Some "/cwd2") (Some "h1")
        "personal" 101 0 ]
    [] [].

(** A personal command of alice, as in [test_global_fallback]. *)
Definition alice_utility : Command.t :=
  cmd 1 "echo 'global command'" "utility" "tools" (Some "alice") None None
    "personal" 100 5.

Definition alice_only : Session := mkSession [alice_utility] [] [].

(** Two personal rows under one name: one saved without any context, a
    later one saved with user and hostname. *)
Definition bare_row : Command.t :=
  cmd 1 "ls" "c" "ns" None None None "personal" 100 0.

Definition later_row : Command.t :=
  cmd 2 "ls -l" "c" "ns" (Some "u") None (Some "h") "personal" 200 7.

Definition bare_and_later : Session :=
  mkSession [bare_row; later_row] [] [].

(** A directory pattern seen before, with confidence 80. *)
Definition webapp_context : ProjectContext.t :=
  ProjectContext.mk 1 "webapp" "webapp" "npm" 80 100 1.

Definition seen_webapp : Session :=
  mkSession
    [ cmd 1 "npm test" "test" "webapp" (Some "alice") None None
        "personal" 100 0 ]
    [] [webapp_context].

Definition no_files : Probe := mkProbe (fun _ => false) None None.

(** A personal command last used when the clock read 500. *)
Definition used_row : Command.t :=
  Command.mk 1 "ls -l" "list" "files" (Some "u") None (Some "h") "personal"
    100 (Some 500) 3.

Definition used_before : Session := mkSession [used_row] [] [].

Definition save_top : CommandCreate :=
  mkCommandCreate "top" "processes" "system" (Some "testuser") None None
    "personal".

(** Two commands of one namespace whose texts share the word "git". *)
Definition git_status : Command.t :=
  cmd 1 "git status" "st" "dev" (Some "alice") None None "personal" 100 3.

Definition git_log : Command.t :=
  cmd 2 "Git log --oneline" "lg" "dev" (Some "alice") None None "personal"
    101 1.

Definition git_store : Session := mkSession [git_status; git_log] [] [].

(** The two commands of [dev] and two of another namespace, one of which
    shares words with [git status]. *)
Definition git_push : Command.t :=
  cmd 3 "GIT  Status --short" "st" "ops" (Some "bob") None None "team" 102 9.

Definition list_files : Command.t :=
  cmd 4 "ls -la" "ll" "ops" (Some "bob") None None "team" 103 7.

Definition two_teams : Session :=
  mkSession [git_status; git_log; git_push; list_files] [] [].

(** [test_exact_context_priority] of [tests/test_enhanced_crud.py] *)
Definition deploys : Session :=
  mkSession
    [ cmd 1 "echo 'exact match'" "deploy" "webapp" (Some "alice")
        (Some "/home/alice/webapp") (Some "laptop") "personal" 100 1;
      cmd 2 "echo 'high usage but wrong context'" "deploy" "webapp"
        (Some "alice") (Some "/home/alice/webapp") (Some "desktop")
        "personal" 100 10 ]
    [] [].

(** [test_namespace_hint_priority] *)
Definition two_namespaces : Session :=
  mkSession
    [ cmd 1 "echo 'webapp version'" "deploy" "webapp" (Some "alice") None None
        "personal" 100 1;
      cmd 2 "echo 'api version'" "deploy" "api" (Some "alice") None None
        "personal" 100 10 ]
    [] [].

(** [test_directory_pattern_matching] *)
Definition my_webapp : Session :=
  mkSession
    [ cmd 1 "npm test" "test" "frontend" (Some "alice")
        (Some "/home/alice/projects/my-webapp") None "personal" 100 0 ]
    [] [].

(** Three commands and the record of five runs, four of them under a
    directory named [webapp]. *)
Definition execution (i command_id : Z) (u w : option string) (at_ : Z)
    (method : string) : ExecutionHistory.t :=
  ExecutionHistory.mk i command_id u None w at_ None (Some method) None None.

Definition with_history : Session :=
  mkSession
    [ cmd 1 "npm test" "test" "webapp" (Some "alice") None None
        "personal" 100 2;
      cmd 2 "npm run build" "build" "webapp" (Some "alice") None None
        "personal" 101 9;
      cmd 3 "make" "build" "tools" (Some "bob") None None "team" 102 4 ]
    [ execution 1 1 (Some "alice") (Some "/home/alice/webapp") 1000 "name";
      execution 2 2 (Some "alice") (Some "/home/alice/webapp") 2000 "id";
      execution 3 2 (Some "alice") (Some "/srv/webapp/api") 3000 "id";
      execution 4 3 (Some "bob") (Some "/home/bob/tools") 4000 "name";
      execution 5 2 (Some "alice") (Some "/home/alice/webapp") 86400000 "id" ]
    [].

End Examples.

(** ** The remaining queries of [crud.py] *)

(** [column.contains(q)] renders as [column LIKE '%' || q || '%']. *)
Definition contains (s q : string) : bool := Str.like s ("%" +:+ q +:+ "%").

Definition get_commands (q namespace user scope : option string)
  : DB (list Command.t) :=
  query (fun db =>
    let query := commands db in
    let query :=
      if truthy q
      then where_ (fun c => contains (Command.command_string c) (default "" q))
             query
      else query in
    let query :=
      if truthy namespace
      then where_ (fun c => eq_col (Some (Command.namespace c)) namespace) query
      else query in
    let query :=
      if truthy user
      then where_ (fun c => eq_col (Command.user c) user) query
      else query in
    let query :=
      if truthy scope
      then where_ (fun c => eq_col (Some (Command.scope c)) scope) query
      else query in
    query).

Definition get_all_user_commands (user : string) : DB (list Command.t) :=
  query (fun db =>
    where_ (fun c => eq_col (Command.user c) (Some user)) (commands db)).

(** [SELECT DISTINCT]: one row per value.  The order of the values is the
    engine's; here each value stands where it first occurs. *)
Fixpoint distinct {A} `{EqDecision A} (l : list A) : list A :=
  match l with
  | [] => []
  | x :: l' => x :: where_ (fun y => negb (bool_decide (y = x))) (distinct l')
  end.

Definition get_namespaces : DB (list string) :=
  query (fun db => distinct (map Command.namespace (commands db))).

(** [schemas.ExecutionHistoryCreate] *)
Record ExecutionHistoryCreate := mkExecutionHistoryCreate {
  eh_command_id : Z;
  eh_user : option string;
  eh_hostname : option string;
  eh_cwd : option string;
  eh_arguments : option string;
  eh_execution_method : string;
  eh_duration_ms : option Z;
  eh_exit_code : option Z
}.

Definition create_execution_history (now : timestamp)
    (execution : ExecutionHistoryCreate) : DB ExecutionHistory.t :=
  do db_execution <- query (fun db =>
    ExecutionHistory.mk
      (next_id (map ExecutionHistory.id (executions db)))
      (eh_command_id execution) (eh_user execution) (eh_hostname execution)
      (eh_cwd execution) now (eh_arguments execution)
      (Some (eh_execution_method execution)) (eh_duration_ms execution)
      (eh_exit_code execution));
  run commit (fun db =>
    mkSession (commands db) (executions db ++ [db_execution]) (contexts db));
  ret db_execution.

(** [sum(counts)] *)
Definition total (counts : list Z) : Z := foldr Z.add 0 counts.

(** ** The handlers of [main.py] that address a command by identifier *)

(** What a handler answers: the body it returns, or the [HTTPException] it
    raises. *)
Inductive Response (A : Type) : Type :=
  | Ok (body : A)
  | HTTPException (status_code : Z) (detail : string).

Arguments Ok {A} body.
Arguments HTTPException {A} status_code detail.

Module main.

Definition update_command (command_id : Z) (user : string)
    (command_update : string) : DB (Response Command.t) :=
  do db_command <- update_command command_id user command_update;
  match db_command with
  | None =>
      ret (HTTPException 404
             "Command not found or user does not have permission")
  | Some db_command => ret (Ok db_command)
  end.

Definition rename_command (command_id : Z) (user : string)
    (name namespace : string) : DB (Response Command.t) :=
  do db_command <- rename_command command_id user name namespace;
  match db_command with
  | None =>
      ret (HTTPException 404
             "Command not found or user does not have permission")
  | Some db_command => ret (Ok db_command)
  end.

Definition delete_command (command_id : Z) (user : string)
  : DB (Response Command.t) :=
  do db_command <- delete_command command_id user;
  match db_command with
  | None =>
      ret (HTTPException 404
             "Command not found or user does not have permission")
  | Some db_command => ret (Ok db_command)
  end.

Definition get_command_by_id (command_id : Z) (user : string)
  : DB (Response Command.t) :=
  do db_command <- get_command_by_id command_id user;
  match db_command with
  | None =>
      ret (HTTPException 404
             "Command not found or user does not have permission")
  | Some db_command => ret (Ok db_command)
  end.

Definition track_command_execution (now : timestamp) (command_id : Z)
    (user : string) : DB (Response Command.t) :=
  do db_command <- track_execution now command_id user;
  match db_command with
  | None =>
      ret (HTTPException 404
             "Command not found or user does not have permission")
  | Some db_command => ret (Ok db_command)
  end.

End main.
(** ** Facts about the query combinators *)

Section QueryFacts.
Context {A : Type}.
Implicit Types (l rows : list A) (p : A -> bool) (before : A -> A -> bool).

Lemma elem_of_where p rows x : x ∈ where_ p rows <-> x ∈ rows /\ p x = true.
Proof. unfold where_. rewrite !list_elem_of_In. apply filter_In. Qed.

Lemma where_nil_iff p rows :
  where_ p rows = [] <-> forall x, x ∈ rows -> p x = false.
Proof.
  unfold where_. induction rows as [|y rows IH]; simpl.
  - split; [intros _ x Hx; inversion Hx | done].
  - destruct (p y) eqn:Hy.
    + split; [done|]. intros H. specialize (H y (list_elem_of_here _ _)).
      congruence.
    + rewrite IH. split.
      * intros H x Hx. apply elem_of_cons in Hx as [->|Hx]; auto.
      * intros H x Hx. apply H. by apply list_elem_of_further.
Qed.

Lemma where_length p rows : (length (where_ p rows) <= length rows)%nat.
Proof. apply List.filter_length_le. Qed.

Lemma insert_by_perm before x l : insert_by before x l ≡ₚ x :: l.
Proof.
  induction l as [|y l IH]; simpl; [done|].
  destruct (before y x); [|done].
  rewrite IH. apply Permutation_swap.
Qed.

Lemma order_by_perm before l : order_by before l ≡ₚ l.
Proof.
  induction l as [|x l IH]; simpl; [done|].
  fold (order_by before l). by rewrite insert_by_perm, IH.
Qed.

Lemma elem_of_order_by before l x : x ∈ order_by before l <-> x ∈ l.
Proof. by rewrite order_by_perm. Qed.

Lemma order_by_length before l : length (order_by before l) = length l.
Proof. by rewrite order_by_perm. Qed.

Lemma first_None_iff l : first l = None <-> l = [].
Proof. destruct l; simpl; split; congruence. Qed.

Lemma first_order_by_None before l :
  first (order_by before l) = None <-> l = [].
Proof.
  rewrite first_None_iff. split; [|by intros ->].
  intros H. apply Permutation_nil_r. by rewrite <- H, order_by_perm.
Qed.

Lemma first_elem_of l x : first l = Some x -> x ∈ l.
Proof. destruct l; simpl; [done|]. intros [= ->]. left. Qed.

Lemma first_order_by_elem_of before l x :
  first (order_by before l) = Some x -> x ∈ l.
Proof. intros H. apply (elem_of_order_by before). by apply first_elem_of. Qed.

Lemma limit_length n l : (length (limit n l) <= length l)%nat.
Proof. unfold limit. destruct (n <? 0); [done|]. rewrite length_take. lia. Qed.

Lemma limit_length_le n l :
  0 <= n -> (length (limit n l) <= Z.to_nat n)%nat.
Proof.
  intros Hn. unfold limit.
  destruct (Z.ltb_spec n 0); [lia|]. rewrite length_take. lia.
Qed.

Lemma limit_nonneg n l : 0 <= n -> limit n l = take (Z.to_nat n) l.
Proof. intros Hn. unfold limit. by destruct (Z.ltb_spec n 0); [lia|]. Qed.

Lemma slice_to_nonneg n l : 0 <= n -> slice_to n l = take (Z.to_nat n) l.
Proof. intros Hn. unfold slice_to. by destruct (Z.ltb_spec n 0); [lia|]. Qed.

Lemma elem_of_limit n l x : x ∈ limit n l -> x ∈ l.
Proof.
  unfold limit. destruct (n <? 0); [done|]. apply subseteq_take.
Qed.

(** *** Ordering by an integer key, descending *)

Section Desc.
Variable key : A -> Z.

Lemma insert_by_desc_sorted x l :
  descending key l -> descending key (insert_by (desc key) x l).
Proof.
  induction 1 as [|y l Hl IH Hy]; simpl.
  - repeat constructor.
  - unfold desc at 1. destruct (Z.ltb_spec (key x) (key y)) as [Hlt|Hge].
    + constructor; [done|].
      apply Forall_forall. intros z Hz.
      rewrite insert_by_perm in Hz.
      apply elem_of_cons in Hz as [->|Hz]; [lia|].
      rewrite Forall_forall in Hy. by apply Hy.
    + constructor; [by constructor|].
      constructor; [lia|].
      rewrite Forall_forall in *. intros z Hz. specialize (Hy z Hz). lia.
Qed.

Lemma order_by_desc_sorted l : descending key (order_by (desc key) l).
Proof.
  induction l as [|x l IH]; simpl; [constructor|].
  by apply insert_by_desc_sorted.
Qed.

(** The first row of a descending order carries a largest key. *)
Lemma first_order_by_desc_max l x :
  first (order_by (desc key) l) = Some x ->
  forall y, y ∈ l -> key y <= key x.
Proof.
  intros Hx y Hy. apply (elem_of_order_by (desc key)) in Hy.
  pose proof (order_by_desc_sorted l) as Hs.
  destruct (order_by (desc key) l) as [|z s]; [done|].
  simpl in Hx. injection Hx as ->.
  apply elem_of_cons in Hy as [->|Hy]; [lia|].
  apply StronglySorted_inv in Hs as [_ Hall].
  rewrite Forall_forall in Hall. by apply Hall.
Qed.

(** Rows with the same key keep their scan order. *)
Lemma insert_by_desc_stable k x l :
  where_ (fun a => key a =? k) (insert_by (desc key) x l)
  = where_ (fun a => key a =? k) (x :: l).
Proof.
  induction l as [|y l IH]; [done|].
  simpl insert_by. unfold desc at 1.
  destruct (Z.ltb_spec (key x) (key y)) as [Hlt|Hge]; [|done].
  simpl in *. rewrite IH.
  destruct (Z.eqb_spec (key x) k), (Z.eqb_spec (key y) k); try done. lia.
Qed.

Lemma order_by_desc_stable k l :
  where_ (fun a => key a =? k) (order_by (desc key) l)
  = where_ (fun a => key a =? k) l.
Proof.
  induction l as [|x l IH]; [done|].
  simpl order_by. fold (order_by (desc key) l).
  rewrite insert_by_desc_stable. simpl. by rewrite IH.
Qed.

End Desc.

End QueryFacts.

(** ** Primary recall: the tiers of [recall_command] *)

Lemma where_ext {A} (p q : A -> bool) rows :
  (forall x, p x = q x) -> where_ p rows = where_ q rows.
Proof. intros H. unfold where_. by apply List.filter_ext. Qed.

Lemma order_by_ext {A} (b1 b2 : A -> A -> bool) l :
  (forall x y, b1 x y = b2 x y) -> order_by b1 l = order_by b2 l.
Proof.
  intros Hb. induction l as [|a l IH]; simpl; [done|].
  fold (order_by b1 l). fold (order_by b2 l). rewrite IH.
  generalize (order_by b2 l). intros s.
  induction s as [|y s IHs]; simpl; [done|].
  rewrite Hb. by rewrite IHs.
Qed.

Lemma where_where {A} (p q : A -> bool) rows :
  where_ p (where_ q rows) = where_ (fun x => q x && p x) rows.
Proof.
  unfold where_. induction rows as [|x rows IH]; simpl; [done|].
  destruct (q x); simpl; [destruct (p x)|]; by rewrite ?IH.
Qed.

Lemma first_hit_Some tiers rows k c :
  first_hit tiers rows = Some (k, c) ->
  exists p, tiers !! k = Some p
    /\ (forall j q, (j < k)%nat -> tiers !! j = Some q -> where_ q rows = [])
    /\ c ∈ where_ p rows
    /\ (forall c', c' ∈ where_ p rows ->
          Command.created_at c' <= Command.created_at c).
Proof.
  revert k. induction tiers as [|p tiers IH]; intros k; simpl; [done|].
  destruct (first _) as [c0|] eqn:Hfirst.
  - intros [= <- <-]. exists p. split; [done|]. split; [lia|]. split.
    + by apply first_order_by_elem_of in Hfirst.
    + by apply first_order_by_desc_max.
  - apply first_order_by_None in Hfirst.
    destruct (first_hit tiers rows) as [[k' c']|] eqn:Hrest; [|done].
    simpl. intros [= <- <-].
    destruct (IH k' eq_refl) as (q & Hq & Hearlier & Hin & Hmax).
    exists q. split; [done|]. split; [|done].
    intros [|j] q' Hj; simpl.
    + by intros [= <-].
    + apply Hearlier. lia.
Qed.

Lemma first_hit_None tiers rows :
  first_hit tiers rows = None -> forall p, p ∈ tiers -> where_ p rows = [].
Proof.
  induction tiers as [|p tiers IH]; simpl; intros H q Hq.
  - inversion Hq.
  - destruct (first _) eqn:Hfirst; [done|].
    apply first_order_by_None in Hfirst.
    destruct (first_hit tiers rows); [done|].
    apply elem_of_cons in Hq as [->|Hq]; auto.
Qed.

Lemma for_filters_run now select filters otherwise db :
  for_filters now select filters otherwise db
  = match first_hit (map select filters) (commands db) with
    | Some (_, c) => recalled now (Some c) db
    | None => otherwise db
    end.
Proof.
  induction filters as [|f filters IH]; simpl; [done|].
  unfold bind, query. destruct (first _) as [c|]; [done|].
  rewrite IH. by destruct (first_hit _ _) as [[? ?]|].
Qed.

(** [recall_command] runs the five tiers in order. *)
Lemma recall_command_run now name namespace user hostname cwd db :
  recall_command now name namespace user hostname cwd db
  = recalled now
      (snd <$> first_hit (recall_tiers name namespace user hostname cwd)
                 (commands db))
      db.
Proof.
  unfold recall_command. rewrite for_filters_run. simpl.
  destruct (first _) as [c|]; [done|].
  destruct (first _) as [c|]; [done|].
  simpl. unfold bind, query.
  destruct (first _) as [c|]; [done|].
  destruct (first _) as [c|]; [done|].
  by destruct (first _) as [c|].
Qed.

(** C1. [recall_command] answers from the first non-empty tier of the fixed
    order (personal with user, hostname and cwd; personal with user and
    hostname; shared with hostname and cwd; shared with hostname; name and
    namespace alone), every tier filtered by the exact name and namespace,
    and returns the row of that tier created last, whatever the use counts
    of the rows of later tiers; it finds nothing only if all five tiers are
    empty. *)
Theorem recall_command_first_tier now name namespace user hostname cwd db :
  let tiers := recall_tiers name namespace user hostname cwd in
  match (recall_command now name namespace user hostname cwd db).1 with
  | Some r =>
      exists k p c,
        tiers !! k = Some p
        /\ (forall j q, (j < k)%nat -> tiers !! j = Some q ->
              where_ q (commands db) = [])
        /\ c ∈ where_ p (commands db)
        /\ (forall c', c' ∈ where_ p (commands db) ->
              Command.created_at c' <= Command.created_at c)
        /\ r = bump now c
  | None => forall p, p ∈ tiers -> where_ p (commands db) = []
  end.
Proof.
  intros tiers. rewrite recall_command_run. fold tiers.
  destruct (first_hit tiers (commands db)) as [[k c]|] eqn:Hhit; simpl.
  - apply first_hit_Some in Hhit as (p & Hp & Hearlier & Hin & Hmax).
    by exists k, p, c.
  - by apply first_hit_None.
Qed.

(** ** Enhanced recall: the tiers of [recall_command_by_name] *)

Lemma priority_run now gate (t : Tier) q otherwise db rest rows :
  rows = commands db ->
  gate = all_truthy (required t) ->
  q db = first (order_by (ordering t) (where_ (matching t) rows)) ->
  otherwise db = recalled now (run_tiers rest rows) db ->
  priority now gate q otherwise db
  = recalled now (run_tiers (t :: rest) rows) db.
Proof.
  intros -> -> Hq Hrest. unfold priority. simpl.
  destruct (all_truthy (required t)); [|done].
  unfold bind, query. rewrite Hq.
  by destruct (first _) as [c|].
Qed.

Lemma recall_command_by_name_run
    now name user hostname cwd namespace_hint scope_hint db :
  recall_command_by_name now name user hostname cwd namespace_hint scope_hint db
  = recalled now
      (run_tiers
         (by_name_tiers name user hostname cwd namespace_hint scope_hint)
         (commands db))
      db.
Proof.
  unfold recall_command_by_name, by_name_tiers.
  repeat (eapply priority_run;
          [reflexivity
          | simpl; by rewrite ?andb_true_r
          | by rewrite where_where |]).
  by eapply priority_run.
Qed.

Lemma run_tiers_elem_of tiers rows c :
  run_tiers tiers rows = Some c -> c ∈ rows.
Proof.
  induction tiers as [|t tiers IH]; simpl; [done|].
  destruct (all_truthy (required t)); [|done].
  destruct (first _) as [c'|] eqn:Hfirst; [|done].
  intros [= <-]. apply first_order_by_elem_of in Hfirst.
  by apply elem_of_where in Hfirst as [? _].
Qed.

Lemma run_tiers_skip pre t post rows :
  all_truthy (required t) = false ->
  run_tiers (pre ++ t :: post) rows = run_tiers (pre ++ post) rows.
Proof.
  intros Ht. induction pre as [|t' pre IH]; simpl.
  - by rewrite Ht.
  - by rewrite IH.
Qed.

Lemma first_hit_elem_of tiers rows k c :
  first_hit tiers rows = Some (k, c) -> c ∈ rows.
Proof.
  intros H. apply first_hit_Some in H as (p & _ & _ & Hin & _).
  by apply elem_of_where in Hin as [? _].
Qed.

(** ** Writing one row by primary key *)

Section KeyedRows.
Context {A K : Type} `{EqDecision K} (key : A -> K).

Lemma elem_of_keys rows x : x ∈ rows -> key x ∈ map key rows.
Proof. intros Hx. apply list_elem_of_fmap. by exists x. Qed.

Lemma map_other_keys (k : K) (c' : A) rows :
  k ∉ map key rows ->
  map (fun r => if bool_decide (key r = k) then c' else r) rows = rows.
Proof.
  induction rows as [|r rows IH]; simpl; [done|].
  intros Hnot. apply not_elem_of_cons in Hnot as [Hne Hnot].
  rewrite bool_decide_eq_false_2 by done. by rewrite IH.
Qed.

(** With a unique key, [UPDATE ... WHERE key = k] rewrites one row. *)
Lemma map_key_insert rows i c c' :
  NoDup (map key rows) ->
  rows !! i = Some c ->
  map (fun r => if bool_decide (key r = key c) then c' else r) rows
  = <[i:=c']> rows.
Proof.
  revert i. induction rows as [|r rows IH]; intros i Hnd Hi; [done|].
  simpl in Hnd. apply NoDup_cons in Hnd as [Hr Hnd].
  destruct i as [|i]; simpl in *.
  - injection Hi as ->. rewrite bool_decide_eq_true_2 by done.
    f_equal. by apply map_other_keys.
  - rewrite bool_decide_eq_false_2.
    + f_equal. by apply IH.
    + intros Heq. apply Hr. rewrite Heq. apply elem_of_keys.
      by apply list_elem_of_lookup_2 in Hi.
Qed.

(** With a unique key, [WHERE key = k AND P] finds at most the one row. *)
Lemma where_key_unique (P : A -> bool) rows c :
  NoDup (map key rows) ->
  c ∈ rows ->
  where_ (fun r => bool_decide (key r = key c) && P r) rows
  = if P c then [c] else [].
Proof.
  intros Hnd Hin. induction rows as [|r rows IH]; [inversion Hin|].
  simpl in Hnd. apply NoDup_cons in Hnd as [Hr Hnd].
  apply elem_of_cons in Hin as [->|Hin]; simpl.
  - rewrite bool_decide_eq_true_2 by done. simpl.
    assert (Hnone : where_ (fun r0 => bool_decide (key r0 = key r) && P r0)
                      rows = []).
    { apply where_nil_iff. intros x Hx.
      rewrite bool_decide_eq_false_2; [done|].
      intros Heq. apply Hr. rewrite <- Heq. by apply elem_of_keys. }
    rewrite Hnone. by destruct (P r).
  - rewrite bool_decide_eq_false_2.
    + simpl. by apply IH.
    + intros Heq. apply Hr. rewrite Heq. by apply elem_of_keys.
Qed.

Lemma where_key_absent (P : A -> bool) rows k :
  k ∉ map key rows ->
  where_ (fun r => bool_decide (key r = k) && P r) rows = [].
Proof.
  intros Hnot. apply where_nil_iff. intros x Hx.
  rewrite bool_decide_eq_false_2; [done|].
  intros Heq. apply Hnot. rewrite <- Heq. by apply elem_of_keys.
Qed.

End KeyedRows.

Lemma flush_command_insert db i c c' :
  unique_ids db ->
  commands db !! i = Some c ->
  Command.id c' = Command.id c ->
  flush_command c' db
  = mkSession (<[i:=c']> (commands db)) (executions db) (contexts db).
Proof.
  unfold unique_ids, flush_command, eq_int. intros Hnd Hi Hid. f_equal.
  rewrite Hid. by apply map_key_insert.
Qed.

Lemma bump_only_usage now c : only_usage_changed now c (bump now c).
Proof. by repeat split. Qed.

(** What [recalled] does to the store: nothing without a hit, and with a
    hit exactly one row is rewritten. *)
Lemma recalled_effect now hit db :
  unique_ids db ->
  (forall c, hit = Some c -> c ∈ commands db) ->
  match (recalled now hit db).1 with
  | Some r =>
      exists i c,
        commands db !! i = Some c
        /\ only_usage_changed now c r
        /\ (recalled now hit db).2
           = mkSession (<[i:=r]> (commands db)) (executions db) (contexts db)
  | None => (recalled now hit db).2 = db
  end.
Proof.
  intros Hnd Hin. destruct hit as [c|]; simpl; [|done].
  specialize (Hin c eq_refl).
  apply list_elem_of_lookup in Hin as [i Hi].
  exists i, c. split; [done|]. split; [apply bump_only_usage|].
  by apply flush_command_insert with c.
Qed.

(** ** Operations addressed by identifier *)

Lemma where_id_unique (P : Command.t -> bool) rows c :
  NoDup (map Command.id rows) ->
  c ∈ rows ->
  where_ (fun r => eq_int (Command.id r) (Command.id c) && P r) rows
  = if P c then [c] else [].
Proof. apply where_key_unique. Qed.

Lemma where_id_absent (P : Command.t -> bool) rows command_id :
  command_id ∉ map Command.id rows ->
  where_ (fun r => eq_int (Command.id r) command_id && P r) rows = [].
Proof. apply where_key_absent. Qed.

Lemma get_command_by_id_reads command_id user db :
  (get_command_by_id command_id user db).2 = db.
Proof.
  unfold get_command_by_id, bind, query, ret.
  by destruct (owned_by_id command_id user db).
Qed.

Lemma get_command_by_id_elem_of command_id user db c :
  (get_command_by_id command_id user db).1 = Some c -> c ∈ commands db.
Proof.
  unfold get_command_by_id, bind, query, ret, owned_by_id.
  destruct (first _) as [c0|] eqn:H0; simpl.
  - intros [= <-]. apply first_elem_of in H0.
    by apply elem_of_where in H0 as [? _].
  - intros H1. apply first_elem_of in H1.
    by apply elem_of_where in H1 as [? _].
Qed.

Lemma track_execution_run now command_id user db :
  track_execution now command_id user db
  = recalled now (get_command_by_id command_id user db).1 db.
Proof.
  unfold track_execution, bind.
  pose proof (get_command_by_id_reads command_id user db) as Hdb.
  destruct (get_command_by_id command_id user db) as [[c|] db']; simpl in *;
    by subst.
Qed.

(** No operation addressed by identifier reaches a personal row of another
    owner. *)
Lemma foreign_personal_row db c owner caller :
  unique_ids db ->
  c ∈ commands db ->
  Command.scope c = "personal" ->
  Command.user c = Some owner ->
  caller <> owner ->
  owned_by_id (Command.id c) caller db = None
  /\ get_command_by_id (Command.id c) caller db = (None, db).
Proof.
  intros Hnd Hin Hscope Howner Hne.
  assert (Hown : owned_by_id (Command.id c) caller db = None).
  { unfold owned_by_id. rewrite where_id_unique by done.
    unfold eq_col. rewrite Howner.
    rewrite bool_decide_eq_false_2; [done|]. congruence. }
  split; [done|].
  unfold get_command_by_id, bind, query. rewrite Hown.
  rewrite where_id_unique by done.
  unfold ne_str. rewrite Hscope. by rewrite bool_decide_eq_true_2.
Qed.

Lemma absent_row db command_id caller :
  command_id ∉ map Command.id (commands db) ->
  owned_by_id command_id caller db = None
  /\ get_command_by_id command_id caller db = (None, db).
Proof.
  intros Hnot.
  assert (Hown : owned_by_id command_id caller db = None).
  { unfold owned_by_id. by rewrite where_id_absent. }
  split; [done|].
  unfold get_command_by_id, bind, query. rewrite Hown.
  by rewrite where_id_absent.
Qed.

(** C2 (as amended). For a personal row owned by [owner] in a store whose
    identifiers are unique, and a caller other than the owner, each of
    get-by-id, update, rename, delete and track-execution on the row's
    identifier answers not-found and leaves the store as it was, exactly as
    it does for an identifier that no row carries. *)
Theorem by_id_ownership_isolation
    db c owner caller now text name namespace :
  unique_ids db ->
  c ∈ commands db ->
  Command.scope c = "personal" ->
  Command.user c = Some owner ->
  caller <> owner ->
  (get_command_by_id (Command.id c) caller db = (None, db)
   /\ update_command (Command.id c) caller text db = (None, db)
   /\ rename_command (Command.id c) caller name namespace db = (None, db)
   /\ delete_command (Command.id c) caller db = (None, db)
   /\ track_execution now (Command.id c) caller db = (None, db))
  /\ (forall absent, absent ∉ map Command.id (commands db) ->
        get_command_by_id absent caller db = (None, db)
        /\ update_command absent caller text db = (None, db)
        /\ rename_command absent caller name namespace db = (None, db)
        /\ delete_command absent caller db = (None, db)
        /\ track_execution now absent caller db = (None, db)).
Proof.
  intros Hnd Hin Hscope Howner Hne. split.
  - destruct (foreign_personal_row db c owner caller) as [Hown Hget]; try done.
    unfold update_command, rename_command, delete_command, bind, query.
    rewrite track_execution_run, Hown, Hget. by repeat split.
  - intros absent Habsent.
    destruct (absent_row db absent caller Habsent) as [Hown Hget].
    unfold update_command, rename_command, delete_command, bind, query.
    rewrite track_execution_run, Hown, Hget. by repeat split.
Qed.

Lemma by_id_ownership_isolation_witness :
  get_command_by_id 1 "bob" Examples.alice_only = (None, Examples.alice_only)
  /\ track_execution 200 1 "bob" Examples.alice_only
     = (None, Examples.alice_only).
Proof.
  destruct (by_id_ownership_isolation Examples.alice_only
              Examples.alice_utility "alice" "bob" 200 "x" "y" "z")
    as [(Hget & _ & _ & _ & Htrack) _].
  - apply (bool_decide_unpack _). vm_compute. exact I.
  - apply (bool_decide_unpack _). vm_compute. exact I.
  - reflexivity.
  - reflexivity.
  - discriminate.
  - split; [exact Hget | exact Htrack].
Defined.

(** C2 as stated fails for name-based recall: bob's recall of a name under
    which only alice holds a personal command answers with alice's row. *)
Lemma name_recall_crosses_owners :
  Examples.alice_utility ∈ commands Examples.alice_only
  /\ Command.scope Examples.alice_utility = "personal"
  /\ Command.user Examples.alice_utility = Some "alice"
  /\ "bob" <> "alice"
  /\ (recall_command 200 "utility" "tools" (Some "bob") None None
        Examples.alice_only).1
     = Some (bump 200 Examples.alice_utility)
  /\ (recall_command_by_name 200 "utility" (Some "bob") None None None None
        Examples.alice_only).1
     = Some (bump 200 Examples.alice_utility).
Proof.
  split; [by left|]. by repeat split.
Qed.

(** ** Usage statistics *)

(** The answer of a recall to the question of the store: every operation
    that recalls is [recalled] at a row of the store. *)
Lemma recalls_are_recalled
    now db name namespace user hostname cwd namespace_hint scope_hint
    command_id caller out :
  out = recall_command now name namespace user hostname cwd db
  \/ out = recall_command_by_name now name user hostname cwd namespace_hint
             scope_hint db
  \/ out = track_execution now command_id caller db ->
  exists hit,
    out = recalled now hit db /\ (forall c, hit = Some c -> c ∈ commands db).
Proof.
  intros [-> | [-> | ->]].
  - rewrite recall_command_run. eexists. split; [done|].
    intros c Hc. destruct (first_hit _ _) as [[k c']|] eqn:Hhit; [|done].
    injection Hc as <-. by apply first_hit_elem_of in Hhit.
  - rewrite recall_command_by_name_run. eexists. split; [done|].
    intros c Hc. by apply run_tiers_elem_of in Hc.
  - rewrite track_execution_run. eexists. split; [done|].
    intros c Hc. by apply get_command_by_id_elem_of in Hc.
Qed.

(** C3 (as amended). A successful recall ([recall_command] or
    [recall_command_by_name]) or tracked execution rewrites exactly one
    stored row: its use count grows by one and its last-used stamp becomes
    the clock reading, whatever stamp it had, so that the stamp does not
    move back exactly when the clock does not read earlier than the stamp
    the row had; no other field and no other row changes.  A not-found
    answer leaves the store as it was.  The store has unique identifiers,
    as the primary key makes them. *)
Theorem usage_stats_updated
    now db name namespace user hostname cwd namespace_hint scope_hint
    command_id caller out :
  unique_ids db ->
  out = recall_command now name namespace user hostname cwd db
  \/ out = recall_command_by_name now name user hostname cwd namespace_hint
             scope_hint db
  \/ out = track_execution now command_id caller db ->
  match out.1 with
  | Some r =>
      exists i c,
        commands db !! i = Some c
        /\ only_usage_changed now c r
        /\ Command.last_used_at r = Some now
        /\ (stamp_le (Command.last_used_at c) (Command.last_used_at r)
            <-> forall t, Command.last_used_at c = Some t -> t <= now)
        /\ out.2
           = mkSession (<[i:=r]> (commands db)) (executions db) (contexts db)
  | None => out.2 = db
  end.
Proof.
  intros Hnd Hout.
  destruct (recalls_are_recalled _ _ _ _ _ _ _ _ _ _ _ _ Hout)
    as (hit & -> & Hin).
  pose proof (recalled_effect now hit db Hnd Hin) as Heffect.
  destruct ((recalled now hit db).1) as [r|]; [|done].
  destruct Heffect as (i & c & Hi & Hchanged & Hstore).
  exists i, c. split; [done|]. split; [done|].
  destruct Hchanged as (Hcount & Hstamp & Hrest).
  split; [done|]. split; [|done].
  rewrite Hstamp. destruct (Command.last_used_at c) as [t0|]; simpl.
  - split; [by intros Hle t [= <-]|]. intros Hle. by apply Hle.
  - split; [by intros _ t|done].
Qed.

(** The theorem at a row last used at 500, recalled when the clock reads
    200. *)
Lemma usage_stats_updated_witness :
  exists i c,
    commands Examples.used_before !! i = Some c
    /\ only_usage_changed 200 c (bump 200 Examples.used_row)
    /\ Command.last_used_at (bump 200 Examples.used_row) = Some 200
    /\ (stamp_le (Command.last_used_at c)
          (Command.last_used_at (bump 200 Examples.used_row))
        <-> forall t, Command.last_used_at c = Some t -> t <= 200)
    /\ (recall_command 200 "list" "files" (Some "u") (Some "h") None
          Examples.used_before).2
       = mkSession (<[i:=bump 200 Examples.used_row]>
                      (commands Examples.used_before))
           [] [].
Proof.
  apply (usage_stats_updated 200 Examples.used_before "list" "files"
           (Some "u") (Some "h") None None None 0 ""
           (recall_command 200 "list" "files" (Some "u") (Some "h") None
              Examples.used_before)).
  - apply (bool_decide_unpack _). vm_compute. exact I.
  - left. reflexivity.
Defined.

(** C3 as stated fails on the stamp: the operations write the clock reading
    without comparing it with the stamp the row holds, and the wall clock
    that [datetime.utcnow()] reads can stand earlier than at the last use.
    A row last used at 500 and recalled, by either recall or by a tracked
    execution, when the clock reads 200 is stamped 200, which is before its
    previous value. *)
Lemma last_used_at_moves_back :
  commands Examples.used_before = [Examples.used_row]
  /\ Command.last_used_at Examples.used_row = Some 500
  /\ (recall_command 200 "list" "files" (Some "u") (Some "h") None
        Examples.used_before).1
     = Some (bump 200 Examples.used_row)
  /\ (recall_command_by_name 200 "list" (Some "u") (Some "h") None None None
        Examples.used_before).1
     = Some (bump 200 Examples.used_row)
  /\ (track_execution 200 1 "u" Examples.used_before).1
     = Some (bump 200 Examples.used_row)
  /\ Command.use_count (bump 200 Examples.used_row) = 3 + 1
  /\ Command.last_used_at (bump 200 Examples.used_row) = Some 200
  /\ ~ stamp_le (Command.last_used_at Examples.used_row)
         (Command.last_used_at (bump 200 Examples.used_row)).
Proof.
  repeat (split; [reflexivity|]). simpl. lia.
Qed.

(** ** Absent context *)

(** C5 (as amended). In [recall_command_by_name] a tier one of whose
    required optional inputs is absent ([None] or empty) is skipped
    entirely: the call answers as the tier table without that tier does.
    [recall_command] has no such gate: it compares an absent input with
    NULL, so with no context given its first tier answers whenever a
    personal row of that name and namespace was stored without user,
    hostname and cwd. *)
Theorem absent_inputs_skip_tier
    now name user hostname cwd namespace_hint scope_hint db k t :
  by_name_tiers name user hostname cwd namespace_hint scope_hint !! k = Some t ->
  all_truthy (required t) = false ->
  recall_command_by_name now name user hostname cwd namespace_hint scope_hint db
  = recalled now
      (run_tiers
         (delete k
            (by_name_tiers name user hostname cwd namespace_hint scope_hint))
         (commands db))
      db
  /\ (forall namespace c,
        c ∈ commands db ->
        Command.name c = name -> Command.namespace c = namespace ->
        Command.scope c = "personal" ->
        Command.user c = None -> Command.hostname c = None ->
        Command.cwd c = None ->
        exists r,
          (recall_command now name namespace None None None db).1
          = Some (bump now r)
          /\ r ∈ commands db
          /\ Command.scope r = "personal"
          /\ Command.user r = None /\ Command.hostname r = None
          /\ Command.cwd r = None).
Proof.
  intros Hk Hreq. split.
  - rewrite recall_command_by_name_run. f_equal.
    rewrite <- (take_drop_middle _ k t Hk) at 1.
    rewrite run_tiers_skip by done.
    by rewrite delete_take_drop.
  - intros namespace c Hin Hname Hns Hscope Hu Hh Hw.
    rewrite recall_command_run.
    destruct (first_hit _ _) as [[j r]|] eqn:Hhit.
    + exists r. split; [done|].
      apply first_hit_Some in Hhit as (p & Hp & Hearlier & Hr & _).
      destruct j as [|j].
      * injection Hp as <-. apply elem_of_where in Hr as [Hr Hp].
        split; [done|].
        unfold eq_str, eq_col in Hp.
        rewrite !andb_true_iff, !bool_decide_eq_true in Hp.
        tauto.
      * exfalso.
        assert (Hnil := Hearlier 0%nat _ (Nat.lt_0_succ j) eq_refl).
        rewrite where_nil_iff in Hnil. specialize (Hnil c Hin).
        unfold eq_str, eq_col in Hnil.
        rewrite Hname, Hns, Hscope, Hu, Hh, Hw in Hnil.
        by rewrite !bool_decide_eq_true_2 in Hnil.
    + exfalso. apply first_hit_None with (p := recall_tiers name namespace
                                                  None None None !!! 0%nat)
        in Hhit; [|by left].
      rewrite where_nil_iff in Hhit. specialize (Hhit c Hin).
      simpl in Hhit. unfold eq_str, eq_col in Hhit.
      rewrite Hname, Hns, Hscope, Hu, Hh, Hw in Hhit.
      by rewrite !bool_decide_eq_true_2 in Hhit.
Qed.

Lemma absent_inputs_skip_tier_witness :
  recall_command_by_name 200 "c" None (Some "h1") (Some "/cwd1") (Some "ns")
    None Examples.two_cwds
  = recalled 200
      (run_tiers
         (delete 0%nat
            (by_name_tiers "c" None (Some "h1") (Some "/cwd1") (Some "ns")
               None))
         (commands Examples.two_cwds))
      Examples.two_cwds.
Proof.
  refine (proj1 (absent_inputs_skip_tier 200 "c" None (Some "h1")
                   (Some "/cwd1") (Some "ns") None Examples.two_cwds 0%nat _
                   eq_refl eq_refl)).
Defined.

(** C5 as stated fails for [recall_command]: with user, hostname and cwd all
    absent, tiers 1 to 4 would be skipped and the answer would be the newest
    row of tier 5; but the first tier matches the row stored without
    context, and that older row is the answer. *)
Lemma recall_command_matches_null_columns :
  truthy None = false
  /\ snd <$> first_hit (drop 4 (recall_tiers "c" "ns" None None None))
               (commands Examples.bare_and_later)
     = Some Examples.later_row
  /\ (recall_command 300 "c" "ns" None None None Examples.bare_and_later).1
     = Some (bump 300 Examples.bare_row)
  /\ bump 300 Examples.bare_row <> bump 300 Examples.later_row.
Proof.
  repeat split. discriminate.
Qed.

(** ** Project context detection *)

(** C4 (as amended). Detecting a directory pattern that the store already
    holds rewrites that one row: its usage count grows by one and its
    last-detected stamp becomes the clock reading, while its stored
    confidence score stays as it was; the answer carries the stored score
    raised by 5 and capped at 100, and as similar commands the names of at
    most 5 commands of the stored namespace. *)
Theorem detect_seen_pattern now fs directory_path user db i e :
  unique_contexts db ->
  contexts db !! i = Some e ->
  ProjectContext.directory_pattern e = Str.last_segment directory_path ->
  let out := detect_project_context now fs directory_path user db in
  exists e',
    out.2 = mkSession (commands db) (executions db) (<[i:=e']> (contexts db))
    /\ ProjectContext.usage_count e' = ProjectContext.usage_count e + 1
    /\ ProjectContext.last_detected e' = now
    /\ ProjectContext.confidence_score e' = ProjectContext.confidence_score e
    /\ ProjectContext.id e' = ProjectContext.id e
    /\ ProjectContext.directory_pattern e' = ProjectContext.directory_pattern e
    /\ ProjectContext.detected_namespace e'
       = ProjectContext.detected_namespace e
    /\ ProjectContext.project_type e' = ProjectContext.project_type e
    /\ r_confidence_score out.1
       = Z.min 100 (ProjectContext.confidence_score e + 5)
    /\ r_detected_namespace out.1 = Some (ProjectContext.detected_namespace e)
    /\ r_similar_commands out.1
       = map Command.name
           (take 5
              (where_ (fun c => eq_str (Command.namespace c)
                                  (ProjectContext.detected_namespace e))
                 (commands db)))
    /\ (length (r_similar_commands out.1) <= 5)%nat.
Proof.
  intros [Hids Hpatterns] Hi Hpattern out.
  assert (Hfound :
    first (where_ (fun r => eq_str (ProjectContext.directory_pattern r)
                              (Str.last_segment directory_path))
             (contexts db)) = Some e).
  { rewrite <- Hpattern.
    rewrite (where_ext _ (fun r =>
               bool_decide (ProjectContext.directory_pattern r
                            = ProjectContext.directory_pattern e) && true));
      [|intros r; unfold eq_str; by rewrite andb_true_r].
    rewrite (where_key_unique ProjectContext.directory_pattern); [done..|].
    by apply list_elem_of_lookup_2 in Hi. }
  exists (set_detected now e). subst out.
  unfold detect_project_context, bind, query, commit. rewrite Hfound. simpl.
  split.
  { unfold flush_context, eq_int. simpl. f_equal.
    by apply (map_key_insert ProjectContext.id). }
  repeat (split; [done|]).
  rewrite length_map. by apply (limit_length_le 5).
Qed.

Lemma detect_seen_pattern_witness :
  r_confidence_score
    (detect_project_context 500 Examples.no_files "/home/alice/webapp" None
       Examples.seen_webapp).1
  = Z.min 100 (80 + 5).
Proof.
  destruct (detect_seen_pattern 500 Examples.no_files "/home/alice/webapp"
              None Examples.seen_webapp 0%nat Examples.webapp_context)
    as (e' & _ & _ & _ & _ & _ & _ & _ & _ & Hscore & _).
  - split; apply (bool_decide_unpack _); vm_compute; exact I.
  - reflexivity.
  - reflexivity.
  - exact Hscore.
Defined.

(** C4 as stated fails on the stored confidence score: after a repeated
    detection the row still holds 80, not 85; only the answer carries 85. *)
Lemma stored_confidence_not_raised :
  contexts Examples.seen_webapp = [Examples.webapp_context]
  /\ ProjectContext.confidence_score Examples.webapp_context = 80
  /\ ProjectContext.confidence_score
     <$> contexts
           (detect_project_context 500 Examples.no_files "/home/alice/webapp"
              None Examples.seen_webapp).2
     = [80]
  /\ 80 <> Z.min 100 (80 + 5).
Proof. by repeat split. Qed.

(** ** Saving a command *)

Lemma same_attributes_agrees command c :
  same_attributes command c = true <-> agrees command c.
Proof.
  unfold same_attributes, agrees, eq_str, eq_col.
  rewrite !andb_true_iff, !bool_decide_eq_true. tauto.
Qed.

Lemma new_row_agrees now command db : agrees command (new_row now command db).
Proof. by repeat split. Qed.

Lemma create_command_existing now command db c :
  first (where_ (same_attributes command) (commands db)) = Some c ->
  create_command now command db = (c, false, db).
Proof. intros H. unfold create_command, bind, query. by rewrite H. Qed.

Lemma create_command_new now command db :
  where_ (same_attributes command) (commands db) = [] ->
  create_command now command db
  = (new_row now command db, true,
     mkSession (commands db ++ [new_row now command db]) (executions db)
       (contexts db)).
Proof. intros H. unfold create_command, bind, query. by rewrite H. Qed.

(** C6. [create_command] returns the first stored row that agrees with the
    request on the seven attributes, flagged not new and with the store
    untouched, exactly when such a row exists; otherwise it appends one row
    carrying the request's attributes and returns it flagged new.  A second
    identical request then returns that same row (same identifier) flagged
    not new and leaves the store as the first call left it, so that a
    request no stored row agreed with has exactly one agreeing row after
    both calls. *)
Theorem create_command_idempotent now1 now2 command db :
  let first_call := create_command now1 command db in
  let second_call := create_command now2 command first_call.2 in
  (if first_call.1.2
   then where_ (same_attributes command) (commands db) = []
        /\ first_call.2
           = mkSession (commands db ++ [first_call.1.1]) (executions db)
               (contexts db)
        /\ where_ (same_attributes command) (commands second_call.2)
           = [first_call.1.1]
   else first_call.1.1 ∈ commands db
        /\ first_call.2 = db)
  /\ agrees command first_call.1.1
  /\ (first_call.1.2 = false <-> exists c, c ∈ commands db /\ agrees command c)
  /\ second_call.1.1 = first_call.1.1
  /\ Command.id second_call.1.1 = Command.id first_call.1.1
  /\ second_call.1.2 = false
  /\ second_call.2 = first_call.2.
Proof.
  intros first_call second_call. subst first_call second_call.
  destruct (first (where_ (same_attributes command) (commands db)))
    as [c|] eqn:Hfirst.
  - pose proof (first_elem_of _ _ Hfirst) as Hc.
    apply elem_of_where in Hc as [Hc Hsame].
    rewrite (create_command_existing now1 command db c Hfirst). simpl.
    rewrite (create_command_existing now2 command db c Hfirst). simpl.
    split; [done|]. split; [by apply same_attributes_agrees|].
    split; [|done]. split; [|done]. intros _. exists c.
    split; [done|]. by apply same_attributes_agrees.
  - apply first_None_iff in Hfirst.
    assert (Hnew : where_ (same_attributes command)
                     (commands db ++ [new_row now1 command db])
                   = [new_row now1 command db]).
    { unfold where_ in *. rewrite List.filter_app, Hfirst. simpl.
      pose proof (new_row_agrees now1 command db) as Hag.
      apply same_attributes_agrees in Hag. by rewrite Hag. }
    rewrite (create_command_new now1 command db Hfirst). simpl.
    rewrite (create_command_existing now2 command _ (new_row now1 command db));
      [|simpl; by rewrite Hnew].
    simpl. split; [done|]. split; [apply new_row_agrees|].
    split; [|done]. split; [done|]. intros (c & Hc & Hag).
    apply same_attributes_agrees in Hag.
    assert (Hin : c ∈ where_ (same_attributes command) (commands db))
      by by apply elem_of_where.
    rewrite Hfirst in Hin. inversion Hin.
Qed.

(** ** The assumptions on the store are invariants *)

Lemma foldr_max_bound (i : Z) (ids : list Z) :
  i <= foldr Z.max i ids /\ forall x, x ∈ ids -> x <= foldr Z.max i ids.
Proof.
  induction ids as [|j ids [IHi IH]]; simpl.
  - split; [lia|]. intros x Hx. inversion Hx.
  - split; [lia|]. intros x Hx.
    apply elem_of_cons in Hx as [->|Hx]; [lia|].
    specialize (IH x Hx). lia.
Qed.

Lemma next_id_fresh ids : next_id ids ∉ ids.
Proof.
  destruct ids as [|i ids]; [by intros H; inversion H|].
  unfold next_id. intros Hin.
  destruct (foldr_max_bound i ids) as [Hi Hids].
  apply elem_of_cons in Hin as [Heq|Hin]; [lia|].
  specialize (Hids _ Hin). lia.
Qed.

(** Saving a command keeps the identifiers unique. *)
Lemma create_command_unique_ids now command db :
  unique_ids db -> unique_ids (create_command now command db).2.
Proof.
  intros Hnd.
  destruct (first (where_ (same_attributes command) (commands db)))
    as [c|] eqn:Hfirst.
  - by rewrite (create_command_existing now command db c Hfirst).
  - apply first_None_iff in Hfirst.
    rewrite (create_command_new now command db Hfirst).
    unfold unique_ids. simpl. rewrite map_app. simpl.
    apply NoDup_app. split; [done|]. split.
    + intros x Hx Hnew. apply list_elem_of_singleton in Hnew as ->.
      by apply next_id_fresh in Hx.
    + apply NoDup_singleton.
Qed.

Lemma flush_command_ids c db :
  map Command.id (commands (flush_command c db)) = map Command.id (commands db).
Proof.
  unfold flush_command. simpl. rewrite List.map_map. apply List.map_ext.
  intros r. unfold eq_int.
  by destruct (bool_decide_reflect (Command.id r = Command.id c)).
Qed.

(** A recall keeps the identifiers unique, and the stamps it writes stay
    behind any later clock reading. *)
Lemma recalled_keeps_invariants now later hit db :
  unique_ids db -> clock_ahead now db -> now <= later ->
  unique_ids (recalled now hit db).2
  /\ clock_ahead later (recalled now hit db).2.
Proof.
  intros Hnd Hclock Hlater.
  assert (Hmono : clock_ahead later db).
  { unfold clock_ahead in *. eapply Forall_impl; [exact Hclock|].
    intros c. simpl. destruct (Command.last_used_at c); simpl; [lia|done]. }
  destruct hit as [c|]; simpl; [|done]. split.
  - unfold unique_ids. by rewrite flush_command_ids.
  - unfold clock_ahead, flush_command in *. simpl.
    apply Forall_forall. intros r Hr.
    apply list_elem_of_fmap in Hr as (r0 & -> & Hr0).
    destruct (eq_int _ _); simpl; [done|].
    rewrite Forall_forall in Hmono. by apply Hmono.
Qed.

(** ** Similar commands *)

(** *** The words of a text *)

Lemma chars_of_list l : chars (String.string_of_list_ascii l) = l.
Proof. apply String.list_ascii_of_string_of_list_ascii. Qed.

Lemma chars_inj s t : chars s = chars t -> s = t.
Proof.
  intros Heq.
  rewrite <- (String.string_of_list_ascii_of_string s).
  rewrite <- (String.string_of_list_ascii_of_string t).
  unfold chars in Heq. by rewrite Heq.
Qed.

Lemma boundary_not_space a :
  Str.is_space a = false -> ~ boundary (Some a).
Proof. unfold boundary. simpl. congruence. Qed.

Lemma last_app_nonempty {A} (u k : list A) :
  k <> [] -> last (u ++ k) = last k.
Proof.
  intros Hk. rewrite last_app. destruct (last k) eqn:Hlast; [done|].
  by apply last_None in Hlast.
Qed.

Lemma word_in_nil w : ~ word_in w [].
Proof.
  intros (Hw & _ & pre & post & Heq & _). symmetry in Heq.
  apply app_eq_nil in Heq as [_ Heq]. by apply app_eq_nil in Heq as [Heq _].
Qed.

(** White space in front adds no word. *)
Lemma word_in_space a w l :
  Str.is_space a = true -> word_in w (a :: l) <-> word_in w l.
Proof.
  intros Ha. split.
  - intros (Hw & Hns & pre & post & Heq & Hpre & Hpost).
    destruct pre as [|b pre].
    + destruct w as [|c w]; [done|]. simpl in Heq. injection Heq as <- _.
      apply Forall_cons in Hns as [Hc _]. congruence.
    + simpl in Heq. injection Heq as <- ->.
      split; [done|]. split; [done|]. exists pre, post.
      split; [done|]. split; [|done]. by destruct pre.
  - intros (Hw & Hns & pre & post & -> & Hpre & Hpost).
    split; [done|]. split; [done|]. exists (a :: pre), post.
    split; [done|]. split; [|done]. by destruct pre.
Qed.

(** A run of characters that are not white space, up to white space or the
    end, is a word, and the other words are those of the rest. *)
Lemma word_in_after_run u l w :
  u <> [] ->
  Forall (fun a => Str.is_space a = false) u ->
  boundary (head l) ->
  word_in w (u ++ l) <-> w = u \/ word_in w l.
Proof.
  intros Hu Hrun Hl. split.
  - intros (Hw & Hns & pre & post & Heq & Hpre & Hpost).
    apply app_eq_app in Heq as [k [[-> Hrest]|[-> ->]]].
    + (* the word starts inside the run: at its start *)
      destruct (last pre) as [c|] eqn:Hlast.
      { exfalso. apply (boundary_not_space c); [|done].
        apply last_Some in Hlast as [pre' ->].
        apply Forall_app in Hrun as [Hrun _].
        apply Forall_app in Hrun as [_ Hrun].
        by apply Forall_inv in Hrun. }
      apply last_None in Hlast as ->. simpl in *. left.
      apply app_eq_app in Hrest as [j [[-> ->]|[-> ->]]].
      * destruct j as [|c j]; [by rewrite app_nil_r|].
        exfalso. apply (boundary_not_space c); [|done].
        apply Forall_app in Hns as [_ Hns].
        by apply Forall_cons in Hns as [Hc _].
      * destruct j as [|c j]; [by rewrite app_nil_r|].
        exfalso. apply (boundary_not_space c); [|done].
        apply Forall_app in Hrun as [_ Hrun].
        by apply Forall_cons in Hrun as [Hc _].
    + (* the word starts after the run *)
      right. split; [done|]. split; [done|]. exists k, post.
      split; [done|]. split; [|done].
      destruct k as [|c k]; [done|].
      by rewrite last_app_nonempty in Hpre.
  - intros [->|(Hw & Hns & pre & post & -> & Hpre & Hpost)].
    + split; [done|]. split; [done|]. exists [], l. by repeat split.
    + split; [done|]. split; [done|]. exists (u ++ pre), post.
      split; [by rewrite <- app_assoc|]. split; [|done].
      destruct pre as [|c pre].
      * exfalso. destruct w as [|c w]; [done|]. simpl in Hl.
        apply (boundary_not_space c); [|done].
        by apply Forall_cons in Hns as [Hc _].
      * by rewrite last_app_nonempty.
Qed.

(** [split] yields the words of the text, and nothing else. *)
Lemma split_ws_aux_words s cur x :
  Forall (fun a => Str.is_space a = false) cur ->
  x ∈ Str.split_ws_aux s cur <-> word_in (chars x) (rev cur ++ chars s).
Proof.
  revert cur. induction s as [|a s IH]; intros cur Hcur; simpl.
  - destruct cur as [|c cur].
    + split; [by intros ?%elem_of_nil|by intros ?%word_in_nil].
    + rewrite list_elem_of_singleton.
      rewrite (word_in_after_run (rev (c :: cur)) []);
        [|by intros ?%(f_equal length); rewrite length_rev in *
         |by apply Forall_rev|done].
      split.
      * intros ->. left. apply chars_of_list.
      * intros [Heq|?%word_in_nil]; [|done].
        apply chars_inj. by rewrite chars_of_list.
  - destruct (Str.is_space a) eqn:Ha.
    + destruct cur as [|c cur].
      * rewrite IH by done. simpl. by rewrite word_in_space.
      * rewrite elem_of_cons, IH by done.
        rewrite (word_in_after_run (rev (c :: cur)) (a :: chars s));
          [|by intros ?%(f_equal length); rewrite length_rev in *
           |by apply Forall_rev|done].
        simpl (rev [] ++ _). rewrite word_in_space by done.
        split; (intros [Heq|?]; [left|by right]).
        -- rewrite Heq. apply chars_of_list.
        -- apply chars_inj. by rewrite chars_of_list.
    + rewrite IH by (by constructor). simpl.
      by rewrite <- app_assoc.
Qed.

Lemma elem_of_split_ws s w : w ∈ Str.split_ws s <-> is_word w s.
Proof. apply (split_ws_aux_words s []). constructor. Qed.

Lemma elem_of_word_set s w : w ∈ word_set s <-> is_word w (Str.lower s).
Proof. unfold word_set. by rewrite elem_of_list_to_set, elem_of_split_ws. Qed.

(** The overlap of two commands counts the words their texts share. *)
Lemma overlap_shared_words base c :
  shared_words (Command.command_string base) (Command.command_string c)
    (overlap base c).
Proof.
  exists (elements (word_set (Command.command_string base)
                    ∩ word_set (Command.command_string c))).
  split; [apply NoDup_elements|]. split; [done|].
  intros w. by rewrite elem_of_elements, elem_of_intersection,
              !elem_of_word_set.
Qed.

(** *** The ranking *)

Lemma insert_by_desc_map {A B} (g : A -> B) (kb : B -> Z) x l :
  insert_by (desc kb) (g x) (map g l)
  = map g (insert_by (desc (fun a => kb (g a))) x l).
Proof.
  induction l as [|y l IH]; simpl; [done|].
  unfold desc at 1 3. destruct (kb (g x) <? kb (g y)); simpl; [|done].
  by rewrite IH.
Qed.

Lemma order_by_desc_map {A B} (g : A -> B) (kb : B -> Z) l :
  order_by (desc kb) (map g l) = map g (order_by (desc (fun a => kb (g a))) l).
Proof.
  induction l as [|x l IH]; simpl; [done|].
  fold (order_by (desc kb) (map g l)).
  fold (order_by (desc (fun a => kb (g a))) l).
  by rewrite IH, insert_by_desc_map.
Qed.

Lemma overlap_loop_run base_words rows acc :
  overlap_loop base_words rows acc
  = acc ++ map (fun c => (c, Z.of_nat (size (base_words
                                             ∩ word_set (Command.command_string c)))))
             (where_ (fun c => 0 <? Z.of_nat (size (base_words
                                             ∩ word_set (Command.command_string c))))
                rows).
Proof.
  revert acc. induction rows as [|c rows IH]; intros acc; simpl.
  - by rewrite app_nil_r.
  - destruct (0 <? _); rewrite IH; [|done].
    by rewrite <- app_assoc.
Qed.

Lemma take_app_take {A} n (l k : list A) :
  take n (l ++ take (n - length l) k) = take n (l ++ k).
Proof.
  rewrite !take_app, take_take. f_equal. f_equal. lia.
Qed.

(** What [get_command_similarity] computes once the base command is
    found. *)
Lemma get_command_similarity_run command_id limit_ db base :
  0 <= limit_ ->
  first (where_ (fun c => eq_int (Command.id c) command_id) (commands db))
  = Some base ->
  let same_ns :=
    order_by (desc Command.use_count)
      (where_ (fun c => eq_str (Command.namespace c) (Command.namespace base)
                        && negb (eq_int (Command.id c) command_id))
         (commands db)) in
  let by_overlap :=
    order_by (desc (overlap base))
      (where_ (fun c => negb (eq_int (Command.id c) command_id)
                        && (0 <? overlap base c))
         (commands db)) in
  get_command_similarity command_id limit_ db
  = (if (length same_ns <? Z.to_nat limit_)%nat
     then take (Z.to_nat limit_) (same_ns ++ by_overlap)
     else take (Z.to_nat limit_) same_ns,
     db).
Proof.
  intros Hlimit Hbase same_ns by_overlap.
  unfold get_command_similarity, bind, query. rewrite Hbase.
  fold same_ns. rewrite limit_nonneg by done.
  destruct (Nat.ltb_spec (length same_ns) (Z.to_nat limit_)) as [Hlt|Hge].
  - rewrite (take_ge same_ns) by lia. unfold len.
    destruct (Z.leb_spec limit_ (Z.of_nat (length same_ns))); [lia|].
    unfold ret. f_equal.
    rewrite !slice_to_nonneg by lia.
    rewrite overlap_loop_run. simpl.
    rewrite (order_by_desc_map
               (fun c => (c, Z.of_nat (size (word_set (Command.command_string base)
                                             ∩ word_set (Command.command_string c))))) snd).
    rewrite where_where. simpl.
    rewrite <- List.firstn_map, List.map_map. simpl. rewrite List.map_id.
    replace (Z.to_nat (limit_ - Z.of_nat (length same_ns)))
      with (Z.to_nat limit_ - length same_ns)%nat by lia.
    apply take_app_take.
  - unfold len. rewrite length_take.
    destruct (Z.leb_spec limit_
                (Z.of_nat (Z.to_nat limit_ `min` length same_ns)));
      [done|lia].
Qed.

(** A negative limit is no limit to the namespace query, and the test
    [len(namespace_similar) >= limit] then succeeds. *)
Lemma get_command_similarity_unlimited command_id limit_ db base :
  limit_ < 0 ->
  first (where_ (fun c => eq_int (Command.id c) command_id) (commands db))
  = Some base ->
  get_command_similarity command_id limit_ db
  = (order_by (desc Command.use_count)
       (where_ (fun c => eq_str (Command.namespace c) (Command.namespace base)
                         && negb (eq_int (Command.id c) command_id))
          (commands db)),
     db).
Proof.
  intros Hlimit Hbase.
  unfold get_command_similarity, bind, query. rewrite Hbase.
  unfold limit. destruct (Z.ltb_spec limit_ 0); [|lia].
  unfold len. by destruct (Z.leb_spec limit_ (Z.of_nat (length
    (order_by (desc Command.use_count)
       (where_ (fun c => eq_str (Command.namespace c) (Command.namespace base)
                         && negb (eq_int (Command.id c) command_id))
          (commands db)))))); [|lia].
Qed.

(** C7 (as amended). [get_command_similarity] returns the empty list when
    no command carries the identifier.  Otherwise it ranks the other
    commands of the base command's namespace by use count, descending.  For
    a limit that is not negative it returns the first [limit] of them, and
    exactly when they number fewer than [limit] it appends the commands
    other than the base whose texts share at least one lowercase word with
    the base's, ranked by the number of distinct words shared, descending,
    ties in scan order, and truncates the whole to [limit].  For a negative
    limit it returns all the other commands of the namespace and appends
    nothing.  The store is not written. *)
Theorem get_command_similarity_spec command_id limit_ db :
  let out := get_command_similarity command_id limit_ db in
  out.2 = db
  /\ match first (where_ (fun c => eq_int (Command.id c) command_id)
                    (commands db)) with
     | None => out.1 = []
     | Some base =>
         let others_in_namespace :=
           where_ (fun c =>
                     eq_str (Command.namespace c) (Command.namespace base)
                     && negb (eq_int (Command.id c) command_id))
             (commands db) in
         let overlapping :=
           where_ (fun c => negb (eq_int (Command.id c) command_id)
                            && (0 <? overlap base c))
             (commands db) in
         (forall c,
            shared_words (Command.command_string base)
              (Command.command_string c) (overlap base c))
         /\ exists same_ns by_overlap,
              same_ns ≡ₚ others_in_namespace
              /\ descending Command.use_count same_ns
              /\ by_overlap ≡ₚ overlapping
              /\ descending (overlap base) by_overlap
              /\ (forall k,
                    where_ (fun c => overlap base c =? k) by_overlap
                    = where_ (fun c => overlap base c =? k) overlapping)
              /\ out.1
                 = if limit_ <? 0 then same_ns
                   else if (length others_in_namespace <? Z.to_nat limit_)%nat
                   then take (Z.to_nat limit_) (same_ns ++ by_overlap)
                   else take (Z.to_nat limit_) same_ns
     end.
Proof.
  intros out. subst out.
  destruct (first _) as [base|] eqn:Hbase.
  - assert (Hout :
      get_command_similarity command_id limit_ db
      = (let same_ns :=
           order_by (desc Command.use_count)
             (where_ (fun c =>
                        eq_str (Command.namespace c) (Command.namespace base)
                        && negb (eq_int (Command.id c) command_id))
                (commands db)) in
         let by_overlap :=
           order_by (desc (overlap base))
             (where_ (fun c => negb (eq_int (Command.id c) command_id)
                               && (0 <? overlap base c))
                (commands db)) in
         if limit_ <? 0 then same_ns
         else if (length same_ns <? Z.to_nat limit_)%nat
         then take (Z.to_nat limit_) (same_ns ++ by_overlap)
         else take (Z.to_nat limit_) same_ns,
         db)).
    { destruct (Z.ltb_spec limit_ 0) as [Hneg|Hlimit].
      - by apply get_command_similarity_unlimited.
      - by apply get_command_similarity_run. }
    rewrite Hout. simpl. split; [done|].
    split; [intros c; apply overlap_shared_words|].
    eexists _, _. split; [apply order_by_perm|].
    split; [apply order_by_desc_sorted|].
    split; [apply order_by_perm|].
    split; [apply order_by_desc_sorted|].
    split; [intros k; apply order_by_desc_stable|].
    by rewrite order_by_length.
  - unfold get_command_similarity, bind, query. by rewrite Hbase.
Qed.

(** C7 as stated fails for a negative limit, which the handler of [main.py]
    passes on as it receives it: SQLite reads [LIMIT -1] as no limit and the
    list is returned as the query gives it, so the answer holds more than
    [limit] commands. *)
Lemma negative_limit_is_no_bound :
  (get_command_similarity 1 (-1) Examples.git_store).1 = [Examples.git_log]
  /\ ~ len (get_command_similarity 1 (-1) Examples.git_store).1 <= -1.
Proof. split; [reflexivity|]. by vm_compute. Qed.

(** C10. There is a store on which [get_command_similarity] lists one
    command twice: a command of the base command's namespace whose text
    shares a word with the base's is taken by the namespace tier and, since
    the word-overlap scan leaves out the base command only, again by the
    overlap tier. *)
Theorem similarity_lists_command_twice :
  exists db base c limit_,
    unique_ids db
    /\ base ∈ commands db /\ c ∈ commands db
    /\ Command.id c <> Command.id base
    /\ Command.namespace c = Command.namespace base
    /\ 0 < overlap base c
    /\ (get_command_similarity (Command.id base) limit_ db).1 = [c; c].
Proof.
  exists Examples.git_store, Examples.git_status, Examples.git_log, 5.
  split; [apply (bool_decide_unpack _); by vm_compute|].
  split; [by left|]. split; [right; by left|].
  split; [done|]. split; [done|]. split; [by vm_compute|].
  by vm_compute.
Qed.

(** ** Contextual suggestions *)

Lemma where_sublist {A} (p : A -> bool) l : where_ p l `sublist_of` l.
Proof.
  induction l as [|x l IH]; simpl; [done|].
  destruct (p x); by constructor.
Qed.

Lemma map_sublist {A B} (f : A -> B) l k :
  l `sublist_of` k -> map f l `sublist_of` map f k.
Proof. induction 1; simpl; by constructor. Qed.

Lemma first_seen_sublist l : first_seen l `sublist_of` l.
Proof.
  induction l as [|c l IH]; simpl; [done|].
  constructor. etransitivity; [apply where_sublist|done].
Qed.

Lemma first_seen_NoDup l : NoDup (map Command.id (first_seen l)).
Proof.
  induction l as [|c l IH]; simpl; [constructor|].
  apply NoDup_cons. split.
  - intros Hin. apply list_elem_of_fmap in Hin as (r & Hid & Hr).
    apply elem_of_where in Hr as [_ Hr]. unfold eq_int in Hr.
    apply negb_true_iff, bool_decide_eq_false in Hr. congruence.
  - eapply sublist_NoDup; [exact IH|].
    apply map_sublist, where_sublist.
Qed.

Lemma first_seen_where (p : Command.t -> bool) l :
  (forall a b, Command.id a = Command.id b -> p a = p b) ->
  where_ p (first_seen l) = first_seen (where_ p l).
Proof.
  intros Hp. induction l as [|c l IH]; simpl; [done|].
  destruct (p c) eqn:Hc; simpl.
  - f_equal. rewrite <- IH, !where_where. apply where_ext.
    intros r. apply andb_comm.
  - rewrite <- IH, where_where. apply where_ext. intros r.
    unfold eq_int. destruct (bool_decide_reflect (Command.id r = Command.id c))
      as [Heq|Hne]; simpl; [|done].
    by rewrite (Hp r c Heq), Hc.
Qed.

Lemma unique_loop_run limit_ l seen acc :
  unique_loop limit_ l seen acc
  = acc ++ take (Z.to_nat limit_ - length acc)
             (first_seen
                (where_ (fun c => negb (bool_decide (Command.id c ∈ seen))) l)).
Proof.
  revert seen acc. induction l as [|cmd l IH]; intros seen acc; simpl.
  - by rewrite take_nil, app_nil_r.
  - destruct (bool_decide_reflect (Command.id cmd ∈ seen)) as [Hin|Hnot];
      simpl; [by rewrite IH|].
    unfold len. destruct (Z.ltb_spec (Z.of_nat (length acc)) limit_) as [Hlt|Hge].
    + rewrite IH, length_app. simpl. rewrite <- app_assoc. simpl.
      replace (Z.to_nat limit_ - length acc)%nat
        with (S (Z.to_nat limit_ - (length acc + 1)))%nat by lia.
      simpl. do 3 f_equal.
      rewrite first_seen_where.
      * f_equal. rewrite where_where. apply where_ext. intros r.
        unfold eq_int. rewrite <- negb_orb, <- bool_decide_or.
        f_equal. apply bool_decide_ext.
        rewrite elem_of_union, elem_of_singleton. tauto.
      * intros a b Hab. unfold eq_int. by rewrite Hab.
    + rewrite IH.
      replace (Z.to_nat limit_ - length acc)%nat with 0%nat by lia.
      by rewrite !take_0.
Qed.

Lemma unique_loop_first_seen limit_ l :
  unique_loop limit_ l ∅ [] = take (Z.to_nat limit_) (first_seen l).
Proof.
  rewrite unique_loop_run. simpl. rewrite Nat.sub_0_r. do 2 f_equal.
  rewrite (where_ext _ (fun _ => true)) by done.
  unfold where_. apply List.filter_true.
Qed.

Lemma suggestions_reads user hostname cwd project_type limit_ db :
  (get_suggestions_for_context user hostname cwd project_type limit_ db).2 = db.
Proof.
  unfold get_suggestions_for_context, bind, query, ret.
  by repeat (destruct (_ : bool); simpl).
Qed.

(** C8. [get_suggestions_for_context] writes nothing, returns at most
    [limit] commands, no identifier twice, and in the order in which the
    tiers first produced them: the commands run in similar directories
    ranked by number of runs, then the user's commands by use count, then
    the commands of shared scopes by use count, each tier filling what the
    earlier ones left of [limit]. *)
Theorem get_suggestions_spec user hostname cwd project_type limit_ db :
  let out :=
    get_suggestions_for_context user hostname cwd project_type limit_ db in
  let pattern := "%" +:+ Str.last_segment (default "" cwd) +:+ "%" in
  let similar_dir :=
    if truthy cwd
    then limit limit_
           (order_by (desc (similar_dir_count pattern db))
              (where_ (fun c => 0 <? similar_dir_count pattern db c)
                 (commands db)))
    else [] in
  let of_user :=
    if truthy user && (len similar_dir <? limit_)
    then limit (limit_ - len similar_dir)
           (order_by (desc Command.use_count)
              (where_ (fun c => eq_col (Command.user c) user) (commands db)))
    else [] in
  let shared :=
    if len (similar_dir ++ of_user) <? limit_
    then limit (limit_ - len (similar_dir ++ of_user))
           (order_by (desc Command.use_count)
              (where_ (fun c => ne_str (Command.scope c) "personal")
                 (commands db)))
    else [] in
  out.2 = db
  /\ (length out.1 <= Z.to_nat limit_)%nat
  /\ NoDup (map Command.id out.1)
  /\ out.1 `sublist_of` similar_dir ++ of_user ++ shared
  /\ out.1 = take (Z.to_nat limit_) (first_seen (similar_dir ++ of_user ++ shared)).
Proof.
  intros out pattern similar_dir of_user shared.
  assert (Hout : out.1 = take (Z.to_nat limit_)
                           (first_seen (similar_dir ++ of_user ++ shared))).
  { rewrite <- unique_loop_first_seen.
    subst out similar_dir of_user shared.
    unfold get_suggestions_for_context, bind, query, ret. fold pattern.
    generalize (unique_loop limit_). intros dedup.
    destruct (truthy cwd); simpl;
      destruct (truthy user); simpl;
      repeat (rewrite ?app_nil_r; destruct (_ <? limit_); simpl);
      by rewrite ?app_nil_r, <- ?app_assoc. }
  split; [apply suggestions_reads|].
  rewrite Hout. split; [rewrite length_take; lia|].
  split; [|split; [|done]].
  - eapply sublist_NoDup; [apply first_seen_NoDup|].
    apply map_sublist, sublist_take.
  - etransitivity; [apply sublist_take|apply first_seen_sublist].
Qed.

(** ** Execution analytics *)

Lemma descending_take {A} (key : A -> Z) n l :
  descending key l -> descending key (take n l).
Proof.
  unfold descending. revert n. induction l as [|x l IH]; intros n Hs.
  - by rewrite take_nil.
  - destruct n as [|n]; simpl; [constructor|].
    apply StronglySorted_inv in Hs as [Hs Hall].
    constructor; [by apply IH|].
    apply Forall_forall. intros y Hy.
    rewrite Forall_forall in Hall. apply Hall.
    by apply (subseteq_take n l).
Qed.

Lemma descending_map {A B} (g : A -> B) (kb : B -> Z) l :
  descending (fun a => kb (g a)) l -> descending kb (map g l).
Proof.
  unfold descending. induction 1 as [|x l Hs IH Hall]; simpl; constructor.
  - done.
  - apply Forall_forall. intros y Hy.
    apply list_elem_of_fmap in Hy as (a & -> & Ha).
    rewrite Forall_forall in Hall. by apply Hall.
Qed.

(** The start of the window, or OverflowError. *)
Lemma days_ago_dated now days :
  days_ago now days
  = if window_is_dated now days then Returns (now - 86400 * days)
    else Raises OverflowError.
Proof.
  unfold days_ago, timedelta_days, datetime_sub, window_is_dated,
    datetime_min, datetime_max.
  destruct (Z.abs days <=? 999999999); simpl; [|done].
  by destruct (_ <=? now - 86400 * days), (now - 86400 * days <=? _).
Qed.

Lemma in_window_windowed now user days db :
  in_window (now - 86400 * days) user db
  = List.filter (windowed now user days) (executions db).
Proof.
  unfold in_window, windowed. destruct (truthy user).
  - by rewrite where_where.
  - apply where_ext. intros e. by rewrite andb_true_r.
Qed.

Lemma execution_count_runs_of rows c : execution_count rows c = runs_of rows c.
Proof.
  unfold execution_count, runs_of, len, eq_int. f_equal.
  induction rows as [|e rows IH]; simpl; [done|].
  destruct (Z.eq_dec (ExecutionHistory.command_id e) (Command.id c)) as [He|He].
  - rewrite bool_decide_eq_true_2 by done. simpl. by rewrite IH.
  - by rewrite bool_decide_eq_false_2.
Qed.

Lemma analytics_raises now user days db e :
  days_ago now days = Raises e ->
  get_execution_analytics now user days db = (Raises e, db).
Proof. intros Hdays. unfold get_execution_analytics. by rewrite Hdays. Qed.

Lemma analytics_run now user days db from_date :
  days_ago now days = Returns from_date ->
  get_execution_analytics now user days db
  = (let rows := in_window from_date user db in
     match (if 0 <? days then truediv (len rows) days
            else Returns (Int 0)) with
     | Raises e => Raises e
     | Returns avg_per_day =>
         Returns
           (mkAnalytics (len rows)
              (len (remove_dups
                      (map Command.id
                         (where_ (fun c => 0 <? execution_count rows c)
                            (commands db)))))
              avg_per_day
              (map (fun c => (Command.name c, Command.namespace c,
                              execution_count rows c))
                 (limit 10
                    (order_by (desc (execution_count rows))
                       (where_ (fun c => 0 <? execution_count rows c)
                          (commands db)))))
              (map (fun m => (m, method_count rows m))
                 (order_by (desc (method_count rows))
                    (remove_dups
                       (map ExecutionHistory.execution_method rows)))))
     end,
     db).
Proof.
  intros Hdays. unfold get_execution_analytics. rewrite Hdays.
  unfold bind, query, ret. simpl. rewrite List.map_id.
  by destruct (if 0 <? days
               then truediv (len (in_window from_date user db)) days
               else Returns (Int 0)).
Qed.

(** What a call that returns has computed. *)
Lemma analytics_returns now user days db a :
  (get_execution_analytics now user days db).1 = Returns a ->
  exists from_date,
    days_ago now days = Returns from_date
    /\ let rows := in_window from_date user db in
       total_executions a = len rows
       /\ most_used_commands a
          = map (fun c => (Command.name c, Command.namespace c,
                           execution_count rows c))
              (limit 10
                 (order_by (desc (execution_count rows))
                    (where_ (fun c => 0 <? execution_count rows c)
                       (commands db))))
       /\ execution_methods a
          = map (fun m => (m, method_count rows m))
              (order_by (desc (method_count rows))
                 (remove_dups (map ExecutionHistory.execution_method rows))).
Proof.
  destruct (days_ago now days) as [from_date|e] eqn:Hdays.
  - rewrite (analytics_run _ _ _ _ _ Hdays). simpl.
    destruct (if 0 <? days
              then truediv (len (in_window from_date user db)) days
              else Returns (Int 0)); simpl; [|done].
    intros [= <-]. by exists from_date.
  - by rewrite (analytics_raises _ _ _ _ _ Hdays).
Qed.

(** C9 (as amended). [get_execution_analytics] writes nothing.  When the
    start of the window, [days] days before the clock reading, is a date of
    the years 1 to 9999, the total is the number of executions in the
    window, the average per day is the total divided by [days] as a float
    when [days] is positive and the integer 0 otherwise, and the most-used
    list holds at most 10 entries in descending order of execution count:
    the first 10 of the commands with an execution in the window, ranked by
    their number of executions in the window.  When the start of the window
    is no such date the call raises OverflowError. *)
Theorem get_execution_analytics_spec now user days db :
  let out := get_execution_analytics now user days db in
  let rows := List.filter (windowed now user days) (executions db) in
  let executed := where_ (fun c => 0 <? runs_of rows c) (commands db) in
  out.2 = db
  /\ if window_is_dated now days then
       match (if 0 <? days then truediv (len rows) days
              else Returns (Int 0)) with
       | Raises e => out.1 = Raises e
       | Returns average =>
           exists a,
             out.1 = Returns a
             /\ total_executions a = len rows
             /\ average_executions_per_day a = average
             /\ (length (most_used_commands a) <= 10)%nat
             /\ descending snd (most_used_commands a)
             /\ exists ranked,
                  ranked ≡ₚ executed
                  /\ descending (runs_of rows) ranked
                  /\ most_used_commands a
                     = map (fun c => (Command.name c, Command.namespace c,
                                      runs_of rows c))
                         (take 10 ranked)
       end
     else out.1 = Raises OverflowError.
Proof.
  intros out rows executed. subst out.
  pose proof (days_ago_dated now days) as Hdays.
  destruct (window_is_dated now days).
  - rewrite (analytics_run _ _ _ _ _ Hdays). simpl.
    rewrite in_window_windowed. fold rows.
    rewrite (where_ext (fun c => 0 <? execution_count rows c)
               (fun c => 0 <? runs_of rows c))
      by (intros c; by rewrite execution_count_runs_of).
    fold executed.
    destruct (if 0 <? days then truediv (len rows) days else Returns (Int 0))
      as [average|e]; simpl; [|done].
    split; [done|]. eexists. split; [done|]. simpl.
    split; [done|]. split; [done|]. split; [|split].
    + rewrite length_map. by apply (limit_length_le 10).
    + apply (descending_map _ snd). simpl.
      apply descending_take, order_by_desc_sorted.
    + exists (order_by (desc (runs_of rows)) executed).
      split; [apply order_by_perm|].
      split; [apply order_by_desc_sorted|].
      rewrite (order_by_ext (desc (execution_count rows))
                 (desc (runs_of rows)))
        by (intros x y; unfold desc; by rewrite !execution_count_runs_of).
      apply map_ext. intros c. by rewrite execution_count_runs_of.
  - by rewrite (analytics_raises _ _ _ _ _ Hdays).
Qed.

(** C9 as stated fails for a window that starts before the year 1: the
    subtraction [datetime.utcnow() - timedelta(days=days)] then raises
    OverflowError and no analytics are returned.  A million days before an
    evening of 1972 is such a start.  Where the call returns, the average is
    a float: a third is not returned exactly. *)
Lemma window_before_year_one :
  (get_execution_analytics 86400010 None 1000000 Examples.with_history).1
  = Raises OverflowError
  /\ 86400010 - 86400 * 1000000 < datetime_min
  /\ (fun a => (total_executions a, average_executions_per_day a))
     <$> (match (get_execution_analytics 86400010 None 3
                   Examples.with_history).1 with
          | Returns a => Some a
          | Raises _ => None
          end)
     = Some (1, Float (S754_finite false 6004799503160661 (-54)))
  /\ 6004799503160661 * 3 <> 1 * 2 ^ 54.
Proof. by vm_compute. Qed.

(** ** The tests of the repository, run on the model *)

Module Tests.

Example recall_full_context :
  Command.command_string
    <$> (recall_command 200 "c" "ns" (Some "u1") (Some "h1") (Some "/cwd1")
           Examples.two_cwds).1
  = Some "user_host_cwd".
Proof. reflexivity. Qed.

Example recall_partial_context :
  Command.command_string
    <$> (recall_command 200 "c" "ns" (Some "u1") (Some "h1") (Some "/other")
           Examples.two_cwds).1
  = Some "user_host".
Proof. reflexivity. Qed.

(** A row of the first tier wins over a much more used row that only the
    last tier reaches. *)
Example priority_dominates_popularity :
  Command.command_string
    <$> (recall_command 200 "c" "ns" (Some "u") (Some "h") (Some "/w")
           (mkSession
              [ Examples.cmd 1 "popular" "c" "ns" (Some "v") None None "team"
                  300 100;
                Examples.cmd 2 "exact" "c" "ns" (Some "u") (Some "/w")
                  (Some "h") "personal" 100 0 ]
              [] [])).1
  = Some "exact".
Proof. reflexivity. Qed.

Example recall_not_found :
  recall_command 200 "non_existent" "ns" None None None Examples.two_cwds
  = (None, Examples.two_cwds).
Proof. reflexivity. Qed.

Example exact_context_priority :
  (fun c => (Command.command_string c, Command.use_count c,
             Command.last_used_at c))
    <$> (recall_command_by_name 200 "deploy" (Some "alice") (Some "laptop")
           (Some "/home/alice/webapp") (Some "webapp") None
           Examples.deploys).1
  = Some ("echo 'exact match'", 2, Some 200).
Proof. reflexivity. Qed.

Example namespace_hint_priority :
  Command.command_string
    <$> (recall_command_by_name 200 "deploy" (Some "alice") None None
           (Some "webapp") None Examples.two_namespaces).1
  = Some "echo 'webapp version'".
Proof. reflexivity. Qed.

Example directory_pattern_matching :
  Command.command_string
    <$> (recall_command_by_name 200 "test" (Some "bob") None
           (Some "/home/bob/work/other-webapp") None None
           Examples.my_webapp).1
  = Some "npm test".
Proof. reflexivity. Qed.

Example track_execution_respects_permissions :
  track_execution 200 1 "bob" Examples.alice_only = (None, Examples.alice_only)
  /\ Command.use_count
       <$> (track_execution 200 1 "alice" Examples.alice_only).1
     = Some 6.
Proof. split; reflexivity. Qed.

Example create_then_recall :
  let db := (create_command 100 Examples.save_top
               (mkSession [] [] [])).2 in
  (fun c => (Command.command_string c, Command.use_count c,
             Command.last_used_at c))
    <$> (recall_command 200 "processes" "system" (Some "testuser") None None
           db).1
  = Some ("top", 1, Some 200).
Proof. reflexivity. Qed.

Example split_words :
  Str.split_ws (Str.lower "  Git  STATUS -s ") = ["git"; "status"; "-s"].
Proof. reflexivity. Qed.

Example last_segment_path :
  Str.last_segment "/home/bob/work/other-webapp" = "other-webapp".
Proof. reflexivity. Qed.

Example like_substring :
  Str.like "/home/alice/projects/my-WebApp" "%webapp%" = true
  /\ Str.like "/home/alice/projects/api" "%webapp%" = false.
Proof. split; reflexivity. Qed.

Example split_path :
  Str.split_on "/" "/a/b/" = [""; "a"; "b"; ""]
  /\ Str.last_segment "/a/b/" = "" /\ Str.last_segment "plain" = "plain".
Proof. repeat split. Qed.

Example like_wildcards :
  Str.like "abc" "a_c" = true /\ Str.like "ABC" "%bc" = true
  /\ Str.like "" "%%" = true /\ Str.like "abc" "b%" = false.
Proof. repeat split. Qed.

(** Suggestions in [/home/alice/webapp] for alice: the commands run there
    by number of runs, then her commands, no command twice. *)
Example suggestions_in_webapp :
  map Command.id
    (get_suggestions_for_context (Some "alice") None
       (Some "/home/alice/webapp") None 5 Examples.with_history).1
  = [2; 1; 3].
Proof. reflexivity. Qed.

Example suggestions_limited :
  map Command.id
    (get_suggestions_for_context (Some "alice") None
       (Some "/home/alice/webapp") None 1 Examples.with_history).1
  = [2].
Proof. reflexivity. Qed.

(** The one other command of [dev], then the commands that share words
    with [git status], the one sharing two before the one sharing one. *)
Example similar_to_git_status :
  map Command.id (get_command_similarity 1 5 Examples.two_teams).1 = [2; 3; 2]
  /\ map (overlap Examples.git_status) (commands Examples.two_teams)
     = [2; 1; 2; 0].
Proof. split; reflexivity. Qed.

Example similar_within_limit :
  map Command.id (get_command_similarity 1 1 Examples.two_teams).1 = [2]
  /\ (get_command_similarity 1 0 Examples.two_teams).1 = []
  /\ (get_command_similarity 9 5 Examples.two_teams).1 = [].
Proof. repeat split. Qed.

(** One day back from 86400010 only the last run counts. *)
Example analytics_last_day :
  (get_execution_analytics 86400010 None 1 Examples.with_history).1
  = Returns
      (mkAnalytics 1 1 (Float (S754_finite false 4503599627370496 (-52)))
         [("build", "webapp", 1)] [(Some "id", 1)]).
Proof. reflexivity. Qed.

(** Five runs in a thousand days: 0.005, which is 0x1.47ae147ae147bp-8. *)
Example analytics_all :
  (get_execution_analytics 86400010 None 1000 Examples.with_history).1
  = Returns
      (mkAnalytics 5 3 (Float (S754_finite false 5764607523034235 (-60)))
         [("build", "webapp", 3); ("test", "webapp", 1); ("build", "tools", 1)]
         [(Some "id", 3); (Some "name", 2)]).
Proof. reflexivity. Qed.

(** A run stamped in the very second in which the window starts is not
    counted; one second later the window has moved past it as well. *)
Example analytics_boundary_second :
  total_executions
    <$> (match (get_execution_analytics 86400000 None 0
                  Examples.with_history).1 with
         | Returns a => Some a
         | Raises _ => None
         end) = Some 0
  /\ total_executions
       <$> (match (get_execution_analytics 86399999 None 0
                     Examples.with_history).1 with
            | Returns a => Some a
            | Raises _ => None
            end) = Some 1.
Proof. split; reflexivity. Qed.

(** Without days the average is the integer 0; the division rounds to the
    nearest float, ties to even, as [1/3], [1/10] and [1/49] show. *)
Example analytics_no_days :
  average_executions_per_day
    <$> (match (get_execution_analytics 86400010 None 0
                  Examples.with_history).1 with
         | Returns a => Some a
         | Raises _ => None
         end) = Some (Int 0).
Proof. reflexivity. Qed.

Example true_division :
  truediv 1 3 = Returns (Float (S754_finite false 6004799503160661 (-54)))
  /\ truediv 1 10 = Returns (Float (S754_finite false 7205759403792794 (-56)))
  /\ truediv 1 49 = Returns (Float (S754_finite false 5882252574524729 (-58)))
  /\ truediv 6 3 = Returns (Float (S754_finite false 4503599627370496 (-51)))
  /\ truediv 0 7 = Returns (Float (S754_zero false))
  /\ truediv (2 ^ 54 + 2) 1
     = Returns (Float (S754_finite false 4503599627370496 2))
  /\ truediv (2 ^ 54 + 6) 1
     = Returns (Float (S754_finite false 4503599627370498 2))
  /\ truediv (2 ^ 1024) 1 = Raises OverflowError
  /\ truediv 1 0 = Raises ZeroDivisionError.
Proof. repeat split; by vm_compute. Qed.

Example order_is_stable :
  order_by (desc (fun p : Z * Z => p.1)) [(1, 10); (2, 20); (1, 30); (2, 40)]
  = [(2, 20); (2, 40); (1, 10); (1, 30)].
Proof. reflexivity. Qed.

End Tests.

(** ** Listing commands *)

(** X1. [get_commands] writes nothing and returns, in scan order, exactly
    the stored commands that pass every filter given; a filter that is
    [None] or empty imposes nothing. *)
Theorem get_commands_filters q namespace user scope db :
  let out := get_commands q namespace user scope db in
  out.2 = db
  /\ out.1 `sublist_of` commands db
  /\ forall c,
       c ∈ out.1 <->
       c ∈ commands db
       /\ (truthy q = true ->
           contains (Command.command_string c) (default "" q) = true)
       /\ (truthy namespace = true -> Some (Command.namespace c) = namespace)
       /\ (truthy user = true -> Command.user c = user)
       /\ (truthy scope = true -> Some (Command.scope c) = scope).
Proof.
  intros out. subst out. unfold get_commands, query. simpl.
  split; [done|]. split.
  - repeat (destruct (truthy _));
      repeat (etransitivity; [apply where_sublist|]); done.
  - intros c.
    destruct (truthy q), (truthy namespace), (truthy user), (truthy scope);
      rewrite ?elem_of_where; unfold eq_col;
      rewrite ?bool_decide_eq_true; intuition congruence.
Qed.

Lemma create_command_returns_stored now command db :
  (create_command now command db).1.1 ∈ commands (create_command now command db).2.
Proof.
  destruct (first (where_ (same_attributes command) (commands db)))
    as [c|] eqn:Hfirst.
  - rewrite (create_command_existing now command db c Hfirst). simpl.
    apply first_elem_of in Hfirst. by apply elem_of_where in Hfirst as [? _].
  - apply first_None_iff in Hfirst.
    rewrite (create_command_new now command db Hfirst). simpl.
    apply elem_of_app. right. by left.
Qed.

Lemma create_command_agrees now command db :
  agrees command (create_command now command db).1.1.
Proof.
  destruct (first (where_ (same_attributes command) (commands db)))
    as [c|] eqn:Hfirst.
  - rewrite (create_command_existing now command db c Hfirst). simpl.
    apply first_elem_of, elem_of_where in Hfirst as [_ Hsame].
    by apply same_attributes_agrees.
  - apply first_None_iff in Hfirst.
    rewrite (create_command_new now command db Hfirst). simpl.
    apply new_row_agrees.
Qed.

(** X2. [get_all_user_commands] lists rows of that user only, and a command
    saved for a user is listed for that user from then on. *)
Theorem saved_command_is_listed now command u db :
  cc_user command = Some u ->
  let saved := create_command now command db in
  saved.1.1 ∈ (get_all_user_commands u saved.2).1
  /\ (forall c, c ∈ (get_all_user_commands u saved.2).1 ->
        Command.user c = Some u)
  /\ (get_all_user_commands u saved.2).2 = saved.2.
Proof.
  intros Hu saved. subst saved. unfold get_all_user_commands, query. simpl.
  split; [|split; [|done]].
  - apply elem_of_where. split; [apply create_command_returns_stored|].
    destruct (create_command_agrees now command db)
      as (_ & _ & _ & Huser & _).
    unfold eq_col. rewrite Huser, Hu. by apply bool_decide_eq_true.
  - intros c Hc. apply elem_of_where in Hc as [_ Hc].
    by apply bool_decide_eq_true in Hc.
Qed.

Lemma saved_command_is_listed_witness :
  (create_command 100 Examples.save_top (mkSession [] [] [])).1.1
  ∈ (get_all_user_commands "testuser"
       (create_command 100 Examples.save_top (mkSession [] [] [])).2).1.
Proof.
  refine (proj1 (saved_command_is_listed 100 Examples.save_top "testuser"
                   (mkSession [] [] []) _)).
  reflexivity.
Defined.

Lemma elem_of_distinct {A} `{EqDecision A} (l : list A) x :
  x ∈ distinct l <-> x ∈ l.
Proof.
  induction l as [|y l IH]; simpl; [done|].
  rewrite !elem_of_cons, elem_of_where, IH.
  destruct (decide (x = y)) as [->|Hne]; [tauto|].
  rewrite negb_true_iff, bool_decide_eq_false. tauto.
Qed.

Lemma NoDup_distinct {A} `{EqDecision A} (l : list A) : NoDup (distinct l).
Proof.
  induction l as [|y l IH]; simpl; [constructor|].
  apply NoDup_cons. split.
  - intros Hin. apply elem_of_where in Hin as [_ Hin].
    rewrite negb_true_iff, bool_decide_eq_false in Hin. done.
  - eapply sublist_NoDup; [exact IH|apply where_sublist].
Qed.

(** X3. [get_namespaces] writes nothing and lists every namespace in use
    once: a namespace is listed exactly when some stored command has it. *)
Theorem get_namespaces_distinct db :
  (get_namespaces db).2 = db
  /\ NoDup (get_namespaces db).1
  /\ forall ns,
       ns ∈ (get_namespaces db).1 <->
       exists c, c ∈ commands db /\ Command.namespace c = ns.
Proof.
  unfold get_namespaces, query. simpl.
  split; [done|]. split; [apply NoDup_distinct|].
  intros ns. rewrite elem_of_distinct, list_elem_of_fmap. split.
  - intros (c & -> & Hc). by exists c.
  - intros (c & Hc & <-). by exists c.
Qed.

(** ** When a recall finds nothing *)

Lemma first_hit_None_iff tiers rows :
  first_hit tiers rows = None <-> forall p, p ∈ tiers -> where_ p rows = [].
Proof.
  split; [apply first_hit_None|].
  induction tiers as [|p tiers IH]; intros Hall; simpl; [done|].
  rewrite (proj2 (first_order_by_None _ _)) by (apply Hall; by left).
  rewrite IH; [done|]. intros q Hq. apply Hall. by right.
Qed.

Lemma recalled_None now hit db : (recalled now hit db).1 = None <-> hit = None.
Proof. by destruct hit. Qed.

(** A recall that finds nothing had nothing of that name and namespace to
    find. *)
Lemma recall_command_None now name namespace user hostname cwd db :
  (recall_command now name namespace user hostname cwd db).1 = None ->
  forall c, c ∈ commands db ->
    ~ (Command.name c = name /\ Command.namespace c = namespace).
Proof.
  rewrite recall_command_run, recalled_None.
  destruct (first_hit _ _) as [[k c]|] eqn:Hhit; simpl; [done|].
  intros _ c Hc [Hname Hns].
  rewrite first_hit_None_iff in Hhit.
  assert (Hlast :
    where_ (fun c => eq_str (Command.name c) name
                     && eq_str (Command.namespace c) namespace)
      (commands db) = []).
  { apply Hhit. unfold recall_tiers. do 4 right. by left. }
  rewrite where_nil_iff in Hlast.
  specialize (Hlast c Hc). unfold eq_str in Hlast.
  by rewrite !bool_decide_eq_true_2 in Hlast.
Qed.

(** X4. [recall_command] answers not-found exactly when no stored command
    has the name and namespace asked for, whatever context is given. *)
Theorem recall_command_not_found_iff now name namespace user hostname cwd db :
  (recall_command now name namespace user hostname cwd db).1 = None <->
  forall c, c ∈ commands db ->
    ~ (Command.name c = name /\ Command.namespace c = namespace).
Proof.
  split; [apply recall_command_None|].
  rewrite recall_command_run, recalled_None.
  destruct (first_hit _ _) as [[k c]|] eqn:Hhit; simpl; [|done].
  intros Hnone. exfalso.
  apply first_hit_Some in Hhit as (p & Hp & _ & Hc & _).
  apply elem_of_where in Hc as [Hc Hpc]. apply (Hnone c Hc).
  apply list_elem_of_lookup_2 in Hp.
  unfold recall_tiers in Hp. unfold eq_str in *.
  repeat (apply elem_of_cons in Hp as [-> | Hp]);
    [..|inversion Hp];
    rewrite ?andb_true_iff, ?bool_decide_eq_true in Hpc; tauto.
Qed.

Lemma run_tiers_None_iff tiers rows :
  run_tiers tiers rows = None <->
  forall t, t ∈ tiers -> all_truthy (required t) = true ->
    where_ (matching t) rows = [].
Proof.
  induction tiers as [|t tiers IH]; simpl.
  - split; [|done]. intros _ t Ht. inversion Ht.
  - destruct (all_truthy (required t)) eqn:Hreq.
    + destruct (first _) as [c|] eqn:Hfirst.
      * split; [done|]. intros Hall.
        rewrite (Hall t) in Hfirst by (done || by left). done.
      * apply first_order_by_None in Hfirst. rewrite IH. split.
        -- intros Hall t' Ht' Hreq'.
           apply elem_of_cons in Ht' as [->|Ht']; auto.
        -- intros Hall t' Ht' Hreq'. apply Hall; [by right|done].
    + rewrite IH. split.
      * intros Hall t' Ht' Hreq'.
        apply elem_of_cons in Ht' as [->|Ht']; [congruence|auto].
      * intros Hall t' Ht' Hreq'. apply Hall; [by right|done].
Qed.

Lemma by_name_tiers_named
    name user hostname cwd namespace_hint scope_hint t c :
  t ∈ by_name_tiers name user hostname cwd namespace_hint scope_hint ->
  matching t c = true -> Command.name c = name.
Proof.
  unfold by_name_tiers. intros Ht Hc.
  repeat (apply elem_of_cons in Ht as [-> | Ht]); [..|inversion Ht];
    simpl in Hc; unfold eq_str in Hc;
    rewrite ?andb_true_iff, ?bool_decide_eq_true in Hc; tauto.
Qed.

Lemma recall_by_name_None
    now name user hostname cwd namespace_hint scope_hint db :
  (recall_command_by_name now name user hostname cwd namespace_hint
     scope_hint db).1 = None ->
  forall c, c ∈ commands db -> Command.name c <> name.
Proof.
  rewrite recall_command_by_name_run, recalled_None, run_tiers_None_iff.
  intros Hall c Hc Hname.
  assert (Hlast :
    where_ (fun c => eq_str (Command.name c) name) (commands db) = []).
  { apply (Hall (mkTier [] (fun c => eq_str (Command.name c) name)
                   (then_by (desc Command.use_count)
                      (desc_nullslast Command.last_used_at))));
      [|done].
    unfold by_name_tiers. do 8 right. by left. }
  rewrite where_nil_iff in Hlast.
  specialize (Hlast c Hc). unfold eq_str in Hlast.
  by rewrite bool_decide_eq_true_2 in Hlast.
Qed.

(** X5. [recall_command_by_name] answers not-found exactly when no stored
    command has the name asked for, whatever context and hints are given. *)
Theorem recall_by_name_not_found_iff
    now name user hostname cwd namespace_hint scope_hint db :
  (recall_command_by_name now name user hostname cwd namespace_hint
     scope_hint db).1 = None <->
  forall c, c ∈ commands db -> Command.name c <> name.
Proof.
  split; [apply recall_by_name_None|].
  rewrite recall_command_by_name_run, recalled_None, run_tiers_None_iff.
  intros Hnone t Ht _. apply where_nil_iff. intros c Hc.
  destruct (matching t c) eqn:Hm; [|done].
  exfalso. apply (Hnone c Hc). by eapply by_name_tiers_named.
Qed.

(** ** Recall without context, and after saving *)

Lemma first_insert_by {A} (before : A -> A -> bool) x (l : list A) :
  first (insert_by before x l)
  = match first l with
    | Some h => if before h x then Some h else Some x
    | None => Some x
    end.
Proof. destruct l as [|h l]; simpl; [done|]. by destruct (before h x). Qed.

(** Whatever decides the ties, the first row of an order that ranks by an
    integer key first, descending, carries a largest key. *)
Lemma first_order_by_then_by_max {A} (key : A -> Z) (o2 : A -> A -> bool)
    (l : list A) x :
  first (order_by (then_by (desc key) o2) l) = Some x ->
  forall y, y ∈ l -> key y <= key x.
Proof.
  revert x. induction l as [|a l IH]; intros x Hx y Hy; [inversion Hy|].
  simpl in Hx. fold (order_by (then_by (desc key) o2) l) in Hx.
  rewrite first_insert_by in Hx.
  destruct (first (order_by (then_by (desc key) o2) l)) as [h|] eqn:Hh.
  - specialize (IH h eq_refl).
    assert (Hcmp : if then_by (desc key) o2 h a
                   then key a <= key h else key h <= key a).
    { unfold then_by, desc.
      destruct (Z.ltb_spec (key a) (key h)); simpl; [lia|].
      destruct (Z.ltb_spec (key h) (key a)); simpl; [lia|].
      destruct (o2 h a); lia. }
    destruct (then_by (desc key) o2 h a); injection Hx as <-;
      apply elem_of_cons in Hy as [->|Hy]; try lia.
    + by apply IH.
    + specialize (IH y Hy). lia.
  - injection Hx as <-. apply first_order_by_None in Hh. subst l.
    apply elem_of_cons in Hy as [->|Hy]; [lia|inversion Hy].
Qed.

(** X6. Recalled by name with every optional input absent ([None] or
    empty), a command is found whenever one has the name, and the one
    returned is among the most used of that name. *)
Theorem recall_by_name_without_context
    now name user hostname cwd namespace_hint scope_hint db :
  Forall (fun o => truthy o = false)
    [user; hostname; cwd; namespace_hint; scope_hint] ->
  match (recall_command_by_name now name user hostname cwd namespace_hint
           scope_hint db).1 with
  | Some r =>
      exists c,
        r = bump now c /\ c ∈ commands db /\ Command.name c = name
        /\ forall c', c' ∈ commands db -> Command.name c' = name ->
             Command.use_count c' <= Command.use_count c
  | None => forall c, c ∈ commands db -> Command.name c <> name
  end.
Proof.
  intros Habs.
  apply Forall_cons in Habs as [Hu Habs]. apply Forall_cons in Habs as [Hh Habs].
  apply Forall_cons in Habs as [Hw Habs]. apply Forall_cons in Habs as [Hn Habs].
  apply Forall_cons in Habs as [Hs _].
  destruct (recall_command_by_name _ _ _ _ _ _ _ _).1 as [r|] eqn:Hout.
  - rewrite recall_command_by_name_run in Hout.
    unfold by_name_tiers in Hout. simpl in Hout.
    rewrite Hu, Hw, Hn, Hs in Hout. simpl in Hout.
    destruct (first _) as [c|] eqn:Hfirst; [|done].
    simpl in Hout. injection Hout as <-. exists c. split; [done|].
    pose proof (first_order_by_elem_of _ _ _ Hfirst) as Hc.
    apply elem_of_where in Hc as [Hc Hname].
    apply bool_decide_eq_true in Hname.
    split; [done|]. split; [done|]. intros c' Hc' Hname'.
    apply (first_order_by_then_by_max _ _ _ _ Hfirst).
    apply elem_of_where. split; [done|]. by apply bool_decide_eq_true.
  - exact (recall_by_name_None _ _ _ _ _ _ _ _ Hout).
Qed.

Lemma recall_by_name_without_context_witness :
  exists c,
    bump 200 Examples.alice_utility = bump 200 c
    /\ c ∈ commands Examples.alice_only /\ Command.name c = "utility"
    /\ forall c', c' ∈ commands Examples.alice_only ->
         Command.name c' = "utility" ->
         Command.use_count c' <= Command.use_count c.
Proof.
  apply (recall_by_name_without_context 200 "utility" None (Some "") None None
           None Examples.alice_only).
  repeat constructor.
Defined.

(** X7. A command saved under a name and namespace that no stored command
    had is what the next recall of that name and namespace returns, whatever
    context the recall gives: with the text saved, used once, last used at
    the time of the recall. *)
Theorem save_then_recall now later command user hostname cwd db :
  (forall c, c ∈ commands db ->
     ~ (Command.name c = cc_name command
        /\ Command.namespace c = cc_namespace command)) ->
  let saved := create_command now command db in
  let answer :=
    (recall_command later (cc_name command) (cc_namespace command)
       user hostname cwd saved.2).1 in
  saved.1.2 = true
  /\ answer = Some (bump later saved.1.1)
  /\ Command.command_string <$> answer = Some (cc_command_string command)
  /\ Command.use_count <$> answer = Some 1
  /\ Command.last_used_at <$> answer = Some (Some later).
Proof.
  intros Hfresh saved answer.
  assert (Hnone : where_ (same_attributes command) (commands db) = []).
  { apply where_nil_iff. intros c Hc.
    destruct (same_attributes command c) eqn:Hsame; [|done].
    apply same_attributes_agrees in Hsame as (_ & Hn & Hns & _).
    by destruct (Hfresh c Hc). }
  assert (Hsaved : saved = (new_row now command db, true,
                            mkSession (commands db ++ [new_row now command db])
                              (executions db) (contexts db))).
  { subst saved. by apply create_command_new. }
  assert (Hanswer : answer = Some (bump later (new_row now command db))).
  { subst answer. rewrite Hsaved. simpl.
    destruct (recall_command _ _ _ _ _ _ _).1 as [r|] eqn:Hout.
    - rewrite recall_command_run in Hout.
      destruct (first_hit _ _) as [[k c]|] eqn:Hhit; [|done].
      simpl in Hout. injection Hout as <-. do 2 f_equal.
      apply first_hit_Some in Hhit as (p & Hp & _ & Hc & _).
      apply elem_of_where in Hc as [Hc Hpc]. simpl in Hc.
      apply elem_of_app in Hc as [Hc|Hc];
        [|by apply list_elem_of_singleton in Hc].
      exfalso. apply (Hfresh c Hc).
      apply list_elem_of_lookup_2 in Hp.
      unfold recall_tiers in Hp. unfold eq_str in *.
      repeat (apply elem_of_cons in Hp as [-> | Hp]);
        [..|inversion Hp];
        rewrite ?andb_true_iff, ?bool_decide_eq_true in Hpc; tauto.
    - exfalso.
      pose proof (recall_command_None _ _ _ _ _ _ _ Hout) as Hno.
      apply (Hno (new_row now command db)); [|done].
      simpl. apply elem_of_app. right. by left. }
  rewrite Hanswer, Hsaved. by repeat split.
Qed.

Lemma save_then_recall_witness :
  (recall_command 200 "processes" "system" (Some "testuser") None None
     (create_command 100 Examples.save_top (mkSession [] [] [])).2).1
  = Some (bump 200
            (create_command 100 Examples.save_top (mkSession [] [] [])).1.1).
Proof.
  refine (proj1 (proj2 (save_then_recall 100 200 Examples.save_top
                          (Some "testuser") None None (mkSession [] [] [])
                          _))).
  intros c Hc. inversion Hc.
Defined.

(** ** Access by identifier *)

Lemma owned_by_id_found db c caller :
  unique_ids db -> c ∈ commands db ->
  owned_by_id (Command.id c) caller db
  = if bool_decide (Command.user c = Some caller) then Some c else None.
Proof.
  intros Hnd Hc. unfold owned_by_id. rewrite where_id_unique by done.
  unfold eq_col. by destruct (bool_decide (Command.user c = Some caller)).
Qed.

(** X8. With unique identifiers, [get_command_by_id] writes nothing and
    returns a command exactly when that command is stored under the
    identifier and the caller owns it or its scope is not personal. *)
Theorem get_command_by_id_access db command_id caller :
  unique_ids db ->
  (get_command_by_id command_id caller db).2 = db
  /\ forall c,
       (get_command_by_id command_id caller db).1 = Some c <->
       c ∈ commands db /\ Command.id c = command_id
       /\ (Command.user c = Some caller \/ Command.scope c <> "personal").
Proof.
  intros Hnd. split; [apply get_command_by_id_reads|]. intros c. split.
  - unfold get_command_by_id, bind, query, ret, owned_by_id.
    destruct (first _) as [c0|] eqn:H0; simpl.
    + intros [= <-]. apply first_elem_of, elem_of_where in H0 as [Hc Hp].
      unfold eq_int, eq_col in Hp.
      rewrite andb_true_iff, !bool_decide_eq_true in Hp. tauto.
    + intros H1. apply first_elem_of, elem_of_where in H1 as [Hc Hp].
      unfold eq_int, ne_str in Hp.
      rewrite andb_true_iff, negb_true_iff, bool_decide_eq_true,
        bool_decide_eq_false in Hp. tauto.
  - intros (Hc & <- & Haccess).
    unfold get_command_by_id, bind, query, ret.
    rewrite owned_by_id_found by done.
    destruct (bool_decide_reflect (Command.user c = Some caller))
      as [Hown|Hother]; [done|].
    destruct Haccess as [Hown|Hshared]; [done|].
    rewrite where_id_unique by done.
    unfold ne_str. by rewrite bool_decide_eq_false_2.
Qed.

Lemma get_command_by_id_access_witness :
  (get_command_by_id 1 "alice" Examples.alice_only).1
  = Some Examples.alice_utility
  <-> Examples.alice_utility ∈ commands Examples.alice_only
      /\ Command.id Examples.alice_utility = 1
      /\ (Command.user Examples.alice_utility = Some "alice"
          \/ Command.scope Examples.alice_utility <> "personal").
Proof.
  refine (proj2 (get_command_by_id_access Examples.alice_only 1 "alice" _)
            Examples.alice_utility).
  apply (bool_decide_unpack _). vm_compute. exact I.
Defined.

(** X9. Only the owner writes.  On a command whose owner is not the caller
    (or that has no owner) update, rename and delete answer not-found and
    change nothing, for every scope; yet when its scope is not personal the
    same caller reads it by identifier and has its execution tracked. *)
Theorem only_the_owner_writes db c caller now text name namespace :
  unique_ids db ->
  c ∈ commands db ->
  Command.user c <> Some caller ->
  update_command (Command.id c) caller text db = (None, db)
  /\ rename_command (Command.id c) caller name namespace db = (None, db)
  /\ delete_command (Command.id c) caller db = (None, db)
  /\ (Command.scope c <> "personal" ->
      get_command_by_id (Command.id c) caller db = (Some c, db)
      /\ (track_execution now (Command.id c) caller db).1
         = Some (bump now c)).
Proof.
  intros Hnd Hc Hother.
  assert (Hown : owned_by_id (Command.id c) caller db = None).
  { rewrite owned_by_id_found by done. by rewrite bool_decide_eq_false_2. }
  unfold update_command, rename_command, delete_command, bind, query.
  rewrite Hown. repeat (split; [done|]).
  intros Hshared.
  assert (Hget : get_command_by_id (Command.id c) caller db = (Some c, db)).
  { unfold get_command_by_id, bind, query. rewrite Hown.
    rewrite where_id_unique by done.
    unfold ne_str. by rewrite bool_decide_eq_false_2. }
  split; [done|]. by rewrite track_execution_run, Hget.
Qed.

Lemma only_the_owner_writes_witness :
  update_command 1 "bob" "rm -rf" Examples.alice_only
  = (None, Examples.alice_only)
  /\ delete_command 1 "bob" Examples.alice_only = (None, Examples.alice_only).
Proof.
  destruct (only_the_owner_writes Examples.alice_only Examples.alice_utility
              "bob" 200 "rm -rf" "n" "ns")
    as (Hupdate & _ & Hdelete & _).
  - apply (bool_decide_unpack _). vm_compute. exact I.
  - apply (bool_decide_unpack _). vm_compute. exact I.
  - discriminate.
  - split; [exact Hupdate | exact Hdelete].
Defined.

(** ** Edits by the owner *)

(** X10. [update_command] by the owner rewrites exactly the row addressed:
    its text becomes the new text, every other field, the usage statistics
    included, and every other row stay as they were; reading the command by
    its identifier afterwards returns the new text. *)
Theorem update_command_by_owner db i c caller text :
  unique_ids db ->
  commands db !! i = Some c ->
  Command.user c = Some caller ->
  let c' := set_command_string text c in
  update_command (Command.id c) caller text db
  = (Some c',
     mkSession (<[i:=c']> (commands db)) (executions db) (contexts db))
  /\ Command.command_string c' = text
  /\ Command.use_count c' = Command.use_count c
  /\ Command.last_used_at c' = Command.last_used_at c
  /\ Command.name c' = Command.name c
  /\ Command.namespace c' = Command.namespace c
  /\ Command.scope c' = Command.scope c
  /\ (get_command_by_id (Command.id c) caller
        (update_command (Command.id c) caller text db).2).1
     = Some c'.
Proof.
  intros Hnd Hi Hown c'.
  pose proof (list_elem_of_lookup_2 _ _ _ Hi) as Hc.
  assert (Hout : update_command (Command.id c) caller text db
                 = (Some c',
                    mkSession (<[i:=c']> (commands db)) (executions db)
                      (contexts db))).
  { unfold update_command, bind, query, commit, ret.
    rewrite owned_by_id_found by done.
    rewrite bool_decide_eq_true_2 by done. fold c'.
    f_equal. by apply flush_command_insert with c. }
  split; [done|]. repeat (split; [done|]).
  assert (Hflush : flush_command c' db
                   = mkSession (<[i:=c']> (commands db)) (executions db)
                       (contexts db))
    by by apply flush_command_insert with c.
  rewrite Hout, <- Hflush. simpl.
  unfold get_command_by_id, bind, query, ret.
  change (Command.id c) with (Command.id c').
  rewrite owned_by_id_found.
  - by rewrite bool_decide_eq_true_2.
  - unfold unique_ids. by rewrite flush_command_ids.
  - rewrite Hflush. simpl. apply list_elem_of_lookup. exists i.
    apply list_lookup_insert_eq. by apply lookup_lt_Some in Hi.
Qed.

Lemma update_command_by_owner_witness :
  update_command 1 "alice" "echo new" Examples.alice_only
  = (Some (set_command_string "echo new" Examples.alice_utility),
     mkSession [set_command_string "echo new" Examples.alice_utility] [] []).
Proof.
  refine (proj1 (update_command_by_owner Examples.alice_only 0%nat
                   Examples.alice_utility "alice" "echo new" _ eq_refl
                   eq_refl)).
  apply (bool_decide_unpack _). vm_compute. exact I.
Defined.

(** X11. [rename_command] by the owner rewrites exactly the row addressed,
    changing its name and namespace only, and the command is from then on
    found by a recall of the new name and namespace. *)
Theorem rename_command_by_owner
    db i c caller name namespace later user hostname cwd :
  unique_ids db ->
  commands db !! i = Some c ->
  Command.user c = Some caller ->
  let c' := set_name name namespace c in
  let out := rename_command (Command.id c) caller name namespace db in
  out = (Some c',
         mkSession (<[i:=c']> (commands db)) (executions db) (contexts db))
  /\ Command.name c' = name /\ Command.namespace c' = namespace
  /\ Command.command_string c' = Command.command_string c
  /\ Command.use_count c' = Command.use_count c
  /\ Command.last_used_at c' = Command.last_used_at c
  /\ (recall_command later name namespace user hostname cwd out.2).1 <> None.
Proof.
  intros Hnd Hi Hown c' out.
  pose proof (list_elem_of_lookup_2 _ _ _ Hi) as Hc.
  assert (Hout : out = (Some c',
                        mkSession (<[i:=c']> (commands db)) (executions db)
                          (contexts db))).
  { subst out. unfold rename_command, bind, query, commit, ret.
    rewrite owned_by_id_found by done.
    rewrite bool_decide_eq_true_2 by done. fold c'.
    f_equal. by apply flush_command_insert with c. }
  split; [done|]. repeat (split; [done|]).
  intros Hnone.
  pose proof (recall_command_None _ _ _ _ _ _ _ Hnone) as Hno.
  apply (Hno c'); [|done]. rewrite Hout. simpl.
  apply list_elem_of_lookup. exists i.
  apply list_lookup_insert_eq. by apply lookup_lt_Some in Hi.
Qed.

Lemma rename_command_by_owner_witness :
  (recall_command 300 "tool" "misc" (Some "bob") None None
     (rename_command 1 "alice" "tool" "misc" Examples.alice_only).2).1
  <> None.
Proof.
  refine (proj2 (proj2 (proj2 (proj2 (proj2 (proj2
            (rename_command_by_owner Examples.alice_only 0%nat
               Examples.alice_utility "alice" "tool" "misc" 300 (Some "bob")
               None None _ eq_refl eq_refl))))))).
  apply (bool_decide_unpack _). vm_compute. exact I.
Defined.

Lemma where_other_keys_delete {A K} `{EqDecision K} (key : A -> K) rows i c :
  NoDup (map key rows) ->
  rows !! i = Some c ->
  where_ (fun r => negb (bool_decide (key r = key c))) rows = delete i rows.
Proof.
  revert i. induction rows as [|r rows IH]; intros i Hnd Hi; [done|].
  simpl in Hnd. apply NoDup_cons in Hnd as [Hr Hnd].
  destruct i as [|i]; simpl in *.
  - injection Hi as ->. rewrite bool_decide_eq_true_2 by done. simpl.
    clear IH. induction rows as [|r rows IH]; [done|].
    simpl in *. apply not_elem_of_cons in Hr as [Hne Hr].
    apply NoDup_cons in Hnd as [_ Hnd].
    rewrite bool_decide_eq_false_2 by done. simpl. f_equal. by apply IH.
  - rewrite bool_decide_eq_false_2.
    + simpl. f_equal. by apply IH.
    + intros Heq. apply Hr. rewrite Heq. apply elem_of_keys.
      by apply list_elem_of_lookup_2 in Hi.
Qed.

(** X12. [delete_command] by the owner removes exactly the row addressed
    and, with it, every execution recorded for it and no other; after that
    the identifier is not found for any caller, the owner included. *)
Theorem delete_command_by_owner db i c caller anyone :
  unique_ids db ->
  commands db !! i = Some c ->
  Command.user c = Some caller ->
  let out := delete_command (Command.id c) caller db in
  out.1 = Some c
  /\ commands out.2 = delete i (commands db)
  /\ (forall e, e ∈ executions out.2 <->
        e ∈ executions db /\ ExecutionHistory.command_id e <> Command.id c)
  /\ contexts out.2 = contexts db
  /\ unique_ids out.2
  /\ get_command_by_id (Command.id c) anyone out.2 = (None, out.2).
Proof.
  intros Hnd Hi Hown out.
  pose proof (list_elem_of_lookup_2 _ _ _ Hi) as Hc.
  assert (Hout : out = (Some c, delete_row c db)).
  { subst out. unfold delete_command, bind, query, commit, ret.
    rewrite owned_by_id_found by done.
    by rewrite bool_decide_eq_true_2. }
  assert (Hrows : commands (delete_row c db) = delete i (commands db)).
  { unfold delete_row, eq_int. simpl.
    by apply (where_other_keys_delete Command.id). }
  assert (Hsub : delete i (commands db) `sublist_of` commands db)
    by apply sublist_delete.
  assert (Hnd' : unique_ids (delete_row c db)).
  { unfold unique_ids. rewrite Hrows.
    eapply sublist_NoDup; [exact Hnd|]. by apply map_sublist. }
  rewrite Hout. simpl. split; [done|]. split; [done|]. split.
  { intros e. rewrite elem_of_where. unfold eq_int.
    rewrite negb_true_iff, bool_decide_eq_false. tauto. }
  split; [done|]. split; [done|].
  apply absent_row. rewrite Hrows.
  unfold unique_ids in Hnd.
  rewrite <- (take_drop_middle _ _ _ Hi) in Hnd. rewrite delete_take_drop.
  rewrite !map_app in *. simpl in Hnd.
  apply NoDup_app in Hnd as (_ & Hbefore & Hafter).
  apply NoDup_cons in Hafter as [Hafter _].
  intros Hin. apply elem_of_app in Hin as [Hin|Hin]; [|done].
  apply (Hbefore _ Hin). by left.
Qed.

Lemma delete_command_by_owner_witness :
  get_command_by_id 1 "alice"
    (delete_command 1 "alice" Examples.alice_only).2
  = (None, (delete_command 1 "alice" Examples.alice_only).2).
Proof.
  refine (proj2 (proj2 (proj2 (proj2 (proj2
            (delete_command_by_owner Examples.alice_only 0%nat
               Examples.alice_utility "alice" "alice" _ eq_refl eq_refl)))))).
  apply (bool_decide_unpack _). vm_compute. exact I.
Defined.

(** ** Recording executions *)

Lemma in_window_app from_date user db e :
  in_window from_date user
    (mkSession (commands db) (executions db ++ [e]) (contexts db))
  = in_window from_date user db
    ++ (if (from_date <? ExecutionHistory.executed_at e)
           && (if truthy user
               then eq_col (ExecutionHistory.user e) user else true)
        then [e] else []).
Proof.
  unfold in_window, where_. simpl. rewrite List.filter_app. simpl.
  destruct (from_date <? ExecutionHistory.executed_at e);
    destruct (truthy user); simpl; rewrite ?List.filter_app; simpl;
    by rewrite ?app_nil_r.
Qed.

(** X13. [create_execution_history] appends one execution stamped with the
    clock reading and touches no command.  Where the analytics return
    before and after, the total computed afterwards counts the execution,
    one more than before, exactly when its stamp lies after the second in
    which the window starts and the analytics are not asked for another
    user; an execution recorded in the very second in which the window
    starts is not counted. *)
Theorem recorded_execution_is_counted
    now later user days execution db before after :
  let recorded := create_execution_history now execution db in
  let counted :=
    (later - 86400 * days <? now)
    && (if truthy user then eq_col (eh_user execution) user else true) in
  (get_execution_analytics later user days db).1 = Returns before ->
  (get_execution_analytics later user days recorded.2).1 = Returns after ->
  commands recorded.2 = commands db
  /\ contexts recorded.2 = contexts db
  /\ executions recorded.2 = executions db ++ [recorded.1]
  /\ ExecutionHistory.executed_at recorded.1 = now
  /\ ExecutionHistory.command_id recorded.1 = eh_command_id execution
  /\ (ExecutionHistory.id recorded.1
      ∉ map ExecutionHistory.id (executions db))
  /\ total_executions after
     = total_executions before + (if counted then 1 else 0).
Proof.
  intros recorded counted Hbefore Hafter. subst recorded counted.
  apply analytics_returns in Hbefore as (from_date & Hdays & Hb & _).
  apply analytics_returns in Hafter as (from_date' & Hdays' & Ha & _).
  rewrite Hdays in Hdays'. injection Hdays' as <-.
  rewrite days_ago_dated in Hdays.
  destruct (window_is_dated later days); [|done]. injection Hdays as <-.
  revert Ha. rewrite Hb.
  unfold create_execution_history, bind, query, commit, ret. simpl.
  intros ->. repeat (split; [done|]). split; [apply next_id_fresh|].
  rewrite in_window_app. simpl.
  unfold len. rewrite length_app.
  destruct (_ && _); simpl; lia.
Qed.

(** An execution recorded at 86400005 and analytics of the last day taken
    five seconds later. *)
Lemma recorded_execution_is_counted_witness :
  total_executions
    <$> (match (get_execution_analytics 86400010 None 1
                  (create_execution_history 86400005
                     (mkExecutionHistoryCreate 1 (Some "alice") None None None
                        "name" None None)
                     Examples.with_history).2).1 with
         | Returns a => Some a
         | Raises _ => None
         end)
  = Some 2.
Proof.
  destruct (get_execution_analytics 86400010 None 1 Examples.with_history).1
    as [before|] eqn:Hbefore; [|discriminate].
  destruct (get_execution_analytics 86400010 None 1
              (create_execution_history 86400005
                 (mkExecutionHistoryCreate 1 (Some "alice") None None None
                    "name" None None)
                 Examples.with_history).2).1
    as [after|] eqn:Hafter; [|discriminate].
  destruct (recorded_execution_is_counted 86400005 86400010 None 1
              (mkExecutionHistoryCreate 1 (Some "alice") None None None
                 "name" None None)
              Examples.with_history before after Hbefore Hafter)
    as (_ & _ & _ & _ & _ & _ & Htotal).
  simpl. rewrite Htotal. injection Hbefore as <-. reflexivity.
Defined.

(** ** Analytics by method *)

Lemma total_perm l l' : l ≡ₚ l' -> total l = total l'.
Proof. induction 1; simpl; lia. Qed.

Lemma total_indicator {K} `{EqDecision K} (a : K) keys :
  NoDup keys ->
  total (map (fun m => if bool_decide (a = m) then 1 else 0) keys)
  = if bool_decide (a ∈ keys) then 1 else 0.
Proof.
  induction 1 as [|m keys Hm Hnd IH]; simpl; [done|].
  rewrite IH. destruct (bool_decide_reflect (a = m)) as [->|Hne].
  - rewrite (bool_decide_eq_false_2 (m ∈ keys)) by done.
    rewrite bool_decide_eq_true_2; [done|by left].
  - destruct (bool_decide_reflect (a ∈ keys)) as [Hin|Hnot].
    + rewrite bool_decide_eq_true_2; [done|by right].
    + rewrite bool_decide_eq_false_2; [done|].
      intros Hin. by apply elem_of_cons in Hin as [?|?].
Qed.

(** Counting the rows of each key, over keys that are distinct and cover
    the rows, counts every row once. *)
Lemma counts_partition {A K} `{EqDecision K} (key : A -> K) rows keys :
  NoDup keys ->
  (forall r, r ∈ rows -> key r ∈ keys) ->
  total (map (fun m => len (where_ (fun r => bool_decide (key r = m)) rows))
           keys)
  = len rows.
Proof.
  intros Hnd. induction rows as [|x rows IH]; intros Hcover.
  - simpl. clear. induction keys as [|k keys IHk]; unfold len in *;
      simpl in *; lia.
  - assert (Hsplit : forall ks,
      total (map (fun m => len (where_ (fun r => bool_decide (key r = m))
                                  (x :: rows))) ks)
      = total (map (fun m => if bool_decide (key x = m) then 1 else 0) ks)
        + total (map (fun m => len (where_ (fun r => bool_decide (key r = m))
                                      rows)) ks)).
    { induction ks as [|m ks IHks]; simpl; [done|].
      simpl in IHks. rewrite IHks. unfold len.
      destruct (bool_decide (key x = m)); simpl; lia. }
    rewrite Hsplit, total_indicator by done.
    rewrite IH by (intros r Hr; apply Hcover; by right).
    rewrite bool_decide_eq_true_2 by (apply Hcover; by left).
    unfold len. simpl. lia.
Qed.

(** X14. The method statistics that [get_execution_analytics] returns
    split the executions of the window: every method occurs once, with a
    positive count, the counts are in descending order, and they add up to
    the total number of executions. *)
Theorem execution_methods_partition now user days db a :
  (get_execution_analytics now user days db).1 = Returns a ->
  NoDup (map fst (execution_methods a))
  /\ descending snd (execution_methods a)
  /\ (forall m n, (m, n) ∈ execution_methods a -> 0 < n)
  /\ total (map snd (execution_methods a)) = total_executions a.
Proof.
  intros Ha.
  apply analytics_returns in Ha as (from_date & _ & -> & _ & ->).
  set (rows := in_window from_date user db).
  set (methods := remove_dups (map ExecutionHistory.execution_method rows)).
  assert (Hperm : order_by (desc (method_count rows)) methods ≡ₚ methods)
    by apply order_by_perm.
  assert (Hnd : NoDup methods) by apply NoDup_remove_dups.
  rewrite !List.map_map. simpl. rewrite List.map_id. split.
  { by rewrite Hperm. }
  split.
  { apply (descending_map _ snd). simpl. apply order_by_desc_sorted. }
  split.
  { intros m n Hin. apply list_elem_of_fmap in Hin as (m' & [= -> ->] & Hm).
    rewrite Hperm in Hm. unfold methods in Hm.
    rewrite elem_of_remove_dups in Hm.
    apply list_elem_of_fmap in Hm as (e & -> & He).
    unfold method_count, len.
    assert (Hin : e ∈ where_ (fun e0 =>
                     eq_col (ExecutionHistory.execution_method e0)
                       (ExecutionHistory.execution_method e)) rows).
    { apply elem_of_where. split; [done|]. by apply bool_decide_eq_true. }
    destruct (where_ _ rows); [inversion Hin|simpl; lia]. }
  rewrite (total_perm _ (map (method_count rows) methods))
    by (by apply Permutation_map).
  apply (counts_partition ExecutionHistory.execution_method).
  - done.
  - intros e He. unfold methods. rewrite elem_of_remove_dups.
    apply list_elem_of_fmap. by exists e.
Qed.

Lemma execution_methods_partition_witness :
  exists a,
    (get_execution_analytics 86400010 None 1000 Examples.with_history).1
    = Returns a
    /\ execution_methods a = [(Some "id", 3); (Some "name", 2)]
    /\ total (map snd (execution_methods a)) = total_executions a.
Proof.
  eexists. split; [reflexivity|]. split; [reflexivity|].
  refine (proj2 (proj2 (proj2
            (execution_methods_partition 86400010 None 1000
               Examples.with_history _ _)))).
  reflexivity.
Defined.

(** ** Learning a project context *)

Lemma detect_seen_run now fs directory_path user db e :
  first (where_ (fun r => eq_str (ProjectContext.directory_pattern r)
                            (Str.last_segment directory_path))
           (contexts db)) = Some e ->
  detect_project_context now fs directory_path user db
  = (mkResponse (Some (ProjectContext.detected_namespace e))
       (Some (ProjectContext.project_type e))
       (Z.min 100 (ProjectContext.confidence_score e + 5))
       (map Command.name
          (limit 5
             (where_ (fun c => eq_str (Command.namespace c)
                                 (ProjectContext.detected_namespace e))
                (commands db)))),
     flush_context (set_detected now e) db).
Proof.
  intros Hfound. unfold detect_project_context, bind, query, commit, ret.
  by rewrite Hfound.
Qed.

Lemma detect_new_run now fs directory_path user db :
  where_ (fun r => eq_str (ProjectContext.directory_pattern r)
                     (Str.last_segment directory_path))
    (contexts db) = [] ->
  exists ns score,
    detect_project_context now fs directory_path user db
    = (mkResponse (Some ns) (detect_type fs project_files) score [],
       mkSession (commands db) (executions db)
         (contexts db
          ++ [ProjectContext.mk
                (next_id (map ProjectContext.id (contexts db)))
                (Str.last_segment directory_path) ns
                (default "unknown" (detect_type fs project_files))
                score now 1]))
    /\ match detect_type fs project_files with
       | None => ns = Str.last_segment directory_path /\ score = 50
       | Some t =>
           (ns = Str.last_segment directory_path /\ score = 80)
           \/ (score = 90
               /\ ((t = "npm" /\ package_json_name fs = Some ns)
                   \/ (t = "cargo" /\ cargo_toml_name fs = Some ns)))
       end.
Proof.
  intros Hnew. unfold detect_project_context, bind, query, commit, ret.
  rewrite Hnew. generalize (detect_type fs project_files). intros dt.
  destruct dt as [t|]; simpl.
  - destruct (bool_decide_reflect (Some t = Some "npm")) as [[= ->]|Hnpm].
    + destruct (package_json_name fs) as [n|] eqn:Hn.
      * exists n, 90. split; [done|]. right. split; [done|]. by left.
      * eexists _, _. split; [done|]. by left.
    + destruct (bool_decide_reflect (Some t = Some "cargo")) as [[= ->]|Hcargo].
      * destruct (cargo_toml_name fs) as [n|] eqn:Hn.
        -- exists n, 90. split; [done|]. right. split; [done|]. by right.
        -- eexists _, _. split; [done|]. by left.
      * eexists _, _. split; [done|]. by left.
  - eexists _, _. by split.
Qed.

(** Without a [package.json] the project is not taken for an npm project. *)
Lemma no_package_json fs :
  marker_exists fs "package.json" = false ->
  detect_type fs project_files <> Some "npm".
Proof.
  intros Hnone. unfold project_files. simpl. rewrite Hnone.
  repeat (destruct (marker_exists fs _); [discriminate|]). discriminate.
Qed.

(** X15. A directory name seen for the first time, in a directory without
    a [package.json], is learned: detection appends one context row holding
    the name, the namespace suggested, the confidence answered (50 without
    a marker file, 80 with one, 90 only when [Cargo.toml] yields the project
    name) and usage count 1, and answers no similar commands.  The next
    detection of the same directory name answers the namespace learned,
    whatever the file system shows then, with the learned confidence raised
    by 5, and counts the second use. *)
Theorem new_pattern_is_learned
    now later fs fs' directory_path user user' db :
  (forall e, e ∈ contexts db ->
     ProjectContext.directory_pattern e <> Str.last_segment directory_path) ->
  marker_exists fs "package.json" = false ->
  let first_call := detect_project_context now fs directory_path user db in
  let second_call :=
    detect_project_context later fs' directory_path user' first_call.2 in
  exists learned,
    contexts first_call.2 = contexts db ++ [learned]
    /\ commands first_call.2 = commands db
    /\ ProjectContext.directory_pattern learned
       = Str.last_segment directory_path
    /\ ProjectContext.usage_count learned = 1
    /\ ProjectContext.last_detected learned = now
    /\ r_detected_namespace first_call.1
       = Some (ProjectContext.detected_namespace learned)
    /\ r_confidence_score first_call.1
       = ProjectContext.confidence_score learned
    /\ r_similar_commands first_call.1 = []
    /\ match detect_type fs project_files with
       | None =>
           r_project_type first_call.1 = None
           /\ ProjectContext.project_type learned = "unknown"
           /\ ProjectContext.confidence_score learned = 50
           /\ ProjectContext.detected_namespace learned
              = Str.last_segment directory_path
       | Some t =>
           r_project_type first_call.1 = Some t
           /\ ProjectContext.project_type learned = t
           /\ ((ProjectContext.confidence_score learned = 80
                /\ ProjectContext.detected_namespace learned
                   = Str.last_segment directory_path)
               \/ (ProjectContext.confidence_score learned = 90
                   /\ t = "cargo"
                   /\ cargo_toml_name fs
                      = Some (ProjectContext.detected_namespace learned)))
       end
    /\ contexts second_call.2 = contexts db ++ [set_detected later learned]
    /\ ProjectContext.usage_count (set_detected later learned) = 2
    /\ r_detected_namespace second_call.1 = r_detected_namespace first_call.1
    /\ r_project_type second_call.1
       = Some (ProjectContext.project_type learned)
    /\ r_confidence_score second_call.1
       = Z.min 100 (r_confidence_score first_call.1 + 5).
Proof.
  intros Hnew Hnpm first_call second_call.
  apply no_package_json in Hnpm.
  assert (Hnone :
    where_ (fun r => eq_str (ProjectContext.directory_pattern r)
                       (Str.last_segment directory_path))
      (contexts db) = []).
  { apply where_nil_iff. intros e He. unfold eq_str.
    apply bool_decide_eq_false_2. by apply Hnew. }
  destruct (detect_new_run now fs directory_path user db Hnone)
    as (ns & score & Hfirst & Hscore).
  set (dt := detect_type fs project_files) in *. clearbody dt.
  set (learned :=
         ProjectContext.mk (next_id (map ProjectContext.id (contexts db)))
           (Str.last_segment directory_path) ns
           (default "unknown" dt) score now 1)
    in *.
  assert (Hfound :
    first (where_ (fun r => eq_str (ProjectContext.directory_pattern r)
                              (Str.last_segment directory_path))
             (contexts first_call.2)) = Some learned).
  { subst first_call. rewrite Hfirst. simpl.
    unfold where_ in *. rewrite List.filter_app, Hnone. simpl.
    unfold eq_str. by rewrite bool_decide_eq_true_2. }
  assert (Hsecond := detect_seen_run later fs' directory_path user'
                       first_call.2 learned Hfound).
  fold second_call in Hsecond.
  exists learned. rewrite Hsecond. subst first_call. rewrite Hfirst. simpl.
  repeat (split; [done|]). split.
  { destruct dt as [t|]; simpl.
    - repeat (split; [done|]).
      destruct Hscore as [[-> ->]|[-> Ht]]; [by left|].
      right. split; [done|].
      destruct Ht as [[-> _]|[-> Hname]]; [done|by split].
    - destruct Hscore as [-> ->]. by repeat split. }
  split; [|done].
  f_equal. rewrite map_app. simpl. unfold eq_int.
  rewrite bool_decide_eq_true_2 by done. f_equal.
  apply (map_other_keys ProjectContext.id). apply next_id_fresh.
Qed.

Lemma new_pattern_is_learned_witness :
  r_confidence_score
    (detect_project_context 600 Examples.no_files "/srv/api" None
       (detect_project_context 500 Examples.no_files "/srv/api" None
          Examples.seen_webapp).2).1
  = Z.min 100
      (r_confidence_score
         (detect_project_context 500 Examples.no_files "/srv/api" None
            Examples.seen_webapp).1 + 5).
Proof.
  destruct (new_pattern_is_learned 500 600 Examples.no_files
              Examples.no_files "/srv/api" None None Examples.seen_webapp)
    as (learned & _ & _ & _ & _ & _ & _ & _ & _ & _ & _ & _ & _ & _ & H).
  - intros e He. apply list_elem_of_singleton in He as ->. discriminate.
  - reflexivity.
  - exact H.
Defined.

(** X16. The first marker file of the table that exists decides the project
    type: [detect_type] answers a type exactly when some file of the table
    exists, and then the type of the earliest such file. *)
Theorem first_marker_decides fs files :
  match detect_type fs files with
  | Some t =>
      exists i file,
        files !! i = Some (file, t)
        /\ marker_exists fs file = true
        /\ forall j file' t', (j < i)%nat -> files !! j = Some (file', t') ->
             marker_exists fs file' = false
  | None => forall file t, (file, t) ∈ files -> marker_exists fs file = false
  end.
Proof.
  induction files as [|[file t] files IH]; simpl.
  - intros file t Hin. inversion Hin.
  - destruct (marker_exists fs file) eqn:Hfile.
    + exists 0%nat, file. split; [done|]. split; [done|]. lia.
    + destruct (detect_type fs files) as [t0|].
      * destruct IH as (i & file0 & Hi & Hexists & Hearlier).
        exists (S i), file0. split; [done|]. split; [done|].
        intros [|j] file' t' Hj Hlook; simpl in Hlook.
        -- by injection Hlook as <- <-.
        -- apply (Hearlier j file' t'); [lia|done].
      * intros file' t' Hin.
        apply elem_of_cons in Hin as [[= -> ->]|Hin]; [done|].
        by apply (IH file' t').
Qed.

Lemma flush_context_keys now e db :
  map ProjectContext.id (contexts (flush_context (set_detected now e) db))
  = map ProjectContext.id (contexts db)
  /\ (e ∈ contexts db ->
      NoDup (map ProjectContext.id (contexts db)) ->
      map ProjectContext.directory_pattern
        (contexts (flush_context (set_detected now e) db))
      = map ProjectContext.directory_pattern (contexts db)).
Proof.
  unfold flush_context, eq_int. simpl. rewrite !List.map_map. split.
  - apply List.map_ext. intros r. simpl.
    by destruct (bool_decide_reflect (ProjectContext.id r = ProjectContext.id e))
      as [->|].
  - intros He Hnd. apply List.map_ext_in. intros r Hr.
    apply list_elem_of_In in Hr.
    destruct (bool_decide_reflect (ProjectContext.id r = ProjectContext.id e))
      as [Heq|]; [|done].
    simpl. f_equal. symmetry.
    apply list_elem_of_lookup in Hr as [i Hi].
    apply list_elem_of_lookup in He as [j Hj].
    assert (i = j); [|congruence].
    eapply NoDup_lookup; [exact Hnd|..];
      rewrite list_lookup_fmap; [by rewrite Hi|by rewrite Hj, Heq].
Qed.

(** X17. [detect_project_context] keeps the constraints of the context
    table: if no two rows share an identifier or a directory pattern before
    the call, none do after it, whether the pattern was seen or is new. *)
Theorem detect_keeps_contexts_unique now fs directory_path user db :
  unique_contexts db ->
  unique_contexts (detect_project_context now fs directory_path user db).2.
Proof.
  intros [Hids Hpatterns].
  destruct (first (where_ (fun r => eq_str (ProjectContext.directory_pattern r)
                                      (Str.last_segment directory_path))
                     (contexts db))) as [e|] eqn:Hfound.
  - rewrite (detect_seen_run _ _ _ _ _ e Hfound). simpl.
    apply first_elem_of, elem_of_where in Hfound as [He _].
    destruct (flush_context_keys now e db) as [Hsame_ids Hsame_patterns].
    unfold unique_contexts. by rewrite Hsame_ids, Hsame_patterns.
  - apply first_None_iff in Hfound.
    destruct (detect_new_run now fs directory_path user db Hfound)
      as (ns & score & -> & _).
    unfold unique_contexts. simpl. rewrite !map_app. simpl. split.
    + apply NoDup_app. split; [done|]. split; [|apply NoDup_singleton].
      intros x Hx Hnew. apply list_elem_of_singleton in Hnew as ->.
      by apply next_id_fresh in Hx.
    + apply NoDup_app. split; [done|]. split; [|apply NoDup_singleton].
      intros x Hx Hnew. apply list_elem_of_singleton in Hnew as ->.
      apply list_elem_of_fmap in Hx as (e & Heq & He).
      rewrite where_nil_iff in Hfound. specialize (Hfound e He).
      unfold eq_str in Hfound. by rewrite bool_decide_eq_true_2 in Hfound.
Qed.

Lemma detect_keeps_contexts_unique_witness :
  unique_contexts
    (detect_project_context 500 Examples.no_files "/home/alice/webapp" None
       Examples.seen_webapp).2.
Proof.
  apply detect_keeps_contexts_unique.
  split; apply (bool_decide_unpack _); vm_compute; exact I.
Defined.

(** ** What suggestions and similar commands can contain *)

Lemma elem_of_slice_to {A} n (l : list A) x : x ∈ slice_to n l -> x ∈ l.
Proof. unfold slice_to. destruct (n <? 0); apply subseteq_take. Qed.

Lemma suggestions_run user hostname cwd project_type limit_ db :
  let pattern := "%" +:+ Str.last_segment (default "" cwd) +:+ "%" in
  let similar_dir :=
    if truthy cwd
    then limit limit_
           (order_by (desc (similar_dir_count pattern db))
              (where_ (fun c => 0 <? similar_dir_count pattern db c)
                 (commands db)))
    else [] in
  let of_user :=
    if truthy user && (len similar_dir <? limit_)
    then limit (limit_ - len similar_dir)
           (order_by (desc Command.use_count)
              (where_ (fun c => eq_col (Command.user c) user) (commands db)))
    else [] in
  let shared :=
    if len (similar_dir ++ of_user) <? limit_
    then limit (limit_ - len (similar_dir ++ of_user))
           (order_by (desc Command.use_count)
              (where_ (fun c => ne_str (Command.scope c) "personal")
                 (commands db)))
    else [] in
  (get_suggestions_for_context user hostname cwd project_type limit_ db).1
  = take (Z.to_nat limit_) (first_seen (similar_dir ++ of_user ++ shared)).
Proof.
  intros pattern similar_dir of_user shared.
  rewrite <- unique_loop_first_seen.
  subst similar_dir of_user shared.
  unfold get_suggestions_for_context, bind, query, ret. fold pattern.
  generalize (unique_loop limit_). intros dedup.
  destruct (truthy cwd); simpl;
    destruct (truthy user); simpl;
    repeat (rewrite ?app_nil_r; destruct (_ <? limit_); simpl);
    by rewrite ?app_nil_r, <- ?app_assoc.
Qed.

(** X18. Every suggestion is a stored command that was executed in a
    directory like the caller's, or belongs to the caller, or has a scope
    other than personal.  So without a working directory no personal
    command of another user is ever suggested. *)
Theorem suggestions_are_relevant user hostname cwd project_type limit_ db c :
  c ∈ (get_suggestions_for_context user hostname cwd project_type limit_ db).1
  ->
  c ∈ commands db
  /\ ((truthy cwd = true
       /\ 0 < similar_dir_count
                ("%" +:+ Str.last_segment (default "" cwd) +:+ "%") db c)
      \/ (truthy user = true /\ Command.user c = user)
      \/ Command.scope c <> "personal").
Proof.
  rewrite suggestions_run. intros Hc.
  apply subseteq_take in Hc.
  apply (sublist_subseteq _ _ (first_seen_sublist _)) in Hc.
  apply elem_of_app in Hc as [Hc|Hc]; [|apply elem_of_app in Hc as [Hc|Hc]].
  - destruct (truthy cwd); [|inversion Hc].
    apply elem_of_limit, elem_of_order_by, elem_of_where in Hc as [Hc Hcount].
    split; [done|]. left. split; [done|]. lia.
  - destruct (truthy user); simpl in Hc; [|inversion Hc].
    destruct (_ <? limit_); [|inversion Hc].
    apply elem_of_limit, elem_of_order_by, elem_of_where in Hc as [Hc Howner].
    split; [done|]. right. left. split; [done|].
    by apply bool_decide_eq_true in Howner.
  - destruct (_ <? limit_); [|inversion Hc].
    apply elem_of_limit, elem_of_order_by, elem_of_where in Hc as [Hc Hscope].
    split; [done|]. right. right.
    unfold ne_str in Hscope.
    by rewrite negb_true_iff, bool_decide_eq_false in Hscope.
Qed.

Lemma suggestions_are_relevant_witness :
  Examples.alice_utility ∈ commands Examples.alice_only
  /\ ((truthy None = true
       /\ 0 < similar_dir_count
                ("%" +:+ Str.last_segment (default "" None) +:+ "%")
                Examples.alice_only Examples.alice_utility)
      \/ (truthy (Some "alice") = true
          /\ Command.user Examples.alice_utility = Some "alice")
      \/ Command.scope Examples.alice_utility <> "personal").
Proof.
  apply (suggestions_are_relevant (Some "alice") None None None 5
           Examples.alice_only Examples.alice_utility).
  apply (bool_decide_unpack _). vm_compute. exact I.
Defined.

(** X19. For every limit, whatever [get_command_similarity] returns is a
    stored command other than the one asked about that shares its namespace
    or at least one word of its text. *)
Theorem similar_commands_are_related command_id limit_ db c :
  c ∈ (get_command_similarity command_id limit_ db).1 ->
  c ∈ commands db
  /\ Command.id c <> command_id
  /\ exists base,
       first (where_ (fun r => eq_int (Command.id r) command_id) (commands db))
       = Some base
       /\ (Command.namespace c = Command.namespace base
           \/ 0 < overlap base c).
Proof.
  unfold get_command_similarity, bind, query, ret.
  destruct (first _) as [base|] eqn:Hbase; simpl; [|by intros Hc; inversion Hc].
  assert (Hns : forall x,
    x ∈ limit limit_
          (order_by (desc Command.use_count)
             (where_ (fun r => eq_str (Command.namespace r)
                                 (Command.namespace base)
                               && negb (eq_int (Command.id r) command_id))
                (commands db))) ->
    x ∈ commands db /\ Command.id x <> command_id
    /\ Command.namespace x = Command.namespace base).
  { intros x Hx.
    apply elem_of_limit, elem_of_order_by, elem_of_where in Hx as [Hx Hp].
    unfold eq_str, eq_int in Hp.
    rewrite andb_true_iff, negb_true_iff, bool_decide_eq_true,
      bool_decide_eq_false in Hp. tauto. }
  destruct (limit_ <=? _); simpl; intros Hc.
  - destruct (Hns c Hc) as (? & ? & ?). eauto 6.
  - apply elem_of_slice_to, elem_of_app in Hc as [Hc|Hc].
    + destruct (Hns c Hc) as (? & ? & ?). eauto 6.
    + apply list_elem_of_fmap in Hc as ([c0 n] & -> & Hc).
      apply elem_of_slice_to, elem_of_order_by in Hc.
      rewrite overlap_loop_run in Hc. simpl in Hc.
      apply list_elem_of_fmap in Hc as (c1 & [= <- ->] & Hc).
      apply elem_of_where in Hc as [Hc Hov].
      apply elem_of_where in Hc as [Hc Hid].
      unfold eq_int in Hid.
      rewrite negb_true_iff, bool_decide_eq_false in Hid.
      split; [done|]. split; [done|]. exists base. split; [done|].
      right. unfold overlap. simpl. lia.
Qed.

Lemma similar_commands_are_related_witness :
  Examples.git_log ∈ commands Examples.git_store
  /\ Command.id Examples.git_log <> 1
  /\ exists base,
       first (where_ (fun r => eq_int (Command.id r) 1)
                (commands Examples.git_store))
       = Some base
       /\ (Command.namespace Examples.git_log = Command.namespace base
           \/ 0 < overlap base Examples.git_log).
Proof.
  apply (similar_commands_are_related 1 5 Examples.git_store Examples.git_log).
  apply (bool_decide_unpack _). vm_compute. exact I.
Defined.

(** ** Recalling again *)

Lemma where_map {A B} (g : A -> B) (p : B -> bool) l :
  where_ p (map g l) = map g (where_ (fun a => p (g a)) l).
Proof.
  unfold where_. induction l as [|a l IH]; simpl; [done|].
  destruct (p (g a)); simpl; by rewrite IH.
Qed.


Lemma first_map {A B} (g : A -> B) l : first (map g l) = g <$> first l.
Proof. by destruct l. Qed.

(** Tiers that do not look at what [g] changes find, among the changed
    rows, the change of what they found before. *)
Lemma first_hit_map (g : Command.t -> Command.t) tiers rows :
  (forall r, Command.created_at (g r) = Command.created_at r) ->
  Forall (fun p : Command.t -> bool => forall r, p (g r) = p r) tiers ->
  first_hit tiers (map g rows)
  = (fun kc => (kc.1, g kc.2)) <$> first_hit tiers rows.
Proof.
  intros Hcreated. induction 1 as [|p tiers Hp _ IH]; simpl; [done|].
  rewrite where_map, (where_ext _ p) by done.
  rewrite order_by_desc_map.
  rewrite (order_by_ext _ (desc Command.created_at))
    by (intros x y; unfold desc; by rewrite !Hcreated).
  rewrite first_map.
  destruct (first _) as [c|]; simpl; [done|].
  rewrite IH. by destruct (first_hit tiers rows) as [[k c]|].
Qed.

Lemma flush_bump_map now c db :
  unique_ids db -> c ∈ commands db ->
  commands (flush_command (bump now c) db)
  = map (fun r => if eq_int (Command.id r) (Command.id c)
                  then bump now r else r)
      (commands db).
Proof.
  intros Hnd Hc. unfold flush_command. simpl.
  apply List.map_ext_in. intros r Hr. apply list_elem_of_In in Hr.
  unfold eq_int.
  destruct (bool_decide_reflect (Command.id r = Command.id c)) as [Heq|];
    [|done].
  f_equal. apply list_elem_of_lookup in Hr as [i Hi].
  apply list_elem_of_lookup in Hc as [j Hj].
  assert (i = j); [|congruence].
  eapply NoDup_lookup; [exact Hnd|..];
    rewrite list_lookup_fmap; [by rewrite Hi|by rewrite Hj, Heq].
Qed.

(** X20. [recall_command] does not rank by usage, so recalling again with
    the same arguments returns the same command: with unique identifiers, a
    recall that returned a command is followed, whatever the clock reads
    then, by one that returns that command with one more use. *)
Theorem recall_command_again
    now later name namespace user hostname cwd db r :
  unique_ids db ->
  (recall_command now name namespace user hostname cwd db).1 = Some r ->
  let again :=
    (recall_command later name namespace user hostname cwd
       (recall_command now name namespace user hostname cwd db).2).1 in
  again = Some (bump later r)
  /\ Command.id <$> again = Some (Command.id r)
  /\ Command.use_count <$> again = Some (Command.use_count r + 1).
Proof.
  intros Hnd Hr again.
  assert (Hagain : again = Some (bump later r)); [|by rewrite Hagain].
  subst again. rewrite recall_command_run in Hr.
  rewrite (recall_command_run now), recall_command_run.
  destruct (first_hit _ (commands db)) as [[k c]|] eqn:Hhit; [|done].
  simpl in Hr. injection Hr as <-.
  pose proof (first_hit_elem_of _ _ _ _ Hhit) as Hc.
  change ((recalled now (snd <$> Some (k, c)) db).2)
    with (flush_command (bump now c) db).
  rewrite flush_bump_map by done.
  rewrite first_hit_map.
  - rewrite Hhit. simpl. unfold eq_int. by rewrite bool_decide_eq_true_2.
  - intros x. by destruct (eq_int (Command.id x) (Command.id c)).
  - unfold recall_tiers.
    repeat (apply Forall_cons; split; [|]); [..|by apply Forall_nil];
      simpl; intros x; by destruct (eq_int (Command.id x) (Command.id c)).
Qed.

Lemma recall_command_again_witness :
  (recall_command 300 "c" "ns" (Some "u1") (Some "h1") (Some "/cwd1")
     (recall_command 200 "c" "ns" (Some "u1") (Some "h1") (Some "/cwd1")
        Examples.two_cwds).2).1
  = Some (bump 300
            (bump 200
               (Examples.cmd 1 "user_host_cwd" "c" "ns" (Some "u1")
                  (Some "/cwd1") (Some "h1") "personal" 100 0))).
Proof.
  refine (proj1 (recall_command_again 200 300 "c" "ns" (Some "u1") (Some "h1")
                   (Some "/cwd1") Examples.two_cwds _ _ eq_refl)).
  apply (bool_decide_unpack _). vm_compute. exact I.
Defined.

(** ** The primary key is kept *)

Lemma recalled_unique_ids now hit db :
  unique_ids db -> unique_ids (recalled now hit db).2.
Proof.
  intros Hnd. destruct hit as [c|]; simpl; [|done].
  unfold unique_ids. by rewrite flush_command_ids.
Qed.

(** X21. Every operation on commands keeps their identifiers unique: saving,
    updating, renaming, deleting, either recall and tracking an execution
    leave no two stored commands with the same identifier if there were
    none before. *)
Theorem operations_keep_ids_unique
    db now command command_id caller text name namespace user hostname cwd
    namespace_hint scope_hint :
  unique_ids db ->
  unique_ids (create_command now command db).2
  /\ unique_ids (update_command command_id caller text db).2
  /\ unique_ids (rename_command command_id caller name namespace db).2
  /\ unique_ids (delete_command command_id caller db).2
  /\ unique_ids (recall_command now name namespace user hostname cwd db).2
  /\ unique_ids
       (recall_command_by_name now name user hostname cwd namespace_hint
          scope_hint db).2
  /\ unique_ids (track_execution now command_id caller db).2.
Proof.
  intros Hnd. split; [by apply create_command_unique_ids|].
  unfold update_command, rename_command, delete_command, bind, query, commit,
    ret.
  rewrite recall_command_run, recall_command_by_name_run, track_execution_run.
  destruct (owned_by_id command_id caller db) as [c|]; simpl.
  - repeat split; try (by apply recalled_unique_ids).
    + unfold unique_ids. by rewrite flush_command_ids.
    + unfold unique_ids. by rewrite flush_command_ids.
    + unfold unique_ids. simpl.
      eapply sublist_NoDup; [exact Hnd|]. apply map_sublist, where_sublist.
  - repeat split; try done; by apply recalled_unique_ids.
Qed.

Lemma operations_keep_ids_unique_witness :
  unique_ids (create_command 100 Examples.save_top Examples.alice_only).2
  /\ unique_ids (delete_command 1 "alice" Examples.alice_only).2.
Proof.
  destruct (operations_keep_ids_unique Examples.alice_only 100
              Examples.save_top 1 "alice" "t" "n" "ns" None None None None
              None)
    as (Hcreate & _ & _ & Hdelete & _).
  - apply (bool_decide_unpack _). vm_compute. exact I.
  - split; [exact Hcreate | exact Hdelete].
Defined.

(** ** Refusal at the HTTP boundary *)

(** X22. The handlers that address a command by identifier (read, update,
    rename, delete, track execution) answer a caller who asks for another
    user's personal command exactly as they answer for an identifier that
    does not exist: the same 404 with the same detail, the store
    untouched. *)
Theorem refusal_looks_like_absence
    db c owner caller absent now text name namespace :
  unique_ids db ->
  c ∈ commands db ->
  Command.scope c = "personal" ->
  Command.user c = Some owner ->
  caller <> owner ->
  absent ∉ map Command.id (commands db) ->
  let refused :=
    (HTTPException 404 "Command not found or user does not have permission",
     db) in
  main.get_command_by_id (Command.id c) caller db = refused
  /\ main.get_command_by_id absent caller db = refused
  /\ main.update_command (Command.id c) caller text db = refused
  /\ main.update_command absent caller text db = refused
  /\ main.rename_command (Command.id c) caller name namespace db = refused
  /\ main.rename_command absent caller name namespace db = refused
  /\ main.delete_command (Command.id c) caller db = refused
  /\ main.delete_command absent caller db = refused
  /\ main.track_command_execution now (Command.id c) caller db = refused
  /\ main.track_command_execution now absent caller db = refused.
Proof.
  intros Hnd Hc Hscope Howner Hne Habsent refused.
  destruct (foreign_personal_row db c owner caller) as [Hown Hget]; try done.
  destruct (absent_row db absent caller Habsent) as [Hown' Hget'].
  unfold main.get_command_by_id, main.update_command, main.rename_command,
    main.delete_command, main.track_command_execution,
    update_command, rename_command, delete_command, bind, query.
  rewrite !track_execution_run, Hown, Hown', Hget, Hget'.
  by repeat split.
Qed.

Lemma refusal_looks_like_absence_witness :
  main.get_command_by_id 1 "bob" Examples.alice_only
  = main.get_command_by_id 99999 "bob" Examples.alice_only.
Proof.
  destruct (refusal_looks_like_absence Examples.alice_only
              Examples.alice_utility "alice" "bob" 99999 200 "t" "n" "ns")
    as (H1 & H2 & _).
  - apply (bool_decide_unpack _). vm_compute. exact I.
  - apply (bool_decide_unpack _). vm_compute. exact I.
  - reflexivity.
  - reflexivity.
  - discriminate.
  - apply (bool_decide_unpack _). vm_compute. exact I.
  - exact (eq_trans H1 (eq_sym H2)).
Defined.

(** ** Context beats popularity *)

(** X23. In [recall_command_by_name], when user, hostname, cwd and namespace
    hint are all given and some personal command of that name matches all
    four, the command returned matches all four, whatever the use counts of
    the other commands of that name. *)
Theorem exact_context_wins
    now name user hostname cwd namespace_hint scope_hint db :
  all_truthy [user; hostname; cwd; namespace_hint] = true ->
  (exists c, c ∈ commands db /\ Command.name c = name
             /\ Command.user c = user /\ Command.hostname c = hostname
             /\ Command.cwd c = cwd
             /\ Some (Command.namespace c) = namespace_hint
             /\ Command.scope c = "personal") ->
  exists r,
    (recall_command_by_name now name user hostname cwd namespace_hint
       scope_hint db).1 = Some (bump now r)
    /\ r ∈ commands db /\ Command.name r = name
    /\ Command.user r = user /\ Command.hostname r = hostname
    /\ Command.cwd r = cwd
    /\ Some (Command.namespace r) = namespace_hint
    /\ Command.scope r = "personal".
Proof.
  intros Hgate (c & Hc & Hname & Hu & Hh & Hw & Hns & Hscope).
  rewrite recall_command_by_name_run. unfold by_name_tiers.
  cbn [run_tiers required matching ordering]. rewrite Hgate.
  destruct (first _) as [r|] eqn:Hfirst.
  - exists r. split; [done|].
    apply first_order_by_elem_of, elem_of_where in Hfirst as [Hr Hp].
    unfold eq_str, eq_col in Hp.
    rewrite !andb_true_iff, !bool_decide_eq_true in Hp. tauto.
  - exfalso. apply first_order_by_None in Hfirst.
    rewrite where_nil_iff in Hfirst. specialize (Hfirst c Hc).
    unfold eq_str, eq_col in Hfirst.
    rewrite Hname, Hu, Hh, Hw, Hns, Hscope in Hfirst.
    by rewrite !bool_decide_eq_true_2 in Hfirst.
Qed.

Lemma exact_context_wins_witness :
  exists r,
    (recall_command_by_name 200 "deploy" (Some "alice") (Some "laptop")
       (Some "/home/alice/webapp") (Some "webapp") None Examples.deploys).1
    = Some (bump 200 r)
    /\ r ∈ commands Examples.deploys /\ Command.name r = "deploy"
    /\ Command.user r = Some "alice" /\ Command.hostname r = Some "laptop"
    /\ Command.cwd r = Some "/home/alice/webapp"
    /\ Some (Command.namespace r) = Some "webapp"
    /\ Command.scope r = "personal".
Proof.
  apply (exact_context_wins 200 "deploy" (Some "alice") (Some "laptop")
           (Some "/home/alice/webapp") (Some "webapp") None Examples.deploys).
  - reflexivity.
  - exists (Examples.cmd 1 "echo 'exact match'" "deploy" "webapp"
              (Some "alice") (Some "/home/alice/webapp") (Some "laptop")
              "personal" 100 1).
    split; [by left|]. by repeat split.
Defined.

(** X24. In [recall_command_by_name] without hostname and cwd, a namespace
    hint decides before usage does: if some command of that name lies in the
    hinted namespace, the command returned lies in it, and is among the most
    used of that name there, however much more other namespaces' commands
    of that name were used. *)
Theorem namespace_hint_decides
    now name user hostname cwd ns scope_hint db :
  truthy hostname = false ->
  truthy cwd = false ->
  ns <> "" ->
  (exists c, c ∈ commands db /\ Command.name c = name
             /\ Command.namespace c = ns) ->
  exists r,
    (recall_command_by_name now name user hostname cwd (Some ns) scope_hint
       db).1 = Some (bump now r)
    /\ r ∈ commands db /\ Command.name r = name /\ Command.namespace r = ns
    /\ forall c', c' ∈ commands db -> Command.name c' = name ->
         Command.namespace c' = ns ->
         Command.use_count c' <= Command.use_count r.
Proof.
  intros Hh Hw Hns (c & Hc & Hname & Hcns).
  rewrite recall_command_by_name_run. unfold by_name_tiers.
  cbn [run_tiers required matching ordering all_truthy forallb].
  rewrite Hh, Hw. rewrite ?andb_false_r. cbn [andb].
  assert (Hhint : truthy (Some ns) = true).
  { simpl. apply negb_true_iff. by apply String.eqb_neq. }
  rewrite Hhint.
  destruct (first _) as [r|] eqn:Hfirst.
  - exists r. split; [done|].
    pose proof (first_order_by_elem_of _ _ _ Hfirst) as Hr.
    apply elem_of_where in Hr as [Hr Hp].
    unfold eq_str, eq_col in Hp.
    rewrite andb_true_iff, !bool_decide_eq_true in Hp.
    destruct Hp as [Hrname [= Hrns]].
    repeat (split; [done|]). intros c' Hc' Hname' Hns'.
    apply (first_order_by_desc_max _ _ _ Hfirst).
    apply elem_of_where. split; [done|]. unfold eq_str, eq_col.
    rewrite Hname', Hns'. by rewrite !bool_decide_eq_true_2.
  - exfalso. apply first_order_by_None in Hfirst.
    rewrite where_nil_iff in Hfirst. specialize (Hfirst c Hc).
    unfold eq_str, eq_col in Hfirst. rewrite Hname, Hcns in Hfirst.
    by rewrite !bool_decide_eq_true_2 in Hfirst.
Qed.

Lemma namespace_hint_decides_witness :
  exists r,
    (recall_command_by_name 200 "deploy" (Some "alice") None None
       (Some "webapp") None Examples.two_namespaces).1 = Some (bump 200 r)
    /\ r ∈ commands Examples.two_namespaces
    /\ Command.name r = "deploy" /\ Command.namespace r = "webapp"
    /\ forall c', c' ∈ commands Examples.two_namespaces ->
         Command.name c' = "deploy" -> Command.namespace c' = "webapp" ->
         Command.use_count c' <= Command.use_count r.
Proof.
  apply (namespace_hint_decides 200 "deploy" (Some "alice") None None "webapp"
           None Examples.two_namespaces).
  - reflexivity.
  - reflexivity.
  - discriminate.
  - exists (Examples.cmd 1 "echo 'webapp version'" "deploy" "webapp"
              (Some "alice") None None "personal" 100 1).
    split; [by left|]. by split.
Defined.

(** X25. In [recall_command] a personal command saved by the same user on
    the same host shields from everything else: if one exists under the name
    and namespace, the command returned is personal and of that user and
    host, never a shared command and never another user's. *)
Theorem personal_match_shields now name namespace user hostname cwd db :
  (exists c, c ∈ commands db
             /\ Command.name c = name /\ Command.namespace c = namespace
             /\ Command.scope c = "personal"
             /\ Command.user c = user /\ Command.hostname c = hostname) ->
  exists r,
    (recall_command now name namespace user hostname cwd db).1
    = Some (bump now r)
    /\ r ∈ commands db
    /\ Command.name r = name /\ Command.namespace r = namespace
    /\ Command.scope r = "personal"
    /\ Command.user r = user /\ Command.hostname r = hostname.
Proof.
  intros (c & Hc & Hname & Hns & Hscope & Hu & Hh).
  assert (Hsecond :
    where_ (fun c => eq_str (Command.name c) name
                     && eq_str (Command.namespace c) namespace
                     && eq_str (Command.scope c) "personal"
                     && (eq_col (Command.user c) user
                         && eq_col (Command.hostname c) hostname))
      (commands db) <> []).
  { intros Hnil. rewrite where_nil_iff in Hnil. specialize (Hnil c Hc).
    unfold eq_str, eq_col in Hnil. rewrite Hname, Hns, Hscope, Hu, Hh in Hnil.
    by rewrite !bool_decide_eq_true_2 in Hnil. }
  rewrite recall_command_run.
  destruct (first_hit _ _) as [[k r]|] eqn:Hhit; simpl.
  - exists r. split; [done|].
    apply first_hit_Some in Hhit as (p & Hp & Hearlier & Hr & _).
    apply elem_of_where in Hr as [Hr Hpr]. split; [done|].
    destruct k as [|[|k]].
    + injection Hp as <-. unfold eq_str, eq_col in Hpr.
      rewrite !andb_true_iff, !bool_decide_eq_true in Hpr. tauto.
    + injection Hp as <-. unfold eq_str, eq_col in Hpr.
      rewrite !andb_true_iff, !bool_decide_eq_true in Hpr. tauto.
    + exfalso. apply Hsecond.
      apply (Hearlier 1%nat); [lia|done].
  - exfalso. apply Hsecond. rewrite first_hit_None_iff in Hhit.
    apply Hhit. unfold recall_tiers. right. by left.
Qed.

Lemma personal_match_shields_witness :
  exists r,
    (recall_command 200 "c" "ns" (Some "u1") (Some "h1") (Some "/elsewhere")
       Examples.two_cwds).1 = Some (bump 200 r)
    /\ r ∈ commands Examples.two_cwds
    /\ Command.name r = "c" /\ Command.namespace r = "ns"
    /\ Command.scope r = "personal"
    /\ Command.user r = Some "u1" /\ Command.hostname r = Some "h1".
Proof.
  apply (personal_match_shields 200 "c" "ns" (Some "u1") (Some "h1")
           (Some "/elsewhere") Examples.two_cwds).
  exists (Examples.cmd 1 "user_host_cwd" "c" "ns" (Some "u1") (Some "/cwd1")
            (Some "h1") "personal" 100 0).
  split; [by left|]. by repeat split.
Defined.

(** ** The analytics window *)

Lemma where_length_mono {A} (p q : A -> bool) l :
  (forall x, p x = true -> q x = true) ->
  (length (where_ p l) <= length (where_ q l))%nat.
Proof.
  intros Hpq. unfold where_. induction l as [|x l IH]; simpl; [done|].
  destruct (p x) eqn:Hp.
  - rewrite (Hpq x Hp). simpl. lia.
  - destruct (q x); simpl; lia.
Qed.

(** X26. The analytics total grows with the window and shrinks with the
    user filter: among the totals returned, that of a window of more days
    counts at least as many executions, and the total for one user is at
    most the total for all users. *)
Theorem analytics_total_monotone now user days days' db a :
  days <= days' ->
  (get_execution_analytics now user days db).1 = Returns a ->
  (forall a', (get_execution_analytics now user days' db).1 = Returns a' ->
     total_executions a <= total_executions a')
  /\ (forall b, (get_execution_analytics now None days db).1 = Returns b ->
        total_executions a <= total_executions b).
Proof.
  intros Hle Ha.
  apply analytics_returns in Ha as (from_date & Hdays & -> & _).
  rewrite days_ago_dated in Hdays.
  destruct (window_is_dated now days); [|done]. injection Hdays as <-.
  split.
  - intros a' Ha'.
    apply analytics_returns in Ha' as (from_date' & Hdays' & -> & _).
    rewrite days_ago_dated in Hdays'.
    destruct (window_is_dated now days'); [|done]. injection Hdays' as <-.
    unfold in_window, len.
    destruct (truthy user); rewrite ?where_where;
      apply inj_le, where_length_mono; intros e;
      rewrite ?andb_true_iff, ?Z.ltb_lt; intuition lia.
  - intros b Hb.
    apply analytics_returns in Hb as (from_date' & Hdays' & -> & _).
    rewrite days_ago_dated in Hdays'.
    destruct (window_is_dated now days); [|done]. injection Hdays' as <-.
    unfold in_window, len. simpl.
    destruct (truthy user); rewrite ?where_where;
      apply inj_le, where_length_mono; intros e;
      rewrite ?andb_true_iff, ?Z.ltb_lt; intuition lia.
Qed.

Lemma analytics_total_monotone_witness :
  exists a a',
    (get_execution_analytics 86400010 (Some "alice") 1
       Examples.with_history).1 = Returns a
    /\ (get_execution_analytics 86400010 (Some "alice") 1000
          Examples.with_history).1 = Returns a'
    /\ total_executions a = 1
    /\ total_executions a' = 4
    /\ total_executions a <= total_executions a'.
Proof.
  eexists _, _. split; [reflexivity|]. split; [reflexivity|].
  split; [reflexivity|]. split; [reflexivity|].
  refine (proj1 (analytics_total_monotone 86400010 (Some "alice") 1 1000
                   Examples.with_history _ _ _) _ _).
  - lia.
  - reflexivity.
  - reflexivity.
Defined.
